(** * Membership_Manager: statement parser and membership classifier

    A shallow embedding of [bank_parser.py] and [llm_classifier.py], and of
    the two reports of [main.py] over what they produce:

    - a Python [str] is a list of code points, a [float] a binary64 value,
      a [datetime] a count of microseconds on the time line;
    - a transaction [dict] is a record whose date and whose classifier keys
      may be absent, and each position of a list of transactions holds its own [dict], as
      the parsers build them;
    - the values decoded from the classification service are JSON values;
    - code that can raise returns a [result];
    - what the interpreter and the third-party libraries provide (the
      Unicode tables behind [str.upper], [str.split] and the [re] classes,
      [float()], [sum], [round], [json.loads], [dateutil]) is an interface,
      [Python], with one executable instance, [cpython]. *)

From Stdlib Require Import String Ascii DecimalString.
From Stdlib Require Import ZArith NArith Bool Lia Floats List.
From Stdlib Require Import Sorted Permutation.
Import ListNotations.

Set Implicit Arguments.
Set Warnings "-register-all,-inexact-float".

(** ** Exceptions *)

Inductive exn := IndexError | TypeError | AttributeError | KeyError | ValueError.

Inductive result (A : Type) : Type :=
| Ok (a : A)
| Raise (e : exn).

Arguments Ok {A} a.
Arguments Raise {A} e.

Definition bind {A B} (r : result A) (k : A -> result B) : result B :=
  match r with
  | Ok a => k a
  | Raise e => Raise e
  end.

Notation "x <- r ;; k" := (bind r (fun x => k))
  (at level 61, r at next level, right associativity).

(** [for x in l: ...] over a body that may raise. *)
Fixpoint mapM {A B} (f : A -> result B) (l : list A) : result (list B) :=
  match l with
  | [] => Ok []
  | x :: l' => y <- f x ;; ys <- mapM f l' ;; Ok (y :: ys)
  end.

(** ** Strings *)

Definition pystr := list N.

(** An ASCII literal of the source. *)
Definition lit (s : string) : pystr := map N_of_ascii (list_ascii_of_string s).

Definition str_eqb (a b : pystr) : bool :=
  if list_eq_dec N.eq_dec a b then true else false.

Definition SPACE : N := 32.
Definition LBRACKET : N := 91.
Definition RBRACKET : N := 93.

(** ** JSON values

    What [json.loads] returns: [None], [bool], [int], [float] (a number
    with a fraction or an exponent, and the constants [NaN], [Infinity] and
    [-Infinity] that it accepts), [str], [list] and [dict]. A [dict] keeps
    its keys in insertion order. *)

Inductive jvalue :=
| JNull
| JBool (b : bool)
| JInt (z : Z)
| JFloat (x : float)
| JStr (s : pystr)
| JArr (l : list jvalue)
| JObj (kv : list (pystr * jvalue)).

(** What the Python runtime and the libraries decide. The laws are the
    facts about the Unicode tables that the proofs below rely on. *)
Class Python := {
  (** [str.upper] and [str.lower] of one code point *)
  upper_char : N -> pystr;
  lower_char : N -> pystr;
  (** [\d] of [re] *)
  isdigit : N -> bool;
  (** [\s] of [re], and the white space of [str.strip] and [str.split] *)
  isspace : N -> bool;
  (** [float(s)]; [None] is [ValueError] *)
  py_float : pystr -> option float;
  (** [sum(xs)] over floats *)
  py_sum : list float -> float;
  (** [round(x, 2)] *)
  py_round2 : float -> float;
  (** [dateutil.parser.parse(s)]; [None] when it raises *)
  dateutil_parse : pystr -> option Z;
  (** [datetime.now()] *)
  datetime_now : Z;
  (** [json.loads(s)]; [None] when it raises *)
  json_loads : pystr -> option jvalue;

  upper_fixed : forall c u, In u (upper_char c) -> upper_char u = [u];
  upper_not_lower : forall c u, In u (upper_char c) -> (u < 97 \/ 122 < u)%N;
  upper_space : upper_char SPACE = [SPACE];
  space_isspace : isspace SPACE = true;
  space_not_digit : isdigit SPACE = false
}.

Section Text.

Context {py : Python}.

Definition upper (s : pystr) : pystr := flat_map upper_char s.
Definition lower (s : pystr) : pystr := flat_map lower_char s.

(** Length of the longest prefix of [s] whose characters satisfy [p]. *)
Fixpoint span (p : N -> bool) (s : pystr) : nat :=
  match s with
  | c :: s' => if p c then S (span p s') else 0
  | [] => 0
  end.

(** [s.strip()] *)
Fixpoint lstrip (s : pystr) : pystr :=
  match s with
  | c :: s' => if isspace c then lstrip s' else s
  | [] => []
  end.

Definition rstrip (s : pystr) : pystr := rev (lstrip (rev s)).

Definition strip (s : pystr) : pystr := rstrip (lstrip s).

(** [s.split()]: the maximal runs of characters that are not white space. *)
Fixpoint split (s : pystr) : list pystr :=
  match s with
  | [] => []
  | c :: s' =>
      if isspace c then split s'
      else match s' with
           | [] => [[c]]
           | c' :: _ =>
               if isspace c' then [c] :: split s'
               else match split s' with
                    | w :: ws => (c :: w) :: ws
                    | [] => [[c]]
                    end
           end
  end.

(** [sep.join(ws)] *)
Fixpoint join (sep : pystr) (ws : list pystr) : pystr :=
  match ws with
  | [] => []
  | [w] => w
  | w :: ws' => w ++ sep ++ join sep ws'
  end.

(** [s.startswith(p)] and [p in s] *)
Fixpoint startswith (p s : pystr) : bool :=
  match p, s with
  | [], _ => true
  | a :: p', b :: s' => N.eqb a b && startswith p' s'
  | _ :: _, [] => false
  end.

Fixpoint isin (p s : pystr) : bool :=
  startswith p s ||
  match s with
  | [] => false
  | _ :: s' => isin p s'
  end.

(** [any(k in s for k in ks)] *)
Definition any_in (ks : list pystr) (s : pystr) : bool :=
  existsb (fun k => isin k s) ks.

(** [s.replace(old, "")] for a one-character [old]. *)
Definition remove_char (old : N) (s : pystr) : pystr :=
  filter (fun c => negb (N.eqb c old)) s.

(** [re.sub(pattern, repl, s)] for a pattern that never matches the empty
    string: [m t] is the length of the match of the pattern at the head of
    [t], when there is one. [skip] counts the characters of the current match
    that remain to be dropped. *)
Fixpoint re_sub_from (m : pystr -> option nat) (repl : pystr)
         (skip : nat) (s : pystr) : pystr :=
  match s with
  | [] => []
  | c :: s' =>
      match skip with
      | S k => re_sub_from m repl k s'
      | O =>
          match m s with
          | Some (S k) => repl ++ re_sub_from m repl k s'
          | _ => c :: re_sub_from m repl 0 s'
          end
      end
  end.

Definition re_sub (m : pystr -> option nat) (repl s : pystr) : pystr :=
  re_sub_from m repl 0 s.

(** [\d{4,}] *)
Definition long_digits (s : pystr) : option nat :=
  let n := span isdigit s in if 4 <=? n then Some n else None.

(** [\s+] *)
Definition spaces (s : pystr) : option nat :=
  let n := span isspace s in if 1 <=? n then Some n else None.

(** [\d+] *)
Definition digits (s : pystr) : option nat :=
  let n := span isdigit s in if 1 <=? n then Some n else None.

(** [[A-ZÀÂÆÇÉÈÊËÎÏÔŒÙÛÜŸ]] *)
Definition capital (c : N) : bool :=
  ((65 <=? c) && (c <=? 90))%N ||
  existsb (N.eqb c)
    [192; 194; 198; 199; 201; 200; 202; 203; 206; 207; 212; 338; 217; 219;
     220; 376]%N.

Definition DOT : N := 46.

(** [\d+\s+[A-ZÀ...Ÿ]+\.?\s*]. A digit, a white-space character and a capital
    are three different characters, so each greedy loop stops where the next
    one must start and the match, when there is one, is the greedy one. *)
Definition date_token (s : pystr) : option nat :=
  let d := span isdigit s in
  let s1 := skipn d s in
  let w := span isspace s1 in
  let s2 := skipn w s1 in
  let l := span capital s2 in
  let s3 := skipn l s2 in
  if (1 <=? d) && (1 <=? w) && (1 <=? l) then
    let dot := match s3 with
               | c :: _ => if N.eqb c DOT then 1 else 0
               | [] => 0
               end in
    Some (d + w + l + dot + span isspace (skipn dot s3))
  else None.

(** [^[A-ZÀ...Ÿ]+\.\s*], which can only match at the start of the string. *)
Definition re_sub_abbrev (s : pystr) : pystr :=
  let l := span capital s in
  match skipn l s with
  | c :: s' =>
      if (1 <=? l) && N.eqb c DOT then skipn (span isspace s') s' else s
  | [] => s
  end.

End Text.

(** ** [bank_parser.py] *)

Module BankParser.

Section Parser.

Context {py : Python}.

(** A transaction as the parser emits it. The table path sets ["date"] only
    when the table has a date column. *)
Record Emitted := {
  e_date : option Z;
  e_description : pystr;
  e_amount : float;
  e_merchant : pystr
}.

Definition _parse_date (date_str : pystr) : Z :=
  match dateutil_parse date_str with
  | Some d => d
  | None => datetime_now
  end.

Definition _parse_amount (amount_str : pystr) : float :=
  let cleaned := strip (remove_char 44 (remove_char 36 amount_str)) in
  match py_float cleaned with
  | Some x => x
  | None => 0%float
  end.

Definition _extract_merchant (description : pystr) : pystr :=
  let desc := upper description in
  let desc := re_sub long_digits [] desc in
  let desc := strip (re_sub spaces [SPACE] desc) in
  let words := firstn 3 (split desc) in
  match words with
  | [] => firstn 30 description
  | _ => join [SPACE] words
  end.

(** The keys a table row has collected so far. *)
Record Partial := {
  p_date : option Z;
  p_description : option pystr;
  p_amount : option float
}.

Definition empty_row : Partial :=
  {| p_date := None; p_description := None; p_amount := None |}.

Definition table_cell (header value : pystr) (t : Partial) : Partial :=
  if isin (lit "date") header then
    {| p_date := Some (_parse_date value);
       p_description := p_description t; p_amount := p_amount t |}
  else if any_in [lit "description"; lit "memo"; lit "merchant"; lit "details"]
                 header then
    {| p_date := p_date t;
       p_description := Some value; p_amount := p_amount t |}
  else if any_in [lit "amount"; lit "debit"; lit "credit"] header then
    {| p_date := p_date t;
       p_description := p_description t;
       p_amount := Some (_parse_amount value) |}
  else t.

(** [for i, header in enumerate(headers): if i < len(row) and row[i]: ...] *)
Fixpoint table_row (headers : list pystr) (row : list (option pystr))
         (t : Partial) : Partial :=
  match headers, row with
  | h :: hs, c :: cs =>
      table_row hs cs
        (match c with
         | Some (x :: v) => table_cell h (strip (x :: v)) t
         | _ => t
         end)
  | _, _ => t
  end.

Definition nonzero (x : float) : bool := negb (PrimFloat.eqb x 0).

Definition table_emit (t : Partial) : list Emitted :=
  match p_description t, p_amount t with
  | Some d, Some a =>
      if nonzero a then
        [{| e_date := p_date t; e_description := d; e_amount := a;
            e_merchant := _extract_merchant d |}]
      else []
  | _, _ => []
  end.

Definition header_of (h : option pystr) : pystr :=
  match h with
  | Some (x :: v) => lower (x :: v)
  | _ => []
  end.

Definition _parse_table (table : list (list (option pystr))) : list Emitted :=
  match table with
  | hd :: row1 :: rows =>
      let headers := map header_of hd in
      flat_map (fun row =>
                  if length row <? 2 then []
                  else table_emit (table_row headers row empty_row))
               (row1 :: rows)
  | _ => []
  end.

(** The body of the row loop of [parse_csv], on the three cells the column
    detection has selected ([str()] already applied to the last two). *)
Definition csv_row (date_str : option pystr) (description amount_str : pystr)
  : list Emitted :=
  let date := match date_str with
              | Some (x :: v) => _parse_date (x :: v)
              | _ => datetime_now
              end in
  let amount := _parse_amount amount_str in
  if nonzero amount then
    [{| e_date := Some date; e_description := strip description;
        e_amount := PrimFloat.abs amount;
        e_merchant := _extract_merchant description |}]
  else [].

End Parser.

End BankParser.

(** ** Numbers *)

(** [float(z)] of an [int], correctly rounded. *)
Definition float_of_Z (z : Z) : float :=
  SF2Prim (binary_normalize prec emax z 0 false).

Definition SF_of_int (z : Z) : spec_float :=
  match z with
  | Z0 => S754_zero false
  | Zpos p => S754_finite false p 0
  | Zneg p => S754_finite true p 0
  end.

(** [a / b] of two [int]s, for a divisor that is not zero: the correctly
    rounded quotient. *)
Definition int_truediv (a b : Z) : float :=
  SF2Prim (SFdiv prec emax (SF_of_int a) (SF_of_int b)).

(** [int(x)]: truncation toward zero; [ValueError] on a NaN (an infinity
    raises too). *)
Definition py_int (x : float) : result Z :=
  match Prim2SF x with
  | S754_zero _ => Ok 0%Z
  | S754_finite s m e =>
      let a := if (0 <=? e)%Z then (Zpos m * 2 ^ e)%Z
               else (Zpos m / 2 ^ (- e))%Z in
      Ok (if s then (- a)%Z else a)
  | _ => Raise ValueError
  end.

(** The [int] that a [float] equals, when it equals one. *)
Definition float_integer (x : float) : option Z :=
  match Prim2SF x with
  | S754_zero _ => Some 0%Z
  | S754_finite s m e =>
      if (0 <=? e)%Z then
        Some (if s then - (Zpos m * 2 ^ e) else Zpos m * 2 ^ e)%Z
      else if (Zpos m mod 2 ^ (- e) =? 0)%Z then
        Some (if s then - (Zpos m / 2 ^ (- e)) else Zpos m / 2 ^ (- e))%Z
      else None
  | _ => None
  end.

(** Two [float]s are the same datum. *)
Definition float_same (x y : float) : bool :=
  match Prim2SF x, Prim2SF y with
  | S754_zero s, S754_zero s' => Bool.eqb s s'
  | S754_infinity s, S754_infinity s' => Bool.eqb s s'
  | S754_nan, S754_nan => true
  | S754_finite s m e, S754_finite s' m' e' =>
      Bool.eqb s s' && Pos.eqb m m' && Z.eqb e e'
  | _, _ => false
  end.

(** [str(z)] of an [int]. *)
Definition str_of_Z (z : Z) : pystr := lit (NilZero.string_of_int (Z.to_int z)).

(** ** Dictionaries

    A [dict] as the list of its items in insertion order. *)

Section Dict.

Variables K V : Type.
Variable eqb : K -> K -> bool.

Fixpoint dict_get (k : K) (d : list (K * V)) : option V :=
  match d with
  | [] => None
  | (k', v) :: d' => if eqb k' k then Some v else dict_get k d'
  end.

End Dict.

Section DefaultDict.

Variables K V : Type.
Variable eqb : K -> K -> bool.

(** [d[k].append(v)] on a [defaultdict(list)]. *)
Fixpoint dict_append (k : K) (v : V) (d : list (K * list V))
  : list (K * list V) :=
  match d with
  | [] => [(k, [v])]
  | (k', vs) :: d' =>
      if eqb k' k then (k', vs ++ [v]) :: d'
      else (k', vs) :: dict_append k v d'
  end.

(** [d.get(k, [])] *)
Definition dict_group (k : K) (d : list (K * list V)) : list V :=
  match dict_get eqb k d with
  | Some vs => vs
  | None => []
  end.

End DefaultDict.

(** The keys of a [dict]: hashable values, where [True == 1 == 1.0] and
    [False == 0 == 0.0] are one key, and a [float] that equals an [int] is
    the key of that [int]. [HFloat] holds the other [float]s but NaN. NaN
    equals nothing, itself included, and is a key by identity: [json.loads]
    returns one object for every [NaN] it reads, which is [HNaN]. *)
Inductive hkey :=
| HNone
| HInt (z : Z)
| HFloat (x : float)
| HNaN
| HStr (s : pystr).

Definition hkey_eqb (a b : hkey) : bool :=
  match a, b with
  | HNone, HNone => true
  | HInt x, HInt y => Z.eqb x y
  | HFloat x, HFloat y => float_same x y
  | HNaN, HNaN => true
  | HStr s, HStr t => str_eqb s t
  | _, _ => false
  end.

(** [hash(v)]: a [list] or a [dict] is unhashable. *)
Definition py_hash (v : jvalue) : result hkey :=
  match v with
  | JNull => Ok HNone
  | JBool b => Ok (HInt (Z.b2z b))
  | JInt z => Ok (HInt z)
  | JFloat x =>
      if PrimFloat.is_nan x then Ok HNaN
      else match float_integer x with
           | Some z => Ok (HInt z)
           | None => Ok (HFloat x)
           end
  | JStr s => Ok (HStr s)
  | JArr _ | JObj _ => Raise TypeError
  end.

(** [v == k] for a dictionary key [k]: NaN equals no key. *)
Definition eq_key (v : jvalue) (k : hkey) : bool :=
  match py_hash v with
  | Ok HNaN => false
  | Ok k' => hkey_eqb k' k
  | Raise _ => false
  end.

(** [bool(v)] *)
Definition truthy (v : jvalue) : bool :=
  match v with
  | JNull => false
  | JBool b => b
  | JInt z => negb (Z.eqb z 0)
  | JFloat x => negb (PrimFloat.eqb x 0)
  | JStr s => negb (Nat.eqb (length s) 0)
  | JArr l => negb (Nat.eqb (length l) 0)
  | JObj kv => negb (Nat.eqb (length kv) 0)
  end.

(** [enumerate(l)] *)
Definition enumerate {A} (l : list A) : list (nat * A) :=
  combine (seq 0 (length l)) l.

(** ** [llm_classifier.py] *)

Module Classifier.

(** A transaction [dict]. The parsers set the first four keys, but for
    [date], which the table path sets only when the table has a date column;
    the classifier sets the others. [None] is a key that is absent. *)
Record Transaction := {
  date : option Z;
  description : pystr;
  amount : float;
  merchant : pystr;
  is_membership : option jvalue;
  membership_type : option jvalue;
  frequency : option jvalue;
  category : option jvalue;
  monthly_cost : option float;
  total_paid : option float
}.

(** The [dict] that [_classify_single] returns. *)
Record Classification := {
  c_is_membership : bool;
  c_membership_type : option pystr;
  c_frequency : option pystr;
  c_category : pystr
}.

Definition opt_str (o : option pystr) : jvalue :=
  match o with
  | Some s => JStr s
  | None => JNull
  end.

(** Assignment to the four classification keys. *)
Definition set_classification (t : Transaction) (im mt fr cat : jvalue)
  : Transaction :=
  {| date := date t; description := description t; amount := amount t;
     merchant := merchant t;
     is_membership := Some im; membership_type := Some mt;
     frequency := Some fr; category := Some cat;
     monthly_cost := monthly_cost t; total_paid := total_paid t |}.

(** [transaction.update(result)] *)
Definition update (t : Transaction) (c : Classification) : Transaction :=
  set_classification t (JBool (c_is_membership c))
    (opt_str (c_membership_type c)) (opt_str (c_frequency c))
    (JStr (c_category c)).

(** [t["date"]] *)
Definition get_date (t : Transaction) : result Z :=
  match date t with
  | Some d => Ok d
  | None => Raise KeyError
  end.

(** [t.get("is_membership")] as a condition. *)
Definition flagged (t : Transaction) : bool :=
  match is_membership t with
  | Some v => truthy v
  | None => false
  end.

Definition membership_keywords : list pystr :=
  map lit
    ["SUBSCRIPTION"; "MEMBERSHIP"; "MONTHLY"; "ANNUAL"; "RECURRING";
     "NETFLIX"; "SPOTIFY"; "AMAZON PRIME"; "ADOBE"; "MICROSOFT 365";
     "MICROSOFT"; "CURSOR"; "APPLE"; "GYM"; "FITNESS"; "GOLF"; "TENNIS";
     "YOGI"; "PILATES"; "OFFICE"; "SOFTWARE"; "SaaS"; "CLOUD"; "NEWS";
     "TIMES"; "JOURNAL"; "MAGAZINE"]%string.

Definition sport_keywords : list pystr :=
  map lit
    ["GYM"; "FITNESS"; "GOLF"; "TENNIS"; "YOGI"; "PILATES"; "SPORT"]%string.

Definition streaming_keywords : list pystr :=
  map lit
    ["NETFLIX"; "SPOTIFY"; "DISNEY"; "HULU"; "PRIME VIDEO";
     "STREAMING"]%string.

Definition software_keywords : list pystr :=
  map lit
    ["ADOBE"; "MICROSOFT"; "OFFICE"; "SOFTWARE"; "SaaS"; "CURSOR";
     "APPLE"]%string.

Definition news_keywords : list pystr :=
  map lit ["NEWS"; "TIMES"; "JOURNAL"; "MAGAZINE"]%string.

Section Classify.

Context {py : Python}.

(** The three substitutions that remove date tokens, a leading abbreviation
    and digits from an upper-cased merchant, then [strip()]. *)
Definition clean (merchant : pystr) : pystr :=
  let m := re_sub date_token [] merchant in
  let m := re_sub_abbrev m in
  strip (re_sub digits [] m).

(** [_classify_single], over its two keyword lists that hold ["SaaS"]. *)
Definition classify_single_with (membership software : list pystr)
           (transaction : Transaction) : result Classification :=
  let description := upper (description transaction) in
  let merchant := upper (merchant transaction) in
  let text := description ++ [SPACE] ++ merchant in
  let is_membership := any_in membership text in
  let merchant_clean := match merchant with
                        | [] => []
                        | _ => clean merchant
                        end in
  category <-
    match description, merchant_clean with
    | _, _ :: _ => Ok merchant_clean
    | _ :: _, [] =>
        match split description with
        | w :: _ => Ok w
        | [] => Raise IndexError
        end
    | [], [] => Ok (lit "Unknown")
    end ;;
  if is_membership then
    let membership_type :=
      if any_in sport_keywords text then lit "Sport"
      else if any_in streaming_keywords text then lit "Streaming"
      else if any_in software text then lit "Software"
      else if any_in news_keywords text then lit "News"
      else lit "Services" in
    let frequency :=
      if isin (lit "MONTHLY") text || isin (lit "MONTH") text
      then lit "Monthly"
      else if isin (lit "YEARLY") text || isin (lit "ANNUAL") text
              || isin (lit "YEAR") text
      then lit "Yearly"
      else if isin (lit "WEEKLY") text || isin (lit "WEEK") text
      then lit "Weekly"
      else lit "Monthly" in
    Ok {| c_is_membership := true;
          c_membership_type := Some membership_type;
          c_frequency := Some frequency;
          c_category := category |}
  else
    Ok {| c_is_membership := false; c_membership_type := None;
          c_frequency := None; c_category := category |}.

Definition _classify_single : Transaction -> result Classification :=
  classify_single_with membership_keywords software_keywords.

(** The rule-based classifier once ["SaaS"] is taken out of its two lists. *)
Definition without (k : pystr) (ks : list pystr) : list pystr :=
  filter (fun k' => negb (str_eqb k' k)) ks.

Definition classify_single_without_saas : Transaction -> result Classification :=
  classify_single_with (without (lit "SaaS") membership_keywords)
                       (without (lit "SaaS") software_keywords).

Definition rule_based_one (t : Transaction) : result Transaction :=
  c <- _classify_single t ;; Ok (update t c).

Definition _rule_based_classify (transactions : list Transaction)
  : result (list Transaction) :=
  mapM rule_based_one transactions.

(** *** The model-assisted strategy *)

(** [_classify_batch] comes in two parts. The first one builds the prompt,
    outside the [try]: that is [request] below. The second one, the [try],
    sends it and reads the reply: that is [_classify_batch] here, over what
    [self.client.chat.completions.create] does, which raises or returns a
    message whose content is a text. [model_assisted] runs the one after
    the other. *)
Inductive Reply :=
| Failed
| Text (content : pystr).

Fixpoint drop_until (c : N) (s : pystr) : pystr :=
  match s with
  | [] => []
  | x :: s' => if N.eqb x c then s else drop_until c s'
  end.

(** [re.search(r"\[.*\]", content, re.DOTALL)]: from the first opening
    bracket to the last closing bracket after it. *)
Definition search_array (content : pystr) : option pystr :=
  match rev (drop_until RBRACKET (rev (drop_until LBRACKET content))) with
  | [] => None
  | a => Some a
  end.

Definition embedded_array (content : pystr) : option jvalue :=
  match search_array content with
  | Some a => json_loads a
  | None => None
  end.

(** The two nested [try] blocks that turn the content into
    [classifications]; [None] stands for every path that ends in
    [self._rule_based_classify(transactions)]. *)
Definition decode (content : pystr) : option jvalue :=
  match json_loads content with
  | Some (JArr l) => Some (JArr l)
  | Some result =>
      match result with
      | JObj kv =>
          match dict_get str_eqb (lit "transactions") kv with
          | Some v => Some v
          | None =>
              match search_array content with
              | Some a => json_loads a
              | None => Some (JArr [result])
              end
          end
      | _ =>
          match search_array content with
          | Some a => json_loads a
          | None => Some (JArr [result])
          end
      end
  | None => embedded_array content
  end.

(** [len(v)] *)
Definition py_len (v : jvalue) : result nat :=
  match v with
  | JArr l => Ok (length l)
  | JStr s => Ok (length s)
  | JObj kv => Ok (length kv)
  | _ => Raise TypeError
  end.

(** [v[i]] for [i < len(v)]: a [dict] decoded from JSON has no [int] key. *)
Definition py_item (v : jvalue) (i : nat) : result jvalue :=
  match v with
  | JArr l =>
      match nth_error l i with
      | Some x => Ok x
      | None => Raise IndexError
      end
  | JStr s =>
      match nth_error s i with
      | Some c => Ok (JStr [c])
      | None => Raise IndexError
      end
  | JObj _ => Raise KeyError
  | _ => Raise TypeError
  end.

(** [v.get(key, default)] *)
Definition py_get (v : jvalue) (key : string) (default : jvalue)
  : result jvalue :=
  match v with
  | JObj kv =>
      match dict_get str_eqb (lit key) kv with
      | Some x => Ok x
      | None => Ok default
      end
  | _ => Raise AttributeError
  end.

(** The body of the merge loop. *)
Definition merge_one (classifications : jvalue) (it : nat * Transaction)
  : result Transaction :=
  let (i, transaction) := it in
  n <- py_len classifications ;;
  if i <? n then
    classification <- py_item classifications i ;;
    im <- py_get classification "is_membership" (JBool false) ;;
    mt <- py_get classification "membership_type" JNull ;;
    fr <- py_get classification "frequency" JNull ;;
    cat <- py_get classification "category" (JStr (merchant transaction)) ;;
    Ok (set_classification transaction im mt fr cat)
  else rule_based_one transaction.

Definition _classify_batch (transactions : list Transaction) (reply : Reply)
  : result (list Transaction) :=
  match reply with
  | Failed => _rule_based_classify transactions
  | Text content =>
      match decode content with
      | None => _rule_based_classify transactions
      | Some classifications =>
          match mapM (merge_one classifications) (enumerate transactions) with
          | Ok merged => Ok merged
          | Raise _ => _rule_based_classify transactions
          end
      end
  end.

(** The prompt of a batch. Its lines read [t['amount']] and
    [t['date'].strftime('%Y-%m-%d')] of each transaction, which raises
    [KeyError] on a transaction without date; the count of the merchants
    that comes before reads [t.get("merchant", "")] and raises nothing. The
    text of the prompt goes to the service, whose replies are a parameter of
    the model: what is kept of it is the dates it has read. *)
Definition request (transactions : list Transaction) : result (list Z) :=
  mapM get_date transactions.

(** *** Post-processing *)

Definition UNKNOWN : pystr := lit "Unknown".

(** The key of [by_merchant]. *)
Definition merchant_key (t : Transaction) : pystr :=
  match clean (upper (merchant t)) with
  | [] => UNKNOWN
  | m => m
  end.

(** The three assignments that demote a transaction. *)
Definition demote (t : Transaction) : Transaction :=
  {| date := date t; description := description t; amount := amount t;
     merchant := merchant t;
     is_membership := Some (JBool false); membership_type := Some JNull;
     frequency := Some JNull; category := category t;
     monthly_cost := monthly_cost t; total_paid := total_paid t |}.

(** The transactions of the list are distinct objects; a group of
    [by_merchant] holds them by their position. *)
Definition by_merchant_step (d : list (pystr * list nat))
           (it : nat * Transaction) : list (pystr * list nat) :=
  if flagged (snd it)
  then dict_append str_eqb (merchant_key (snd it)) (fst it) d
  else d.

Definition by_merchant (transactions : list Transaction)
  : list (pystr * list nat) :=
  fold_left by_merchant_step (enumerate transactions) [].

Fixpoint update_at {A} (f : A -> A) (i : nat) (l : list A) : list A :=
  match l, i with
  | [], _ => []
  | x :: l', O => f x :: l'
  | x :: l', S j => x :: update_at f j l'
  end.

Definition _filter_one_time_payments (transactions : list Transaction)
  : list Transaction :=
  fold_left
    (fun ts group =>
       if length (snd group) =? 1
       then fold_left (fun ts' i => update_at demote i ts') (snd group) ts
       else ts)
    (by_merchant transactions) transactions.

(** [frequency == name] *)
Definition is_str (v : jvalue) (name : string) : bool :=
  match v with
  | JStr s => str_eqb s (lit name)
  | _ => false
  end.

(** The conversion of an average amount to a monthly cost. *)
Definition monthly_of (frequency : jvalue) (avg_amount : float) : float :=
  if is_str frequency "Yearly" then (avg_amount / 12)%float
  else if is_str frequency "Weekly" then (avg_amount * 4.33)%float
  else if is_str frequency "Quarterly" then (avg_amount / 3)%float
  else if is_str frequency "Bi-annual" then (avg_amount / 6)%float
  else avg_amount.

(** [t.get("category", "Unknown")] as a dictionary key. *)
Definition category_key (t : Transaction) : result hkey :=
  match category t with
  | Some v => py_hash v
  | None => Ok (HStr UNKNOWN)
  end.

(** [t.get("category")] *)
Definition get_category (t : Transaction) : jvalue :=
  match category t with
  | Some v => v
  | None => JNull
  end.

(** [t.get("frequency", "Monthly")] *)
Definition get_frequency (t : Transaction) : jvalue :=
  match frequency t with
  | Some v => v
  | None => JStr (lit "Monthly")
  end.

Fixpoint by_category (memberships : list Transaction)
         (d : list (hkey * list (float * jvalue)))
  : result (list (hkey * list (float * jvalue))) :=
  match memberships with
  | [] => Ok d
  | t :: ts =>
      k <- category_key t ;;
      by_category ts (dict_append hkey_eqb k (amount t, get_frequency t) d)
  end.

(** [sum(amounts) / len(amounts)] *)
Definition mean (amounts : list float) : float :=
  (py_sum amounts / float_of_Z (Z.of_nat (length amounts)))%float.

Definition set_costs (t : Transaction) (mc tp : float) : Transaction :=
  {| date := date t; description := description t; amount := amount t;
     merchant := merchant t;
     is_membership := is_membership t; membership_type := membership_type t;
     frequency := frequency t; category := category t;
     monthly_cost := Some mc; total_paid := Some tp |}.

(** The body of the loop over [by_category.items()]. *)
(** The body of the inner loop: the two assignments to [t] when its
    category is that of the group. *)
Definition cost_one (group : hkey * list (float * jvalue)) (t : Transaction)
  : Transaction :=
  let amounts := map fst (snd group) in
  let avg_amount := mean amounts in
  let frequency := match snd group with
                   | item :: _ => snd item
                   | [] => JNull
                   end in
  let monthly_cost := monthly_of frequency avg_amount in
  if eq_key (get_category t) (fst group)
  then set_costs t (py_round2 monthly_cost) (py_sum amounts)
  else t.

Definition cost_group (memberships : list Transaction)
           (group : hkey * list (float * jvalue)) : list Transaction :=
  map (cost_one group) memberships.

Definition _add_monthly_costs (memberships : list Transaction)
  : result (list Transaction) :=
  d <- by_category memberships [] ;;
  Ok (fold_left cost_group d memberships).

(** *** [classify_transactions] *)

(** [not self.client or not Config.USE_AI_CLASSIFICATION], and the reply of
    the service to the request of each batch. *)
Inductive Strategy :=
| RuleBased
| ModelAssisted (service : nat -> Reply).

Definition batch_size : nat := 20.

(** [transactions[i : i + batch_size]] for the [k]-th [i] of
    [range(0, len(transactions), batch_size)]. *)
Definition batch (transactions : list Transaction) (k : nat)
  : list Transaction :=
  firstn batch_size (skipn (k * batch_size) transactions).

Definition batch_count (n : nat) : nat := (n + (batch_size - 1)) / batch_size.

Definition model_assisted (service : nat -> Reply)
           (transactions : list Transaction) : result (list Transaction) :=
  classified <-
    mapM (fun k =>
            _ <- request (batch transactions k) ;;
            _classify_batch (batch transactions k) (service k))
         (seq 0 (batch_count (length transactions))) ;;
  Ok (concat classified).

Definition classify (strategy : Strategy) (transactions : list Transaction)
  : result (list Transaction) :=
  match strategy with
  | RuleBased => _rule_based_classify transactions
  | ModelAssisted service => model_assisted service transactions
  end.

Definition classify_transactions (strategy : Strategy)
           (transactions : list Transaction) : result (list Transaction) :=
  classified <- classify strategy transactions ;;
  let classified := _filter_one_time_payments classified in
  let memberships_only := filter flagged classified in
  _add_monthly_costs memberships_only.

(** *** [analyze_frequency] *)

Record Stats := {
  s_frequency : pystr;
  avg_interval_days : float;
  count : nat;
  total_amount : float;
  avg_amount : float
}.

Fixpoint payments_by_category (transactions : list Transaction)
         (d : list (hkey * list (Z * float)))
  : result (list (hkey * list (Z * float))) :=
  match transactions with
  | [] => Ok d
  | t :: ts =>
      if flagged t then
        k <- category_key t ;;
        day <- get_date t ;;
        payments_by_category ts
          (dict_append hkey_eqb k (day, amount t) d)
      else payments_by_category ts d
  end.

(** [payments.sort(key=lambda x: x["date"])]: a stable sort. *)
Fixpoint insert_by_date (p : Z * float) (l : list (Z * float))
  : list (Z * float) :=
  match l with
  | [] => [p]
  | q :: l' =>
      if (fst p <=? fst q)%Z then p :: l else q :: insert_by_date p l'
  end.

Fixpoint sort_by_date (l : list (Z * float)) : list (Z * float) :=
  match l with
  | [] => []
  | p :: l' => insert_by_date p (sort_by_date l')
  end.

(** [timedelta.days] of a difference of microseconds. *)
Definition days (delta : Z) : Z := (delta / 86400000000)%Z.

Fixpoint intervals (dates : list Z) : list Z :=
  match dates with
  | a :: (b :: _) as rest => days (b - a) :: intervals rest
  | _ => []
  end.

(** [sum(intervals)] of [int]s. *)
Definition sumZ (l : list Z) : Z := fold_left Z.add l 0%Z.

Definition between (lo hi avg : float) : bool :=
  PrimFloat.leb lo avg && PrimFloat.leb avg hi.

(** The cadence of an average interval. *)
Definition cadence (avg_interval : float) : result pystr :=
  if between 25 35 avg_interval then Ok (lit "Monthly")
  else if between 85 95 avg_interval then Ok (lit "Quarterly")
  else if between 360 370 avg_interval then Ok (lit "Yearly")
  else if between 175 185 avg_interval then Ok (lit "Bi-annual")
  else if between 7 9 avg_interval then Ok (lit "Weekly")
  else n <- py_int avg_interval ;;
       Ok (lit "Every " ++ str_of_Z n ++ lit " days").

Definition average_interval (payments : list (Z * float)) : float :=
  let ivs := intervals (map fst (sort_by_date payments)) in
  int_truediv (sumZ ivs) (Z.of_nat (length ivs)).

(** The body of the loop over [by_category.items()]: the entry it adds to
    [frequency_analysis], if any. *)
Definition analyze_group (group : hkey * list (Z * float))
  : result (list (hkey * Stats)) :=
  let payments := snd group in
  if length payments <? 2 then Ok []
  else
    match intervals (map fst (sort_by_date payments)) with
    | [] => Ok []
    | _ =>
        let avg_interval := average_interval payments in
        frequency <- cadence avg_interval ;;
        let amounts := map snd (sort_by_date payments) in
        Ok [(fst group,
             {| s_frequency := frequency;
                avg_interval_days := avg_interval;
                count := length payments;
                total_amount := py_sum amounts;
                avg_amount := mean amounts |})]
    end.

Definition analyze_frequency (transactions : list Transaction)
  : result (list (hkey * Stats)) :=
  d <- payments_by_category transactions [] ;;
  entries <- mapM analyze_group d ;;
  Ok (concat entries).

End Classify.

End Classifier.

(** ** Vocabulary of the statements *)

Section Vocabulary.

Context {py : Python}.

(** A token holds a character, and no white space. *)
Definition token (w : pystr) : Prop :=
  w <> [] /\ Forall (fun c => isspace c = false) w.

(** No run of four digits or more starts anywhere in [s]. *)
Fixpoint short_runs (s : pystr) : Prop :=
  match s with
  | [] => True
  | _ :: s' => span isdigit s < 4 /\ short_runs s'
  end.

(** The words that [_extract_merchant] keeps. *)
Definition merchant_words (description : pystr) : list pystr :=
  firstn 3
    (split (strip (re_sub spaces [SPACE]
                     (re_sub long_digits [] (upper description))))).

End Vocabulary.

(** [a] is [b] with some of its elements left out. *)
Inductive subseq {A : Type} : list A -> list A -> Prop :=
| subseq_nil : subseq [] []
| subseq_keep x a b : subseq a b -> subseq (x :: a) (x :: b)
| subseq_drop x a b : subseq a b -> subseq a (x :: b).

Module Spec.

Import Classifier.

(** The keys that the parsers set. *)
Definition core (t : Transaction) : option Z * pystr * float * pystr :=
  (date t, description t, amount t, merchant t).

(** The keys that the classifier sets before the costs. *)
Definition labels (t : Transaction)
  : option jvalue * option jvalue * option jvalue * option jvalue :=
  (is_membership t, membership_type t, frequency t, category t).

(** A field that holds a string: neither absent nor [None]. *)
Definition holds_str (field : option jvalue) : Prop :=
  exists s, field = Some (JStr s).

(** [t'] is [t] once classified: the parser keys are those of [t], and the
    category is set. *)
Definition classified (t t' : Transaction) : Prop :=
  core t' = core t /\ category t' <> None.

(** The labels of a transaction that the rules have classified. *)
Definition rule_labelled (t' : Transaction) : Prop :=
  (exists b, is_membership t' = Some (JBool b)) /\
  holds_str (category t') /\
  (flagged t' = true ->
   holds_str (membership_type t') /\ holds_str (frequency t')).

Section Groups.

Context {py : Python}.

(** The membership-flagged transactions of [l] under the key [k] of the
    one-time-payment filter. *)
Definition merchant_group (l : list Transaction) (k : pystr)
  : list Transaction :=
  filter (fun t => flagged t && str_eqb (merchant_key t) k) l.

(** The positions, counted from [a], of that group in [l]. *)
Fixpoint positions (a : nat) (k : pystr) (l : list Transaction) : list nat :=
  match l with
  | [] => []
  | t :: l' =>
      if flagged t && str_eqb (merchant_key t) k
      then a :: positions (S a) k l'
      else positions (S a) k l'
  end.

(** The transactions of [l] whose category is the key [k]. *)
Definition category_group (l : list Transaction) (k : hkey)
  : list Transaction :=
  filter (fun t => eq_key (get_category t) k) l.

(** The frequency of a group: the one that its first transaction stores,
    [Monthly] when it stores none. *)
Definition group_frequency (g : list Transaction) : jvalue :=
  match g with
  | t :: _ =>
      match frequency t with
      | Some v => v
      | None => JStr (lit "Monthly")
      end
  | [] => JNull
  end.

(** The arithmetic mean of the amounts of a group. *)
Definition arithmetic_mean (amounts : list float) : float :=
  (py_sum amounts / float_of_Z (Z.of_nat (length amounts)))%float.

(** The conversion of a mean amount to a monthly figure: divided by 12 for
    Yearly, multiplied by 4.33 for Weekly, divided by 3 for Quarterly, by 6
    for Bi-annual, and unchanged for Monthly, as for anything else. *)
Definition monthly_figure (frequency : jvalue) (mean_amount : float)
  : float :=
  match frequency with
  | JStr name =>
      if str_eqb name (lit "Yearly") then (mean_amount / 12)%float
      else if str_eqb name (lit "Weekly") then (mean_amount * 4.33)%float
      else if str_eqb name (lit "Quarterly") then (mean_amount / 3)%float
      else if str_eqb name (lit "Bi-annual") then (mean_amount / 6)%float
      else mean_amount
  | _ => mean_amount
  end.

(** The two aggregates of a group. *)
Definition group_monthly_cost (g : list Transaction) : float :=
  py_round2 (monthly_figure (group_frequency g)
               (arithmetic_mean (map amount g))).

Definition group_total_paid (g : list Transaction) : float :=
  py_sum (map amount g).

(** What [by_category] keeps of a transaction. *)
Definition item (t : Transaction) : float * jvalue :=
  (amount t, get_frequency t).

(** The category of [t] is NaN, which equals nothing. *)
Definition nan_category (t : Transaction) : bool :=
  match category t with
  | Some (JFloat x) => PrimFloat.is_nan x
  | _ => false
  end.

(** What the cost estimation does to one transaction of [l]: it sets the
    costs of the group of its category, but for a category that is NaN. *)
Definition costed (l : list Transaction) (t : Transaction) : Transaction :=
  match category_key t with
  | Ok k =>
      if nan_category t then t
      else set_costs t (group_monthly_cost (category_group l k))
                     (group_total_paid (category_group l k))
  | Raise _ => t
  end.

(** [_classify_single] finds a category for [t]: its merchant has a clean
    key, or its description is empty or holds a word. *)
Definition has_category (t : Transaction) : Prop :=
  clean (upper (merchant t)) <> [] \/ upper (description t) = []
  \/ split (upper (description t)) <> [].

(** A reply from which the two decoders get nothing: the call raised, or
    [json.loads] rejects the content and no bracketed span of it decodes. *)
Definition unparseable (reply : Reply) : Prop :=
  match reply with
  | Failed => True
  | Text content =>
      json_loads content = None /\ embedded_array content = None
  end.

(** [t] is under the key [k] of [analyze_frequency]. *)
Definition has_key (k : hkey) (t : Transaction) : bool :=
  match category_key t with
  | Ok k' => hkey_eqb k' k
  | Raise _ => false
  end.

(** The membership-flagged observations of [l] for the category [k]. *)
Definition observations (l : list Transaction) (k : hkey)
  : list Transaction :=
  filter (fun t => flagged t && has_key k t) l.

(** The payment of an observation; the date of a transaction without one
    is not read: [analyze_frequency] raises on it. *)
Definition payment (t : Transaction) : Z * float :=
  (match date t with
   | Some d => d
   | None => 0%Z
   end, amount t).


(** The order of two payments by their dates. *)
Definition by_date (p q : Z * float) : Prop := (fst p <= fst q)%Z.


(** What the filter does to one transaction of [l]. *)
Definition filtered (l : list Transaction) (t : Transaction) : Transaction :=
  if flagged t && (length (merchant_group l (merchant_key t)) =? 1)
  then demote t else t.

End Groups.

End Spec.

(** ** Inputs of the examples *)

Module Examples.

Import Classifier.

Definition DAY : Z := 86400000000.

(** A transaction as a parser emits it, [day] days after the epoch. *)
Definition parsed (day : Z) (description : string) (amount : float)
           (merchant : string) : Transaction :=
  {| date := Some (day * DAY)%Z; description := lit description;
     amount := amount;
     merchant := lit merchant;
     is_membership := None; membership_type := None; frequency := None;
     category := None; monthly_cost := None; total_paid := None |}.

(** Three monthly payments and a single purchase. *)
Definition statement : list Transaction :=
  [parsed 0 "Netflix" 15 "NETFLIX";
   parsed 30 "Netflix" 15 "NETFLIX";
   parsed 60 "Netflix" 15 "NETFLIX";
   parsed 12 "Random shop software" 99 "RANDOM SHOP"].

Definition quoted (s : string) : pystr := 34%N :: lit s ++ [34%N].

(** [[{"is_membership": true, "membership_type": null, "frequency": null,
      "category": null}, {"is_membership": true}]] *)
Definition null_labels : pystr :=
  lit "[{" ++ quoted "is_membership" ++ lit ": true, "
  ++ quoted "membership_type" ++ lit ": null, "
  ++ quoted "frequency" ++ lit ": null, "
  ++ quoted "category" ++ lit ": null}, {"
  ++ quoted "is_membership" ++ lit ": true}]".


Definition apology : pystr := lit "Sorry, I cannot classify these.".

Definition EURO : N := 8364.

Definition statement_table : list (list (option pystr)) :=
  [[Some (lit "Date"); Some (lit "Description"); Some (lit "Amount")];
   [Some (lit "2024-02-01"); Some (lit "NETFLIX"); Some (lit "-12.50")]].

(** A transaction whose description is one space, without merchant. *)
Definition blank : Transaction := parsed 0 " " 5 "".

(** Two payments whose merchant is a day number and a name. *)
Definition dated_merchants : list Transaction :=
  [parsed 12 "12 Netflix" 15 "12 NETFLIX";
   parsed 13 "13 Spotify" 10 "13 SPOTIFY"].

(** Four payments of one category, 40, 41 and 41 days apart. *)
Definition payments : list Transaction :=
  map (fun day =>
         set_classification (parsed day "Club" 20 "CLUB") (JBool true)
           (JStr (lit "Sport")) (JStr (lit "Monthly")) (JStr (lit "CLUB")))
      [0; 40; 81; 122]%Z.

End Examples.

(** ** An executable Python

    The tables are those of CPython for Basic Latin and Latin-1 (with the two
    letters of the capital class that lie beyond); the white space is that of
    [str.isspace]. [float()] reads a sign, digits, a fraction and an
    exponent, and [inf] and [nan]; [json.loads] reads JSON without string
    escapes and without fractional numbers; [dateutil] reads [YYYY-MM-DD]. *)

Module CPython.

Local Open Scope N_scope.

Definition within (lo hi c : N) : bool := ((lo <=? c) && (c <=? hi))%N.

Definition upper_char (c : N) : pystr :=
  if within 97 122 c then [c - 32]
  else if c =? 181 then [924]
  else if c =? 223 then [83; 83]
  else if within 224 254 c && negb (c =? 247) then [c - 32]
  else if c =? 255 then [376]
  else if c =? 339 then [338]
  else [c].

Definition lower_char (c : N) : pystr :=
  if within 65 90 c then [c + 32]
  else if within 192 222 c && negb (c =? 215) then [c + 32]
  else if c =? 338 then [339]
  else if c =? 376 then [255]
  else [c].

Definition isdigit (c : N) : bool := within 48 57 c.

Definition isspace (c : N) : bool :=
  within 9 13 c || within 28 32 c || (c =? 133) || (c =? 160)
  || (c =? 5760) || within 8192 8202 c || within 8232 8233 c
  || (c =? 8239) || (c =? 8287) || (c =? 12288).

(** *** [float()] *)

(** The digits at the head of [s]: their value after [acc], their number,
    and the rest. *)
Fixpoint read_digits (s : pystr) (acc : Z) (n : nat) : Z * nat * pystr :=
  match s with
  | c :: s' =>
      if isdigit c then read_digits s' (acc * 10 + Z.of_N (c - 48))%Z (S n)
      else (acc, n, s)
  | [] => (acc, n, s)
  end.

Definition read_sign (s : pystr) : bool * pystr :=
  match s with
  | 45 :: s' => (true, s')
  | 43 :: s' => (false, s')
  | _ => (false, s)
  end.

(** The binary64 value nearest to [(-1)^neg * m * 10^e]. *)
Definition decimal (neg : bool) (m e : Z) : float :=
  match m with
  | Zpos p =>
      if (0 <=? e)%Z then
        SF2Prim (binary_normalize prec emax
                   (if neg then - (m * 10 ^ e) else m * 10 ^ e)%Z 0 false)
      else
        SF2Prim (SFdiv prec emax (S754_finite neg p 0)
                   (SF_of_int (10 ^ (- e))%Z))
  | _ => if neg then (-0)%float else 0%float
  end.

Definition strip_with (sp : N -> bool) (s : pystr) : pystr :=
  let l := skipn (span sp s) s in
  rev (skipn (span sp (rev l)) (rev l)).

Definition py_float (s : pystr) : option float :=
  let (neg, body) := read_sign (strip_with isspace s) in
  let word := flat_map lower_char body in
  if str_eqb word (lit "inf") || str_eqb word (lit "infinity") then
    Some (if neg then neg_infinity else infinity)
  else if str_eqb word (lit "nan") then Some nan
  else
    let '(i, ni, r1) := read_digits body 0%Z 0%nat in
    let '(m, nf, r2) :=
      match r1 with
      | 46 :: r => read_digits r i 0%nat
      | _ => (i, 0%nat, r1)
      end in
    if (ni + nf =? 0)%nat then None
    else
      match r2 with
      | [] => Some (decimal neg m (- Z.of_nat nf))
      | c :: r =>
          if (c =? 101) || (c =? 69) then
            let (eneg, r3) := read_sign r in
            let '(e, ne, r4) := read_digits r3 0%Z 0%nat in
            match ne, r4 with
            | S _, [] =>
                Some (decimal neg m
                        ((if eneg then - e else e) - Z.of_nat nf)%Z)
            | _, _ => None
            end
          else None
      end.

(** *** [sum] and [round] *)

Definition py_sum (xs : list float) : float :=
  fold_left PrimFloat.add xs 0%float.

(** The integer nearest to [n / d], ties to even. *)
Definition half_even (n d : Z) : Z :=
  let q := (n / d)%Z in
  let r := (n mod d)%Z in
  match (2 * r ?= d)%Z with
  | Lt => q
  | Gt => (q + 1)%Z
  | Eq => if Z.even q then q else (q + 1)%Z
  end.

(** [round(x, 2)]: the binary64 value nearest to the two-decimal number
    nearest to [x]. *)
Definition py_round2 (x : float) : float :=
  match Prim2SF x with
  | S754_finite s m e =>
      let k := if (0 <=? e)%Z then (Zpos m * 100 * 2 ^ e)%Z
               else half_even (Zpos m * 100) (2 ^ (- e)) in
      decimal s k (-2)
  | _ => x
  end.

(** *** [dateutil] *)

Definition days_from_civil (y m d : Z) : Z :=
  (let y' := if m <=? 2 then y - 1 else y in
   let era := y' / 400 in
   let yoe := y' - era * 400 in
   let doy := (153 * (if 2 <? m then m - 3 else m + 9) + 2) / 5 + d - 1 in
   era * 146097 + (yoe * 365 + yoe / 4 - yoe / 100 + doy) - 719468)%Z.

Definition days_in_month (y m : Z) : Z :=
  (if m =? 2 then
     if ((y mod 4 =? 0) && negb (y mod 100 =? 0)) || (y mod 400 =? 0)
     then 29 else 28
   else if (m =? 4) || (m =? 6) || (m =? 9) || (m =? 11) then 30 else 31)%Z.

Definition civil (y m d : Z) : option Z :=
  if ((1 <=? m) && (m <=? 12) && (1 <=? d) && (d <=? days_in_month y m))%Z
  then Some (days_from_civil y m d * 86400000000)%Z
  else None.

(** [YYYY-MM-DD] *)
Definition iso_date (s : pystr) : option Z :=
  let '(y, ny, r1) := read_digits s 0%Z 0%nat in
  match r1 with
  | 45 :: r =>
      let '(m, nm, r2) := read_digits r 0%Z 0%nat in
      match r2 with
      | 45 :: r' =>
          let '(d, nd, r3) := read_digits r' 0%Z 0%nat in
          match r3 with
          | [] =>
              if ((ny =? 4) && (nm =? 2) && (nd =? 2))%nat
              then civil y m d else None
          | _ => None
          end
      | _ => None
      end
  | _ => None
  end.

Definition month_names : list pystr :=
  map lit
    ["january"; "february"; "march"; "april"; "may"; "june"; "july";
     "august"; "september"; "october"; "november"; "december"]%string.

Fixpoint month_number (name : pystr) (names : list pystr) (m : Z)
  : option Z :=
  match names with
  | [] => None
  | n :: names' =>
      if str_eqb n name then Some m else month_number name names' (m + 1)%Z
  end.

(** [D month YYYY], with the name of the month in full. *)
Definition day_month_year (s : pystr) : option Z :=
  let '(d, nd, r1) := read_digits s 0%Z 0%nat in
  let w1 := span isspace r1 in
  let r2 := skipn w1 r1 in
  let n := span (fun c => negb (isspace c)) r2 in
  let name := flat_map lower_char (firstn n r2) in
  let r3 := skipn n r2 in
  let w2 := span isspace r3 in
  let '(y, ny, r4) := read_digits (skipn w2 r3) 0%Z 0%nat in
  match r4, month_number name month_names 1%Z with
  | [], Some m =>
      if ((1 <=? nd) && (nd <=? 2) && (1 <=? w1) && (1 <=? w2)
          && (ny =? 4))%nat
      then civil y m d else None
  | _, _ => None
  end.

(** The two forms of date that this instance reads, of the many that
    [dateutil] does: [None] is also every other text. *)
Definition dateutil_parse (s : pystr) : option Z :=
  match iso_date s with
  | Some d => Some d
  | None => day_month_year s
  end.

Definition datetime_now : Z := 1700000000000000%Z.

(** *** [json.loads] *)

Definition json_space (c : N) : bool :=
  (c =? 32) || (c =? 9) || (c =? 10) || (c =? 13).

Definition skip_space (s : pystr) : pystr := skipn (span json_space s) s.

Definition QUOTE : N := 34.
Definition BACKSLASH : N := 92.

(** The characters of a string up to its closing quote, and what follows. *)
Fixpoint read_string (s acc : pystr) : option (pystr * pystr) :=
  match s with
  | [] => None
  | c :: s' =>
      if c =? QUOTE then Some (rev acc, s')
      else if (c =? BACKSLASH) || (c <? 32) then None
      else read_string s' (c :: acc)
  end.

(** A number: an optional minus sign, the digits of an integer without
    leading zero, an optional fraction and an optional exponent. It is an
    [int] without fraction and exponent, and a [float] with one of them. *)
Definition read_number (s : pystr) : option (jvalue * pystr) :=
  let (neg, body) := match s with
                     | 45 :: s' => (true, s')
                     | _ => (false, s)
                     end in
  let '(z, n, rest) := read_digits body 0%Z 0%nat in
  let leading_zero := match body with
                      | 48 :: c :: _ => isdigit c
                      | _ => false
                      end in
  if (n =? 0)%nat || leading_zero then None
  else
    let '(m, nf, r1) :=
      match rest with
      | 46 :: r =>
          let '(m, nf, r') := read_digits r z 0%nat in
          if (nf =? 0)%nat then (z, 0%nat, rest) else (m, nf, r')
      | _ => (z, 0%nat, rest)
      end in
    let '(e, has_exponent, r2) :=
      match r1 with
      | c :: r =>
          if (c =? 101) || (c =? 69) then
            let (eneg, r') := read_sign r in
            let '(e, ne, r'') := read_digits r' 0%Z 0%nat in
            if (ne =? 0)%nat then (0%Z, false, r1)
            else ((if eneg then - e else e)%Z, true, r'')
          else (0%Z, false, r1)
      | [] => (0%Z, false, r1)
      end in
    if (nf =? 0)%nat && negb has_exponent
    then Some (JInt (if neg then - z else z)%Z, r2)
    else Some (JFloat (decimal neg m (e - Z.of_nat nf)), r2).

Section Containers.

Variable value : pystr -> option (jvalue * pystr).

(** The elements of an array after its first one. *)
Fixpoint read_elements (fuel : nat) (s : pystr) (acc : list jvalue)
  : option (jvalue * pystr) :=
  match fuel with
  | O => None
  | S f =>
      match skip_space s with
      | c :: r =>
          if c =? RBRACKET then Some (JArr (rev acc), r)
          else if c =? 44 then
            match value r with
            | Some (v, r') => read_elements f r' (v :: acc)
            | None => None
            end
          else None
      | [] => None
      end
  end.

(** [d[k] = v] *)
Fixpoint dict_set (k : pystr) (v : jvalue) (d : list (pystr * jvalue))
  : list (pystr * jvalue) :=
  match d with
  | [] => [(k, v)]
  | (k', v') :: d' =>
      if str_eqb k' k then (k', v) :: d' else (k', v') :: dict_set k v d'
  end.

Definition read_member (s : pystr) : option (pystr * jvalue * pystr) :=
  match skip_space s with
  | c :: r =>
      if c =? QUOTE then
        match read_string r [] with
        | Some (k, r1) =>
            match skip_space r1 with
            | c1 :: r2 =>
                if c1 =? 58 then
                  match value r2 with
                  | Some (v, r3) => Some (k, v, r3)
                  | None => None
                  end
                else None
            | [] => None
            end
        | None => None
        end
      else None
  | [] => None
  end.

(** The members of an object after its first one. *)
Fixpoint read_members (fuel : nat) (s : pystr) (acc : list (pystr * jvalue))
  : option (jvalue * pystr) :=
  match fuel with
  | O => None
  | S f =>
      match skip_space s with
      | c :: r =>
          if c =? 125 then Some (JObj acc, r)
          else if c =? 44 then
            match read_member r with
            | Some (k, v, r') => read_members f r' (dict_set k v acc)
            | None => None
            end
          else None
      | [] => None
      end
  end.

End Containers.

Fixpoint read_value (fuel : nat) (s : pystr) : option (jvalue * pystr) :=
  match fuel with
  | O => None
  | S f =>
      let s := skip_space s in
      if startswith (lit "null") s then Some (JNull, skipn 4 s)
      else if startswith (lit "true") s then Some (JBool true, skipn 4 s)
      else if startswith (lit "false") s then Some (JBool false, skipn 5 s)
      else if startswith (lit "NaN") s then Some (JFloat nan, skipn 3 s)
      else if startswith (lit "Infinity") s
      then Some (JFloat infinity, skipn 8 s)
      else if startswith (lit "-Infinity") s
      then Some (JFloat neg_infinity, skipn 9 s)
      else
        match s with
        | [] => None
        | c :: r =>
            if c =? QUOTE then
              match read_string r [] with
              | Some (x, r') => Some (JStr x, r')
              | None => None
              end
            else if c =? LBRACKET then
              match skip_space r with
              | c' :: r' =>
                  if c' =? RBRACKET then Some (JArr [], r')
                  else
                    match read_value f r with
                    | Some (v, r1) => read_elements (read_value f) f r1 [v]
                    | None => None
                    end
              | [] => None
              end
            else if c =? 123 then
              match skip_space r with
              | c' :: r' =>
                  if c' =? 125 then Some (JObj [], r')
                  else
                    match read_member (read_value f) r with
                    | Some (k, v, r1) =>
                        read_members (read_value f) f r1 [(k, v)]
                    | None => None
                    end
              | [] => None
              end
            else read_number s
        end
  end.

Definition json_loads (s : pystr) : option jvalue :=
  match read_value (S (length s)) s with
  | Some (v, rest) =>
      match skip_space rest with
      | [] => Some v
      | _ => None
      end
  | None => None
  end.

(** *** The laws of the tables *)

Ltac table_cases :=
  repeat match goal with
         | H : context [N.leb ?a ?b] |- _ => destruct (N.leb_spec a b)
         | H : context [N.eqb ?a ?b] |- _ => destruct (N.eqb_spec a b)
         | |- context [N.leb ?a ?b] => destruct (N.leb_spec a b)
         | |- context [N.eqb ?a ?b] => destruct (N.eqb_spec a b)
         end;
  simpl in *.

Ltac table_members :=
  repeat match goal with
         | H : _ \/ _ |- _ => destruct H
         | H : False |- _ => contradiction
         end;
  subst.

Lemma upper_char_range (c u : N) :
  In u (upper_char c) ->
  (u < 97 \/ 122 < u) /\ u <> 181 /\ u <> 223 /\ u <> 255 /\ u <> 339
  /\ (u < 224 \/ 254 < u \/ u = 247).
Proof.
  unfold upper_char, within. intros H.
  table_cases; table_members; lia.
Qed.

Lemma upper_fixed (c u : N) : In u (upper_char c) -> upper_char u = [u].
Proof.
  intros H. apply upper_char_range in H.
  unfold upper_char, within.
  table_cases; try reflexivity; lia.
Qed.

Lemma upper_not_lower (c u : N) :
  In u (upper_char c) -> u < 97 \/ 122 < u.
Proof.
  intros H. apply upper_char_range in H. tauto.
Qed.

Lemma upper_space : upper_char SPACE = [SPACE].
Proof. reflexivity. Qed.

Lemma space_isspace : isspace SPACE = true.
Proof. reflexivity. Qed.

Lemma space_not_digit : isdigit SPACE = false.
Proof. reflexivity. Qed.

End CPython.

#[export] Instance cpython : Python := {|
  upper_char := CPython.upper_char;
  lower_char := CPython.lower_char;
  isdigit := CPython.isdigit;
  isspace := CPython.isspace;
  py_float := CPython.py_float;
  py_sum := CPython.py_sum;
  py_round2 := CPython.py_round2;
  dateutil_parse := CPython.dateutil_parse;
  datetime_now := CPython.datetime_now;
  json_loads := CPython.json_loads;
  upper_fixed := CPython.upper_fixed;
  upper_not_lower := CPython.upper_not_lower;
  upper_space := CPython.upper_space;
  space_isspace := CPython.space_isspace;
  space_not_digit := CPython.space_not_digit
|}.

(** ** [bank_parser.py]: the text of a page *)

(** *** Regular expressions

    The patterns of [_parse_text], run as [re] runs them: by backtracking,
    the first alternative first and a repetition as long as it can be. A
    repetition without an upper bound is over one character here, so that
    the length of the text bounds its count. *)

Inductive regex :=
| Empty
| Char (p : N -> bool)
| Seq (a b : regex)
| Or (a b : regex)
| Repeat (lo : nat) (hi : option nat) (a : regex)
| AtEnd.

Definition NEWLINE : N := 10.

(** [run r s k]: the first way, in the order of the backtracking, to match
    [r] at the head of [s] from which the continuation [k] succeeds on the
    rest of [s]. *)
Fixpoint run {A} (r : regex) (s : pystr) (k : pystr -> option A)
  : option A :=
  match r with
  | Empty => k s
  | Char p =>
      match s with
      | c :: s' => if p c then k s' else None
      | [] => None
      end
  | Seq a b => run a s (fun s' => run b s' k)
  | Or a b =>
      match run a s k with
      | Some x => Some x
      | None => run b s k
      end
  | Repeat lo hi a =>
      (fix loop (more lo : nat) (s : pystr) : option A :=
         match more with
         | O => if lo =? 0 then k s else None
         | S more' =>
             match run a s (fun s' => loop more' (pred lo) s') with
             | Some x => Some x
             | None => if lo =? 0 then k s else None
             end
         end)
        (match hi with
         | Some h => h
         | None => length s
         end) lo s
  | AtEnd =>
      (* [$]: the end of the string, or the newline that ends it *)
      match s with
      | [] => k s
      | [c] => if N.eqb c NEWLINE then k s else None
      | _ => None
      end
  end.

(** The length of the match of [r] at the head of [s]. *)
Definition matched (r : regex) (s : pystr) : option nat :=
  match run r s (fun rest => Some rest) with
  | Some rest => Some (length s - length rest)
  | None => None
  end.

(** [re.search(r, s).group()]; [None] when nothing matches. *)
Fixpoint search (r : regex) (s : pystr) : option pystr :=
  match matched r s with
  | Some n => Some (firstn n s)
  | None =>
      match s with
      | [] => None
      | _ :: s' => search r s'
      end
  end.

(** [r1 r2 ... rn] and [r|r1|...|rn] *)
Definition seq_of (rs : list regex) : regex := fold_right Seq Empty rs.

Fixpoint any_of (r : regex) (rs : list regex) : regex :=
  match rs with
  | [] => r
  | r' :: rs' => Or r (any_of r' rs')
  end.

Module TextParser.

Import BankParser.

Definition EURO_SIGN : N := 8364.
Definition COMMA : N := 44.
Definition SLASH : N := 47.
Definition HYPHEN : N := 45.

(** [s.split(sep)] for a one-character [sep]. *)
Fixpoint split_on (sep : N) (s : pystr) : list pystr :=
  match s with
  | [] => [[]]
  | c :: s' =>
      if N.eqb c sep then [] :: split_on sep s'
      else match split_on sep s' with
           | w :: ws => (c :: w) :: ws
           | [] => [[c]]
           end
  end.

(** [s.replace(old, new)] for an [old] that is not empty; [skip] counts the
    characters of the current occurrence that remain to be dropped. *)
Fixpoint replace_from (old new : pystr) (skip : nat) (s : pystr) : pystr :=
  match s with
  | [] => []
  | c :: s' =>
      match skip with
      | S k => replace_from old new k s'
      | O =>
          if startswith old s
          then new ++ replace_from old new (length old - 1) s'
          else c :: replace_from old new 0 s'
      end
  end.

Definition replace (old new s : pystr) : pystr := replace_from old new 0 s.

(** The code points that a lower-case letter [p] of the month names matches
    under [re.IGNORECASE]: [p], its capital and, for [i] and [s], the
    letters that [re] holds for equivalent: the dotted capital I, the
    dotless i and the long s. *)
Definition ignore_case (p c : N) : bool :=
  (N.eqb c p || N.eqb c (p - 32)
   || (N.eqb p 105 && (N.eqb c 304 || N.eqb c 305))
   || (N.eqb p 115 && N.eqb c 383))%N.

(** A word of the pattern, letter by letter. *)
Definition word (w : pystr) : regex :=
  seq_of (map (fun p => Char (ignore_case p)) w).

Definition E_ACUTE : N := 233.
Definition U_CIRCUMFLEX : N := 251.

Definition fevr : pystr := lit "f" ++ [E_ACUTE] ++ lit "vr".
Definition fev : pystr := lit "f" ++ [E_ACUTE] ++ lit "v".
Definition aout : pystr := lit "ao" ++ [U_CIRCUMFLEX] ++ lit "t".
Definition dec : pystr := lit "d" ++ [E_ACUTE] ++ lit "c".

(** [month_map], in the order of its keys. *)
Definition month_map : list (pystr * pystr) :=
  [(lit "janv", lit "january"); (fevr, lit "february");
   (fev, lit "february"); (lit "mars", lit "march");
   (lit "avr", lit "april"); (lit "mai", lit "may");
   (lit "juin", lit "june"); (lit "juil", lit "july");
   (aout, lit "august"); (lit "sept", lit "september");
   (lit "oct", lit "october"); (lit "nov", lit "november");
   (dec, lit "december")].

(** [sorted(month_map.items(), key=lambda x: -len(x[0]))]: a stable sort. *)
Fixpoint insert_by_length (m : pystr * pystr) (l : list (pystr * pystr))
  : list (pystr * pystr) :=
  match l with
  | [] => [m]
  | q :: l' =>
      if length (fst q) <=? length (fst m) then m :: l
      else q :: insert_by_length m l'
  end.

Definition sorted_months : list (pystr * pystr) :=
  fold_right insert_by_length [] month_map.

Definition skip_keywords : list pystr :=
  [lit "Relev" ++ [E_ACUTE]; lit "G" ++ [E_ACUTE] ++ lit "n"
                             ++ [E_ACUTE] ++ lit "r" ++ [E_ACUTE] ++ lit " le";
   lit "Transactions du compte"; lit "Date"; lit "Description";
   lit "Argent sortant"; lit "Argent entrant"; lit "Solde";
   lit "R" ++ [E_ACUTE] ++ lit "sum" ++ [E_ACUTE]; lit "COMPTE"; lit "TOTAL";
   lit "Renvoy" ++ [E_ACUTE]; lit "Page"].

Section Lines.

Context {py : Python}.

Definition digit : regex := Char isdigit.
Definition space : regex := Char isspace.

(** [[.\s]], [[/-]] and [[.,]] *)
Definition dot_or_space : regex := Char (fun c => N.eqb c DOT || isspace c).
Definition slash_or_hyphen : regex :=
  Char (fun c => N.eqb c SLASH || N.eqb c HYPHEN).
Definition dot_or_comma : regex :=
  Char (fun c => N.eqb c DOT || N.eqb c COMMA).

(** [\d{1,2}[.\s]+(janv|...|déc)[.\s]+\d{2,4}|\d{1,2}[/-]\d{1,2}[/-]\d{2,4}]
    under [re.IGNORECASE], which changes the letters alone. *)
Definition date_pattern : regex :=
  Or (seq_of
        [Repeat 1 (Some 2) digit;
         Repeat 1 None dot_or_space;
         any_of (word (lit "janv"))
           [word fevr; word (lit "mars"); word (lit "avr"); word (lit "mai");
            word (lit "juin"); word (lit "juil"); word aout;
            word (lit "sept"); word (lit "oct"); word (lit "nov");
            word dec];
         Repeat 1 None dot_or_space;
         Repeat 2 (Some 4) digit])
     (seq_of
        [Repeat 1 (Some 2) digit; slash_or_hyphen;
         Repeat 1 (Some 2) digit; slash_or_hyphen;
         Repeat 2 (Some 4) digit]).

(** [€?\s*\d+[.,]\d+] *)
Definition amount_pattern : regex :=
  seq_of
    [Repeat 0 (Some 1) (Char (N.eqb EURO_SIGN)); Repeat 0 None space;
     Repeat 1 None digit; dot_or_comma; Repeat 1 None digit].

(** [\s+\d+[.,]\d+\s*$] *)
Definition trailing_amount : regex :=
  seq_of
    [Repeat 1 None space; Repeat 1 None digit; dot_or_comma;
     Repeat 1 None digit; Repeat 0 None space; AtEnd].

(** The date of a matched [date_str]: the first French month of
    [sorted_months] that its lower case holds is put into English. *)
Definition date_of (date_str : pystr) : Z :=
  let lowered := lower date_str in
  match find (fun m => isin (fst m) lowered) sorted_months with
  | Some (fr_month, en_month) =>
      _parse_date (replace fr_month en_month lowered)
  | None => _parse_date date_str
  end.

(** [.replace(",", ".")] *)
Definition comma_to_dot (c : N) : N := if N.eqb c COMMA then DOT else c.

(** The description of a line that holds an amount. *)
Definition description_of (line : pystr) : pystr :=
  let desc := if existsb (N.eqb EURO_SIGN) line
              then strip (hd [] (split_on EURO_SIGN line))
              else line in
  strip (re_sub (matched trailing_amount) [] desc).

(** The body of the loop over the lines: the new [current_date] and what the
    line appends to [transactions]. *)
Definition text_line (current_date : option Z) (line : pystr)
  : option Z * list Emitted :=
  let line := strip line in
  match line with
  | [] => (current_date, [])
  | _ :: _ =>
      if any_in skip_keywords line then (current_date, [])
      else
        let current_date :=
          match search date_pattern line with
          | Some date_str => Some (date_of date_str)
          | None => current_date
          end in
        match search amount_pattern line, current_date with
        | Some amount_match, Some d =>
            let amount_str :=
              strip (map comma_to_dot (remove_char EURO_SIGN amount_match)) in
            match py_float amount_str with
            | Some x =>
                let amount := PrimFloat.abs x in
                if PrimFloat.ltb 0.01 amount then
                  let desc := description_of line in
                  (current_date,
                   [{| e_date := Some d; e_description := desc;
                       e_amount := amount;
                       e_merchant := _extract_merchant desc |}])
                else (current_date, [])
            | None => (current_date, [])
            end
        | _, _ => (current_date, [])
        end
  end.

Fixpoint text_lines (current_date : option Z) (lines : list pystr)
  : list Emitted :=
  match lines with
  | [] => []
  | line :: lines' =>
      let (d, out) := text_line current_date line in
      out ++ text_lines d lines'
  end.

Definition _parse_text (text : pystr) : list Emitted :=
  text_lines None (split_on NEWLINE text).

(** A page of the document: what [extract_text] and [extract_tables]
    return for it. *)
Record Page := {
  extract_text : option pystr;
  extract_tables : list (list (list (option pystr)))
}.

Definition parse_page (page : Page) : list Emitted :=
  match extract_text page with
  | Some (_ :: _ as text) =>
      match extract_tables page with
      | [] => _parse_text text
      | tables => flat_map _parse_table tables
      end
  | _ => []
  end.

(** [parse_pdf], from the pages of the opened document. *)
Definition parse_pdf (pages : list Page) : list Emitted :=
  flat_map parse_page pages.

End Lines.

End TextParser.

(** ** [main.py] *)

Module Main.

Import Classifier.

(** A row of the table [transactions], as far as the two reports read it:
    [None] is the [NULL] of a nullable column. *)
Record Row := {
  r_date : Z;
  r_amount : float;
  r_merchant : option pystr;
  r_membership_type : option pystr;
  r_frequency : option pystr;
  r_category : option pystr
}.

Definition nullable (o : option pystr) : jvalue :=
  match o with
  | Some s => JStr s
  | None => JNull
  end.

(** The [dict] that [get_frequency_analysis] builds from a row. It has the
    keys [date], [amount], [category] and [merchant], and no other: a
    [merchant] that is [NULL] is written as the empty string and
    [description] is empty, two keys that [analyze_frequency] does not
    read. *)
Definition frequency_dict (t : Row) : Transaction :=
  {| date := Some (r_date t); description := [];
     amount := r_amount t;
     merchant := match r_merchant t with Some m => m | None => [] end;
     is_membership := None; membership_type := None; frequency := None;
     category := Some (nullable (r_category t));
     monthly_cost := None; total_paid := None |}.

(** [x or default] for a nullable string. *)
Definition or_default (o : option pystr) (default : string) : pystr :=
  match o with
  | Some (c :: s) => c :: s
  | _ => lit default
  end.

(** An [int] or a [float]. *)
Inductive number :=
| Int (z : Z)
| Float (x : float).

(** An entry of [by_type]; its key ["categories"] stays empty. The total
    starts as the [int] 0 and is a [float] from the first amount on: it is
    written as a [float] here. *)
Record TypeEntry := {
  t_total : float;
  t_count : nat
}.

(** An entry of [by_category]; [None] is the key ["monthly_estimate"]
    before the second loop sets it. *)
Record CategoryEntry := {
  c_total : float;
  c_count : nat;
  c_frequency : option pystr;
  c_membership_type : pystr;
  c_monthly_estimate : option number
}.

(** [if k not in d: d[k] = init] then [d[k] = f(d[k])] *)
Fixpoint upsert {V} (k : pystr) (init : V) (f : V -> V)
         (d : list (pystr * V)) : list (pystr * V) :=
  match d with
  | [] => [(k, f init)]
  | (k', v) :: d' =>
      if str_eqb k' k then (k', f v) :: d' else (k', v) :: upsert k init f d'
  end.

Definition type_of (t : Row) : pystr :=
  or_default (r_membership_type t) "Other".

Definition category_of (t : Row) : pystr :=
  or_default (r_category t) "Unknown".

Definition count_type (t : Row) (e : TypeEntry) : TypeEntry :=
  {| t_total := (t_total e + r_amount t)%float; t_count := S (t_count e) |}.

Definition count_category (t : Row) (e : CategoryEntry) : CategoryEntry :=
  {| c_total := (c_total e + r_amount t)%float; c_count := S (c_count e);
     c_frequency := c_frequency e;
     c_membership_type := c_membership_type e;
     c_monthly_estimate := c_monthly_estimate e |}.

(** The body of the loop over the memberships. *)
Definition summary_step
           (d : list (pystr * TypeEntry) * list (pystr * CategoryEntry))
           (t : Row)
  : list (pystr * TypeEntry) * list (pystr * CategoryEntry) :=
  (upsert (type_of t) {| t_total := 0; t_count := 0 |} (count_type t)
          (fst d),
   upsert (category_of t)
          {| c_total := 0; c_count := 0; c_frequency := r_frequency t;
             c_membership_type := type_of t; c_monthly_estimate := None |}
          (count_category t) (snd d)).

(** The body of the loop over [by_category.items()]. *)
Definition monthly_estimate (data : CategoryEntry) : number :=
  let average :=
    (c_total data / float_of_Z (Z.of_nat (c_count data)))%float in
  match c_frequency data with
  | Some frequency =>
      if str_eqb frequency (lit "Monthly") then
        if 0 <? c_count data then Float average else Int 0
      else if str_eqb frequency (lit "Yearly") then
        if 0 <? c_count data then Float (average / 12) else Int 0
      else if str_eqb frequency (lit "Weekly") then
        if 0 <? c_count data then Float (average * 4.33) else Int 0
      else Int 0
  | None => Int 0
  end.

Definition estimated (data : CategoryEntry) : CategoryEntry :=
  {| c_total := c_total data; c_count := c_count data;
     c_frequency := c_frequency data;
     c_membership_type := c_membership_type data;
     c_monthly_estimate := Some (monthly_estimate data) |}.

(** What [get_summary] returns, but for its two sums. *)
Record Summary := {
  by_type : list (pystr * TypeEntry);
  by_category : list (pystr * CategoryEntry);
  total_memberships : nat
}.

(** [get_summary], from the rows that the query returns. *)
Definition get_summary (memberships : list Row) : Summary :=
  let d := fold_left summary_step memberships ([], []) in
  let by_category := map (fun e => (fst e, estimated (snd e))) (snd d) in
  {| by_type := fst d; by_category := by_category;
     total_memberships := length by_category |}.

Section Reports.

Context {py : Python}.

(** [get_frequency_analysis], from the rows that the query returns. *)
Definition get_frequency_analysis (memberships : list Row)
  : result (list (hkey * Stats)) :=
  analyze_frequency (map frequency_dict memberships).

End Reports.

End Main.

(** ** Vocabulary of the further properties *)

Module More.

Import Classifier.

Section Words.

Context {py : Python}.

(** [t] with its description and its merchant in upper case. *)
Definition upper_cased (t : Transaction) : Transaction :=
  {| date := date t; description := upper (description t);
     amount := amount t; merchant := upper (merchant t);
     is_membership := is_membership t;
     membership_type := membership_type t; frequency := frequency t;
     category := category t;
     monthly_cost := monthly_cost t; total_paid := total_paid t |}.

(** The line holds a keyword of the headers and of the summaries. *)
Definition skipped (line : pystr) : bool :=
  any_in TextParser.skip_keywords (strip line).

(** The line sets the current date: it holds no keyword, and a date. *)
Definition dated (line : pystr) : bool :=
  negb (skipped line) &&
  match search TextParser.date_pattern (strip line) with
  | Some _ => true
  | None => false
  end.

(** The page has a text. *)
Definition has_text (page : TextParser.Page) : bool :=
  match TextParser.extract_text page with
  | Some (_ :: _) => true
  | _ => false
  end.

End Words.

(** The rows of a category of the summary, and what the summary holds of
    them before the estimate. *)
Definition category_rows (memberships : list Main.Row) (k : pystr)
  : list Main.Row :=
  filter (fun t => str_eqb (Main.category_of t) k) memberships.

Definition sum_amounts (rows : list Main.Row) : float :=
  fold_left (fun x t => (x + Main.r_amount t)%float) rows 0%float.

Definition category_entry (rows : list Main.Row)
  : option Main.CategoryEntry :=
  match rows with
  | [] => None
  | t :: _ =>
      Some (Main.estimated
              {| Main.c_total := sum_amounts rows;
                 Main.c_count := length rows;
                 Main.c_frequency := Main.r_frequency t;
                 Main.c_membership_type := Main.type_of t;
                 Main.c_monthly_estimate := None |})
  end.

(** What a row does to the entry of its category. *)
Definition absorb (o : option Main.CategoryEntry) (t : Main.Row)
  : option Main.CategoryEntry :=
  Some (Main.count_category t
          (match o with
           | Some e => e
           | None =>
               {| Main.c_total := 0; Main.c_count := 0;
                  Main.c_frequency := Main.r_frequency t;
                  Main.c_membership_type := Main.type_of t;
                  Main.c_monthly_estimate := None |}
           end)).

(** The sum of the counts of the entries of a dictionary. *)
Definition counted {V} (count : V -> nat) (d : list (pystr * V)) : nat :=
  list_sum (map (fun e => count (snd e)) d).

(** The three frequencies that the summary converts. *)
Definition converted (frequency : option pystr) : Prop :=
  frequency = Some (lit "Monthly") \/ frequency = Some (lit "Yearly")
  \/ frequency = Some (lit "Weekly").

(** The names that [_parse_table] looks for in a header. *)
Definition description_names : list pystr :=
  [lit "description"; lit "memo"; lit "merchant"; lit "details"].

Definition amount_names : list pystr :=
  [lit "amount"; lit "debit"; lit "credit"].

(** The membership types and the frequencies of the rules. *)
Definition rule_types : list pystr :=
  map lit ["Sport"; "Streaming"; "Software"; "News"; "Services"]%string.

Definition rule_frequencies : list pystr :=
  map lit ["Monthly"; "Yearly"; "Weekly"]%string.

(** A JSON value that is not an object. *)
Definition not_object (v : jvalue) : Prop :=
  match v with
  | JObj _ => False
  | _ => True
  end.

(** The value of a key of a reply object, or the default of the merge. *)
Definition field (kv : list (pystr * jvalue)) (key : string)
           (default : jvalue) : jvalue :=
  match dict_get str_eqb (lit key) kv with
  | Some x => x
  | None => default
  end.

(** [t] with the labels of the reply object [kv]. *)
Definition labelled_by (kv : list (pystr * jvalue)) (t : Transaction)
  : Transaction :=
  set_classification t
    (field kv "is_membership" (JBool false))
    (field kv "membership_type" JNull)
    (field kv "frequency" JNull)
    (field kv "category" (JStr (merchant t))).

(** What [analyze_frequency] says of the dates of a category. *)
Definition timing (st : Stats) : pystr * float * nat :=
  (s_frequency st, avg_interval_days st, count st).

(** A category that cannot be a dictionary key. *)
Definition unhashable (t : Transaction) : Prop :=
  match category t with
  | Some (JArr _) | Some (JObj _) => True
  | _ => False
  end.

End More.

(** ** Inputs of the further examples *)

Module Cases.

Import Classifier.

(** [[{"is_membership": true}]] *)
Definition one_label : pystr :=
  lit "[{" ++ Examples.quoted "is_membership" ++ lit ": true}]".

(** [[null]] *)
Definition null_list : pystr := lit "[null]".

(** Three monthly payments and two yearly ones. *)
Definition subscriptions : list Transaction :=
  [Examples.parsed 0 "Netflix" 15 "NETFLIX";
   Examples.parsed 30 "Netflix" 15 "NETFLIX";
   Examples.parsed 60 "Netflix" 15 "NETFLIX";
   Examples.parsed 5 "Adobe annual plan" 120 "ADOBE";
   Examples.parsed 370 "Adobe annual plan" 120 "ADOBE"].

(** [[{"is_membership": true, "category": NaN},
      {"is_membership": true, "category": NaN}]] *)
Definition nan_labels : pystr :=
  lit "[{" ++ Examples.quoted "is_membership" ++ lit ": true, "
  ++ Examples.quoted "category" ++ lit ": NaN}, {"
  ++ Examples.quoted "is_membership" ++ lit ": true, "
  ++ Examples.quoted "category" ++ lit ": NaN}]".

Definition two_netflix : list Transaction :=
  [Examples.parsed 0 "Netflix" 15 "NETFLIX";
   Examples.parsed 30 "Netflix" 15 "NETFLIX"].

(** A payment from a table without date column. *)
Definition undated : Transaction :=
  {| date := None; description := lit "Netflix"; amount := 15;
     merchant := lit "NETFLIX";
     is_membership := None; membership_type := None; frequency := None;
     category := None; monthly_cost := None; total_paid := None |}.

(** The same payment, flagged as a membership. *)
Definition undated_membership : Transaction :=
  set_classification undated (JBool true) JNull JNull (JStr (lit "NETFLIX")).

Definition two_payments : list Transaction :=
  [Examples.parsed 0 "Netflix subscription" 15 "NETFLIX";
   Examples.parsed 30 "Gym membership" 40 "BASIC FIT"].

(** A membership whose category is a list. *)
Definition listed : Transaction :=
  set_classification (Examples.parsed 0 "Netflix" 15 "NETFLIX")
    (JBool true) JNull JNull (JArr [JStr (lit "Streaming")]).

(** The headers and a row of a table with a date and a description, and no
    amount. *)
Definition headers_without_amount : list (option pystr) :=
  [Some (lit "Date"); Some (lit "Description")].

Definition row_without_amount : list (option pystr) :=
  [Some (lit "2024-02-01"); Some (lit "NETFLIX")].

(** A line with an amount and no date. *)
Definition undated_text : pystr := lit "NETFLIX 12,50".

(** The text of a page: a header, a line with a date, a line without, and a
    line of totals. *)
Definition page_text : pystr :=
  join [NEWLINE]
    [lit "Page 1"; lit "21 mars 2024 NETFLIX 12,50"; lit "  SPOTIFY 9.99 ";
     lit "TOTAL 22,49"; lit "refund 0.01"].

(** A page of text, and a page of tables that has lost its text. *)
Definition text_page : TextParser.Page :=
  {| TextParser.extract_text := Some page_text;
     TextParser.extract_tables := [] |}.

Definition table_page : TextParser.Page :=
  {| TextParser.extract_text := None;
     TextParser.extract_tables := [Examples.statement_table] |}.

(** Two monthly payments and a quarterly one. *)
Definition row (day : Z) (amount : float) (frequency category : string)
  : Main.Row :=
  {| Main.r_date := day * Examples.DAY; Main.r_amount := amount;
     Main.r_merchant := Some (lit category);
     Main.r_membership_type := Some (lit "Services");
     Main.r_frequency := Some (lit frequency);
     Main.r_category := Some (lit category) |}.

Definition rows : list Main.Row :=
  [row 0 15 "Monthly" "NETFLIX"; row 10 90 "Quarterly" "GYM";
   row 30 15 "Monthly" "NETFLIX"].

End Cases.

(** * Properties *)

Unset Implicit Arguments.

(** ** Text *)

Section TextFacts.

Context {py : Python}.

Lemma startswith_In (p s : pystr) (c : N) :
  startswith p s = true -> In c p -> In c s.
Proof.
  revert s. induction p as [|a p IH]; intros s Hs Hc.
  - destruct Hc.
  - destruct s as [|b s]; [discriminate|].
    simpl in Hs. apply andb_true_iff in Hs. destruct Hs as [Hab Hs].
    apply N.eqb_eq in Hab. subst b.
    destruct Hc as [->|Hc]; [left; reflexivity|right; eauto].
Qed.

Lemma isin_In (p s : pystr) (c : N) :
  isin p s = true -> In c p -> In c s.
Proof.
  induction s as [|b s IH]; intros Hs Hc.
  - simpl in Hs. rewrite orb_false_r in Hs. eapply startswith_In; eauto.
  - simpl in Hs. apply orb_true_iff in Hs. destruct Hs as [Hs|Hs].
    + eapply startswith_In; eauto.
    + right. auto.
Qed.

Lemma In_upper (s : pystr) (u : N) :
  In u (upper s) -> exists c, In c s /\ In u (upper_char c).
Proof.
  unfold upper. rewrite in_flat_map. trivial.
Qed.

(** No lower-case ASCII letter survives [upper()]. *)
Lemma upper_no_lower (s : pystr) (u : N) :
  In u (upper s) -> (u < 97 \/ 122 < u)%N.
Proof.
  intros H. apply In_upper in H. destruct H as (c & _ & H).
  eapply upper_not_lower; eauto.
Qed.

Lemma any_in_without (k : pystr) (ks : list pystr) (text : pystr) :
  isin k text = false ->
  any_in (Classifier.without k ks) text = any_in ks text.
Proof.
  intros Hk. unfold any_in, Classifier.without.
  induction ks as [|k' ks IH]; [reflexivity|].
  simpl. unfold str_eqb at 1.
  destruct (list_eq_dec N.eq_dec k' k) as [->|Hne]; simpl.
  - rewrite Hk. simpl. exact IH.
  - rewrite IH. reflexivity.
Qed.

End TextFacts.

(** ** The rule-based classifier *)

Section RuleBased.

Context {py : Python}.

Import Classifier.

(** The text that the keywords are tested against holds no ["a"]. *)
Lemma saas_not_in_text (d m : pystr) :
  isin (lit "SaaS") (upper d ++ [SPACE] ++ upper m) = false.
Proof.
  destruct (isin (lit "SaaS") (upper d ++ [SPACE] ++ upper m)) eqn:E;
    [|reflexivity].
  exfalso.
  assert (H : In 97%N (upper d ++ [SPACE] ++ upper m)).
  { eapply isin_In; [exact E|]. vm_compute. tauto. }
  rewrite !in_app_iff in H. destruct H as [H|[H|H]].
  - apply upper_no_lower in H. lia.
  - destruct H as [H|[]]. discriminate H.
  - apply upper_no_lower in H. lia.
Qed.

(** ["SaaS"] is in both lists, and in neither once it is taken out. *)
Lemma saas_listed :
  existsb (str_eqb (lit "SaaS")) membership_keywords = true
  /\ existsb (str_eqb (lit "SaaS")) software_keywords = true
  /\ existsb (str_eqb (lit "SaaS"))
       (without (lit "SaaS") membership_keywords) = false
  /\ existsb (str_eqb (lit "SaaS"))
       (without (lit "SaaS") software_keywords) = false.
Proof. vm_compute. repeat split. Qed.

(** C10. In the rule-based classifier the keyword ["SaaS"] never matches:
    the tested text is the upper-cased description, a space and the
    upper-cased merchant, which holds no lower-case ["a"]. So
    [_classify_single] returns, on every transaction, what it returns with
    ["SaaS"] removed from the membership keywords and from the Software
    keywords. *)
Theorem saas_keyword_is_dead (t : Transaction) :
  _classify_single t = classify_single_without_saas t.
Proof.
  unfold _classify_single, classify_single_without_saas, classify_single_with.
  rewrite !any_in_without by apply saas_not_in_text.
  reflexivity.
Qed.

End RuleBased.

(** ** Merchant normalization *)

Section Tokens.

Context {py : Python}.

Lemma split_tokens (s : pystr) : Forall token (split s).
Proof.
  induction s as [|c s IH]; [constructor|].
  simpl. destruct (isspace c) eqn:Ec; [exact IH|].
  destruct s as [|c' s'].
  - repeat constructor; [discriminate|exact Ec].
  - destruct (isspace c') eqn:Ec'.
    + constructor; [|exact IH].
      split; [discriminate|]. repeat constructor. exact Ec.
    + destruct (split (c' :: s')) as [|w ws].
      * repeat constructor; [discriminate|exact Ec].
      * inversion IH as [|? ? [Hw Hs] Hws]; subst.
        constructor; [|exact Hws].
        split; [discriminate|]. constructor; assumption.
Qed.

Lemma split_cons_space (c : N) (s : pystr) :
  isspace c = true -> split (c :: s) = split s.
Proof. intros H. simpl. rewrite H. reflexivity. Qed.

(** A token followed by a space and more text is the first word. *)
Lemma split_token_space (w s : pystr) :
  token w -> split (w ++ SPACE :: s) = w :: split s.
Proof.
  intros [Hne Hw]. induction w as [|c w IH]; [congruence|].
  inversion Hw as [|? ? Hc Hw']; subst.
  destruct w as [|c' w'].
  - simpl. rewrite Hc, space_isspace. reflexivity.
  - change ((c :: c' :: w') ++ SPACE :: s)
      with (c :: (c' :: w') ++ SPACE :: s).
    assert (E : split ((c' :: w') ++ SPACE :: s) = (c' :: w') :: split s)
      by (apply IH; [discriminate|assumption]).
    inversion Hw' as [|? ? Hc' _]; subst.
    simpl in *. rewrite Hc, Hc'. rewrite Hc' in E. rewrite E. reflexivity.
Qed.

Lemma split_token (w : pystr) : token w -> split w = [w].
Proof.
  intros [Hne Hw]. induction w as [|c w IH]; [congruence|].
  inversion Hw as [|? ? Hc Hw']; subst.
  destruct w as [|c' w'].
  - simpl. rewrite Hc. reflexivity.
  - assert (E : split (c' :: w') = [c' :: w'])
      by (apply IH; [discriminate|assumption]).
    inversion Hw' as [|? ? Hc' _]; subst.
    simpl in *. rewrite Hc, Hc'. rewrite Hc' in E. rewrite E. reflexivity.
Qed.

(** [split] undoes [join]. *)
Lemma split_join (ws : list pystr) :
  Forall token ws -> split (join [SPACE] ws) = ws.
Proof.
  induction 1 as [|w ws Hw Hws IH]; [reflexivity|].
  destruct ws as [|w' ws'].
  - simpl. apply split_token. exact Hw.
  - change (join [SPACE] (w :: w' :: ws'))
      with (w ++ SPACE :: join [SPACE] (w' :: ws')).
    rewrite split_token_space by exact Hw. rewrite IH. reflexivity.
Qed.

(** White space at either end does not change the words. *)
Lemma split_lstrip (s : pystr) : split (lstrip s) = split s.
Proof.
  induction s as [|c s IH]; [reflexivity|].
  simpl. destruct (isspace c) eqn:Ec; [exact IH|].
  simpl. rewrite Ec. reflexivity.
Qed.

Lemma split_spaces (t : pystr) :
  Forall (fun c => isspace c = true) t -> split t = [].
Proof.
  induction 1 as [|c t Hc _ IH]; [reflexivity|].
  rewrite split_cons_space by exact Hc. exact IH.
Qed.

Lemma split_cons_word (c : N) (s : pystr) :
  isspace c = false ->
  split (c :: s) =
  match s with
  | [] => [[c]]
  | c' :: _ =>
      if isspace c' then [c] :: split s
      else match split s with
           | w :: ws => (c :: w) :: ws
           | [] => [[c]]
           end
  end.
Proof. intros H. simpl. rewrite H. reflexivity. Qed.

Lemma split_app_spaces (s t : pystr) :
  Forall (fun c => isspace c = true) t -> split (s ++ t) = split s.
Proof.
  intros Ht. induction s as [|c s IH].
  - apply split_spaces. exact Ht.
  - change ((c :: s) ++ t) with (c :: s ++ t).
    destruct (isspace c) eqn:Ec.
    + rewrite !split_cons_space by exact Ec. exact IH.
    + rewrite !split_cons_word by exact Ec.
      destruct s as [|c' s'].
      * change ([] ++ t) with t. rewrite (split_spaces _ Ht).
        destruct t as [|c' t']; [reflexivity|].
        inversion Ht as [|? ? Hc' Ht']; subst. rewrite Hc'. reflexivity.
      * change ((c' :: s') ++ t) with (c' :: s' ++ t) in *.
        rewrite IH. reflexivity.
Qed.

Lemma lstrip_decompose (s : pystr) :
  exists t, s = t ++ lstrip s /\ Forall (fun c => isspace c = true) t.
Proof.
  induction s as [|c s (t & E & Ht)].
  - exists []. split; [reflexivity|constructor].
  - simpl. destruct (isspace c) eqn:Ec.
    + exists (c :: t). split; [simpl; congruence|constructor; assumption].
    + exists []. split; [reflexivity|constructor].
Qed.

Lemma split_rstrip (s : pystr) : split (rstrip s) = split s.
Proof.
  unfold rstrip. destruct (lstrip_decompose (rev s)) as (t & E & Ht).
  assert (Es : s = rev (lstrip (rev s)) ++ rev t).
  { rewrite <- rev_app_distr, <- E, rev_involutive. reflexivity. }
  rewrite Es at 2. symmetry. apply split_app_spaces.
  apply Forall_rev. exact Ht.
Qed.

Lemma split_strip (s : pystr) : split (strip s) = split s.
Proof. unfold strip. rewrite split_rstrip. apply split_lstrip. Qed.

End Tokens.

Section Substitutions.

Context {py : Python}.

Variable m : pystr -> option nat.
Variable repl : pystr.

(** Dropping the rest of a match is skipping it. *)
Lemma re_sub_skip (k : nat) (s : pystr) :
  re_sub_from m repl k s = re_sub_from m repl 0 (skipn k s).
Proof.
  revert k. induction s as [|c s IH]; intros k.
  - rewrite skipn_nil. destruct k; reflexivity.
  - destruct k as [|k]; [reflexivity|]. simpl. apply IH.
Qed.

Lemma re_sub_cons_match (c : N) (s : pystr) (k : nat) :
  m (c :: s) = Some (S k) ->
  re_sub m repl (c :: s) = repl ++ re_sub m repl (skipn k s).
Proof.
  intros H. unfold re_sub. simpl. rewrite H. rewrite re_sub_skip.
  reflexivity.
Qed.

Lemma re_sub_cons_none (c : N) (s : pystr) :
  m (c :: s) = None ->
  re_sub m repl (c :: s) = c :: re_sub m repl s.
Proof. intros H. unfold re_sub. simpl. rewrite H. reflexivity. Qed.

End Substitutions.

Section Spans.

Variable p : N -> bool.

(** The character after the span, if any, fails [p]. *)
Lemma skipn_span_head (s : pystr) :
  match skipn (span p s) s with
  | [] => True
  | x :: _ => p x = false
  end.
Proof.
  induction s as [|c s IH]; simpl; [exact I|].
  destruct (p c) eqn:E; simpl; [exact IH|exact E].
Qed.

Lemma span_app_stop (w y : pystr) (x : N) :
  p x = false -> span p (w ++ x :: y) = span p w.
Proof.
  intros Hx. induction w as [|c w IH]; simpl.
  - rewrite Hx. reflexivity.
  - destruct (p c); [rewrite IH|]; reflexivity.
Qed.

Lemma span_app_le (w b : pystr) : span p w <= span p (w ++ b).
Proof.
  induction w as [|c w IH]; simpl; [lia|]. destruct (p c); lia.
Qed.

End Spans.

Section Collapse.

Context {py : Python}.

Lemma split_skip_spaces (s : pystr) (k : nat) :
  k <= span isspace s -> split (skipn k s) = split s.
Proof.
  revert k. induction s as [|c s IH]; intros k Hk.
  - rewrite skipn_nil. reflexivity.
  - destruct k as [|k]; [reflexivity|].
    simpl in Hk. destruct (isspace c) eqn:Ec; [|lia].
    rewrite split_cons_space by exact Ec. simpl. apply IH. lia.
Qed.

Lemma spaces_cons_space (c : N) (s : pystr) :
  isspace c = true -> spaces (c :: s) = Some (S (span isspace s)).
Proof. intros H. unfold spaces. simpl. rewrite H. reflexivity. Qed.

Lemma spaces_cons_word (c : N) (s : pystr) :
  isspace c = false -> spaces (c :: s) = None.
Proof. intros H. unfold spaces. simpl. rewrite H. reflexivity. Qed.

Lemma split_collapse_bounded (n : nat) (s : pystr) :
  length s <= n -> split (re_sub spaces [SPACE] s) = split s.
Proof.
  revert s. induction n as [|n IH]; intros s Hn.
  - destruct s; [reflexivity|simpl in Hn; lia].
  - destruct s as [|c s]; [reflexivity|]. simpl in Hn.
    destruct (isspace c) eqn:Ec.
    + rewrite (re_sub_cons_match _ _ _ _ _ (spaces_cons_space c s Ec)).
      change ([SPACE] ++ ?y) with (SPACE :: y).
      rewrite !split_cons_space by (exact Ec || apply space_isspace).
      rewrite IH.
      * apply split_skip_spaces. lia.
      * rewrite length_skipn. lia.
    + rewrite (re_sub_cons_none _ _ _ _ (spaces_cons_word c s Ec)).
      rewrite !split_cons_word by exact Ec.
      destruct s as [|c' s']; [reflexivity|].
      assert (E : split (re_sub spaces [SPACE] (c' :: s')) = split (c' :: s'))
        by (apply IH; lia).
      destruct (isspace c') eqn:Ec'.
      * rewrite (re_sub_cons_match _ _ _ _ _ (spaces_cons_space c' s' Ec')) in *.
        change ([SPACE] ++ ?y) with (SPACE :: y) in *.
        cbv beta iota. rewrite space_isspace, E. reflexivity.
      * rewrite (re_sub_cons_none _ _ _ _ (spaces_cons_word c' s' Ec')) in *.
        rewrite Ec', E. reflexivity.
Qed.

(** Collapsing white space and stripping do not change the words. *)
Lemma split_strip_collapse (s : pystr) :
  split (strip (re_sub spaces [SPACE] s)) = split s.
Proof.
  rewrite split_strip. eapply split_collapse_bounded. reflexivity.
Qed.

End Collapse.

Section DigitRuns.

Context {py : Python}.

Lemma long_digits_none (s : pystr) :
  span isdigit s < 4 -> long_digits s = None.
Proof.
  intros H. unfold long_digits.
  destruct (Nat.leb_spec 4 (span isdigit s)); [lia|reflexivity].
Qed.

Lemma long_digits_some (c : N) (s : pystr) :
  4 <= span isdigit (c :: s) ->
  long_digits (c :: s) = Some (S (span isdigit s)).
Proof.
  intros H. unfold long_digits.
  destruct (Nat.leb_spec 4 (span isdigit (c :: s))); [|lia].
  simpl in *. destruct (isdigit c); [reflexivity|lia].
Qed.

(** Where no long run starts, the substitution changes nothing. *)
Lemma re_sub_short_runs (s : pystr) :
  short_runs s -> re_sub long_digits [] s = s.
Proof.
  induction s as [|c s IH]; [reflexivity|].
  intros [H Hs].
  rewrite (re_sub_cons_none _ _ _ _ (long_digits_none _ H)).
  rewrite IH by exact Hs. reflexivity.
Qed.

Lemma span_re_sub_bounded (n : nat) (s : pystr) :
  length s <= n ->
  span isdigit (re_sub long_digits [] s) <= span isdigit s.
Proof.
  revert s. induction n as [|n IH]; intros s Hn.
  - destruct s; [simpl; lia|simpl in Hn; lia].
  - destruct s as [|c s]; [simpl; lia|]. simpl in Hn.
    destruct (Nat.leb_spec 4 (span isdigit (c :: s))) as [Hlong|Hshort].
    + rewrite (re_sub_cons_match _ _ _ _ _ (long_digits_some _ _ Hlong)).
      simpl app.
      pose proof (skipn_span_head isdigit s) as Hhead.
      destruct (skipn (span isdigit s) s) as [|x t] eqn:Et.
      * simpl; lia.
      * rewrite (re_sub_cons_none long_digits [] x t).
        -- simpl. rewrite Hhead. lia.
        -- apply long_digits_none. simpl. rewrite Hhead. lia.
    + rewrite (re_sub_cons_none _ _ _ _ (long_digits_none _ Hshort)).
      simpl. destruct (isdigit c); [|lia].
      apply le_n_S. apply IH. lia.
Qed.

Lemma short_runs_re_sub_bounded (n : nat) (s : pystr) :
  length s <= n -> short_runs (re_sub long_digits [] s).
Proof.
  revert s. induction n as [|n IH]; intros s Hn.
  - destruct s; [exact I|simpl in Hn; lia].
  - destruct s as [|c s]; [exact I|]. simpl in Hn.
    destruct (Nat.leb_spec 4 (span isdigit (c :: s))) as [Hlong|Hshort].
    + rewrite (re_sub_cons_match _ _ _ _ _ (long_digits_some _ _ Hlong)).
      simpl app. apply IH. rewrite length_skipn. lia.
    + rewrite (re_sub_cons_none _ _ _ _ (long_digits_none _ Hshort)).
      split; [|apply IH; lia].
      pose proof (span_re_sub_bounded _ s (le_n _)) as Hle.
      simpl in *. destruct (isdigit c); lia.
Qed.

(** After the substitution no long run is left. *)
Lemma short_runs_re_sub (s : pystr) : short_runs (re_sub long_digits [] s).
Proof. eapply short_runs_re_sub_bounded. reflexivity. Qed.

End DigitRuns.

Section Words.

Context {py : Python}.

(** The first word of a text that starts with one is a prefix of it. *)
Lemma split_first_prefix (c : N) (s : pystr) :
  isspace c = false ->
  exists w ws b, split (c :: s) = (c :: w) :: ws /\ s = w ++ b.
Proof.
  revert c. induction s as [|c' s IH]; intros c Hc.
  - exists [], [], []. simpl. rewrite Hc. auto.
  - rewrite split_cons_word by exact Hc.
    destruct (isspace c') eqn:Ec'.
    + exists [], (split (c' :: s)), (c' :: s). auto.
    + destruct (IH c' Ec') as (w & ws & b & E & Es).
      rewrite E. exists (c' :: w), ws, b. split; [reflexivity|].
      simpl. congruence.
Qed.

Lemma short_runs_single (c : N) : short_runs [c].
Proof. simpl. destruct (isdigit c); split; (lia || exact I). Qed.

(** The words of a text without long runs have none. *)
Lemma short_runs_split (s : pystr) :
  short_runs s -> Forall short_runs (split s).
Proof.
  induction s as [|c s IH]; intros Hs; [constructor|].
  destruct Hs as [Hc Hs]. specialize (IH Hs).
  destruct (isspace c) eqn:Ec.
  - rewrite split_cons_space by exact Ec. exact IH.
  - destruct (split_first_prefix c s Ec) as (w & ws & b & E & Es).
    rewrite E. rewrite split_cons_word in E by exact Ec.
    destruct s as [|c' s'].
    + inversion E; subst. constructor; [apply short_runs_single|constructor].
    + destruct (isspace c') eqn:Ec'.
      * inversion E; subst.
        constructor; [apply short_runs_single|exact IH].
      * destruct (split (c' :: s')) as [|w' ws'] eqn:E'.
        -- inversion E; subst.
           constructor; [apply short_runs_single|constructor].
        -- inversion E; subst w' ws'.
           inversion IH as [|? ? Hw Hws]; subst.
           constructor; [|exact Hws].
           split; [|exact Hw].
           rewrite Es in Hc.
           pose proof (span_app_le isdigit (c :: w) b) as Hle.
           simpl app in Hle. lia.
Qed.

Lemma short_runs_app_space (w y : pystr) :
  short_runs w -> short_runs y -> short_runs (w ++ SPACE :: y).
Proof.
  intros Hw Hy. induction w as [|c w IH].
  - simpl. rewrite space_not_digit. split; [lia|exact Hy].
  - destruct Hw as [Hc Hw]. split; [|apply IH; exact Hw].
    change (span isdigit ((c :: w) ++ SPACE :: y) < 4).
    rewrite span_app_stop by apply space_not_digit. exact Hc.
Qed.

Lemma short_runs_join (ws : list pystr) :
  Forall short_runs ws -> short_runs (join [SPACE] ws).
Proof.
  induction 1 as [|w ws Hw Hws IH]; [exact I|].
  destruct ws as [|w' ws']; [exact Hw|].
  change (short_runs (w ++ SPACE :: join [SPACE] (w' :: ws'))).
  apply short_runs_app_space; assumption.
Qed.

(** The characters of the words are characters of the text. *)
Lemma In_split (s : pystr) (w : pystr) (u : N) :
  In w (split s) -> In u w -> In u s.
Proof.
  revert w. induction s as [|c s IH]; intros w Hw Hu; [destruct Hw|].
  destruct (isspace c) eqn:Ec.
  - rewrite split_cons_space in Hw by exact Ec. right. eauto.
  - rewrite split_cons_word in Hw by exact Ec.
    destruct s as [|c' s'].
    + destruct Hw as [<-|[]]. exact Hu.
    + destruct (isspace c').
      * destruct Hw as [<-|Hw]; [destruct Hu as [<-|[]]; left; reflexivity|].
        right. eauto.
      * destruct (split (c' :: s')) as [|w' ws'].
        -- destruct Hw as [<-|[]]. destruct Hu as [<-|[]]. left; reflexivity.
        -- destruct Hw as [<-|Hw].
           ++ destruct Hu as [<-|Hu]; [left; reflexivity|].
              right. apply (IH w'); [left; reflexivity|exact Hu].
           ++ right. apply (IH w); [right; exact Hw|exact Hu].
Qed.

Lemma In_join (ws : list pystr) (u : N) :
  In u (join [SPACE] ws) -> u = SPACE \/ exists w, In w ws /\ In u w.
Proof.
  induction ws as [|w ws IH]; intros H; [destruct H|].
  destruct ws as [|w' ws'].
  - right. exists w. split; [left; reflexivity|exact H].
  - change (In u (w ++ SPACE :: join [SPACE] (w' :: ws'))) in H.
    apply in_app_or in H. destruct H as [H|[H|H]].
    + right. exists w. split; [left; reflexivity|exact H].
    + left. symmetry. exact H.
    + destruct (IH H) as [E|(x & Hx & Hu)]; [left; exact E|].
      right. exists x. split; [right; exact Hx|exact Hu].
Qed.

Lemma In_re_sub_from (m : pystr -> option nat) (k : nat) (s : pystr) (u : N) :
  In u (re_sub_from m [] k s) -> In u s.
Proof.
  revert k. induction s as [|c s IH]; intros k H; [destruct H|].
  simpl in H. destruct k as [|k].
  - destruct (m (c :: s)) as [[|j]|].
    + destruct H as [<-|H]; [left; reflexivity|right; eauto].
    + right. eauto.
    + destruct H as [<-|H]; [left; reflexivity|right; eauto].
  - right. eauto.
Qed.

Lemma upper_fixed_text (s : pystr) :
  Forall (fun u => upper_char u = [u]) s -> upper s = s.
Proof.
  induction 1 as [|u s Hu _ IH]; [reflexivity|].
  unfold upper in *. simpl. rewrite Hu, IH. reflexivity.
Qed.

Lemma firstn_firstn_same {A} (n : nat) (l : list A) :
  firstn n (firstn n l) = firstn n l.
Proof. rewrite firstn_firstn. rewrite Nat.min_id. reflexivity. Qed.

End Words.

Section MerchantNormalizer.

Context {py : Python}.

Import BankParser.

Lemma Forall_firstn_keep {A} (P : A -> Prop) (n : nat) (l : list A) :
  Forall P l -> Forall P (firstn n l).
Proof.
  intros H. rewrite <- (firstn_skipn n l) in H.
  apply Forall_app in H. tauto.
Qed.

Lemma extract_merchant_words (s : pystr) :
  _extract_merchant s =
  match merchant_words s with
  | [] => firstn 30 s
  | ws => join [SPACE] ws
  end.
Proof.
  unfold _extract_merchant. fold (merchant_words s).
  destruct (merchant_words s); reflexivity.
Qed.

Lemma merchant_words_split (s : pystr) :
  merchant_words s = firstn 3 (split (re_sub long_digits [] (upper s))).
Proof. unfold merchant_words. rewrite split_strip_collapse. reflexivity. Qed.

(** The joined words are a fixed point of each step of the normalizer. *)
Lemma merchant_words_join (s : pystr) :
  merchant_words (join [SPACE] (merchant_words s)) = merchant_words s.
Proof.
  rewrite (merchant_words_split (join _ _)).
  rewrite (merchant_words_split s).
  set (x := re_sub long_digits [] (upper s)).
  set (ws := firstn 3 (split x)).
  assert (Hup : upper (join [SPACE] ws) = join [SPACE] ws).
  { apply upper_fixed_text. apply Forall_forall. intros u Hu.
    apply In_join in Hu. destruct Hu as [->|(w & Hw & Hu)].
    - apply upper_space.
    - assert (Hx : In u x).
      { apply (In_split x w); [|exact Hu].
        unfold ws in Hw. rewrite <- (firstn_skipn 3 (split x)).
        apply in_or_app. left. exact Hw. }
      apply In_re_sub_from in Hx. apply In_upper in Hx.
      destruct Hx as (c & _ & Hc). apply (upper_fixed c u Hc). }
  rewrite Hup.
  rewrite re_sub_short_runs.
  - rewrite split_join.
    + apply firstn_firstn_same.
    + apply Forall_firstn_keep. apply split_tokens.
  - apply short_runs_join. apply Forall_firstn_keep.
    apply short_runs_split. apply short_runs_re_sub.
Qed.

(** C8, amended. Merchant normalization is idempotent on every description
    that leaves at least one word after the clean-up, and on every
    description of at most 30 characters: there, normalizing the normalized
    merchant gives it back. *)
Theorem extract_merchant_idempotent (s : pystr) :
  merchant_words s <> [] \/ length s <= 30 ->
  _extract_merchant (_extract_merchant s) = _extract_merchant s.
Proof.
  intros H. rewrite (extract_merchant_words s).
  destruct (merchant_words s) as [|w ws] eqn:E.
  - destruct H as [H|H]; [congruence|].
    rewrite firstn_all2 by exact H.
    rewrite extract_merchant_words, E. apply firstn_all2. exact H.
  - rewrite <- E. rewrite extract_merchant_words.
    rewrite merchant_words_join. rewrite E. reflexivity.
Qed.

End MerchantNormalizer.

Lemma extract_merchant_idempotent_witness :
  let s := lit "Netflix.com 12345678 Paris" in
  (merchant_words s <> [] \/ length s <= 30) /\
  BankParser._extract_merchant (BankParser._extract_merchant s)
  = BankParser._extract_merchant s.
Proof.
  split.
  - right. vm_compute. lia.
  - apply extract_merchant_idempotent. right. vm_compute. lia.
Defined.

(** C8 as stated fails on the fallback: a description made of reference
    numbers alone is cut at 30 characters, which leaves a short digit run
    that the next normalization keeps as the only word. *)
Lemma extract_merchant_fallback_not_idempotent :
  let s := lit "1111111111111111111111111111 1234" in
  BankParser._extract_merchant s = lit "1111111111111111111111111111 1" /\
  BankParser._extract_merchant (BankParser._extract_merchant s) = lit "1" /\
  BankParser._extract_merchant (BankParser._extract_merchant s)
  <> BankParser._extract_merchant s.
Proof.
  vm_compute. repeat split. discriminate.
Qed.

(** ** The amount parser *)

Section Amounts.

Context {py : Python}.

Import BankParser.

Lemma remove_char_twice (a : N) (s : pystr) :
  remove_char a (remove_char a s) = remove_char a s.
Proof.
  unfold remove_char. induction s as [|c s IH]; [reflexivity|].
  simpl. destruct (negb (c =? a)%N) eqn:E; simpl; rewrite ?E, IH; reflexivity.
Qed.

Lemma remove_char_swap (a b : N) (s : pystr) :
  remove_char a (remove_char b s) = remove_char b (remove_char a s).
Proof.
  unfold remove_char. induction s as [|c s IH]; [reflexivity|].
  simpl. destruct (negb (c =? a)%N) eqn:Ea, (negb (c =? b)%N) eqn:Eb;
    simpl; rewrite ?Ea, ?Eb, IH; reflexivity.
Qed.

(** The amount parser deletes every ["$"] and every [","] before it
    converts the text: an amount string is read as the same string without
    its dollar signs and commas. *)
Lemma parse_amount_ignores_separators (s : pystr) :
  _parse_amount s = _parse_amount (remove_char 44 (remove_char 36 s)).
Proof.
  unfold _parse_amount.
  rewrite (remove_char_swap 36 44 (remove_char 36 s)).
  rewrite remove_char_twice.
  rewrite (remove_char_swap 44 36 s).
  rewrite remove_char_twice.
  rewrite (remove_char_swap 36 44 s).
  reflexivity.
Qed.

End Amounts.

(** C5. The amount parser loses an amount that is written with a euro sign
    and a decimal comma: it deletes the comma and keeps the sign, the
    conversion is refused and the result is 0.0, so that the table path drops
    the row, where the text path of the same parser reads the amount as
    12.5. With a dollar sign and a period the amount is read; with a comma
    and no sign it is read a hundred times too large. *)
Theorem parse_amount_loses_euro_amount :
  BankParser._parse_amount (Examples.EURO :: lit " 12,50") = 0%float
  /\ PrimFloat.eqb (BankParser._parse_amount (Examples.EURO :: lit " 12,50"))
                   12.5 = false
  /\ BankParser._parse_amount (lit "$12.50") = 12.5%float
  /\ BankParser._parse_amount (lit "12,50") = 1250%float
  /\ BankParser._parse_table
       [[Some (lit "Description"); Some (lit "Amount")];
        [Some (lit "NETFLIX"); Some (Examples.EURO :: lit " 12,50")]] = []
  /\ map BankParser.e_amount
         (TextParser._parse_text
            (lit "21 mars 2024 NETFLIX " ++ Examples.EURO :: lit " 12,50"))
     = [12.5%float].
Proof. vm_compute. repeat split; reflexivity. Qed.

Lemma parse_amount_dollar_thousands :
  BankParser._parse_amount (lit "$1,250.50") = 1250.5%float.
Proof. vm_compute. reflexivity. Qed.

(** ** Emitted amounts *)

(** C6. The table path emits the amount as parsed, sign included, where the
    CSV path and the text path take its absolute value: a debit written
    -12.50 in a table is emitted with a negative amount. *)
Theorem parse_table_keeps_negative_amount :
  BankParser._parse_table Examples.statement_table =
  [{| BankParser.e_date := Some 1706745600000000%Z;
      BankParser.e_description := lit "NETFLIX";
      BankParser.e_amount := (-12.5)%float;
      BankParser.e_merchant := lit "NETFLIX" |}]
  /\ PrimFloat.ltb (-12.5) 0 = true.
Proof. vm_compute. split; reflexivity. Qed.

(** The same cells on the CSV path. *)
Lemma csv_row_takes_absolute_value :
  BankParser.csv_row (Some (lit "2024-02-01")) (lit "NETFLIX") (lit "-12.50") =
  [{| BankParser.e_date := Some 1706745600000000%Z;
      BankParser.e_description := lit "NETFLIX";
      BankParser.e_amount := 12.5%float;
      BankParser.e_merchant := lit "NETFLIX" |}].
Proof. vm_compute. reflexivity. Qed.

(** A zero amount is dropped on both paths. *)
Lemma zero_amount_dropped :
  BankParser._parse_table
    [[Some (lit "Description"); Some (lit "Amount")];
     [Some (lit "NETFLIX"); Some (lit "0.00")]] = []
  /\ BankParser.csv_row None (lit "NETFLIX") (lit "0.00") = [].
Proof. vm_compute. split; reflexivity. Qed.

(** ** Dictionaries *)

Lemma str_eqb_eq (a b : pystr) : str_eqb a b = true <-> a = b.
Proof.
  unfold str_eqb. destruct (list_eq_dec N.eq_dec a b); split; congruence.
Qed.

Lemma float_same_eq (x y : float) : float_same x y = true <-> x = y.
Proof.
  unfold float_same. split.
  - intros H. apply Prim2SF_inj.
    destruct (Prim2SF x) as [s|s| |s m e], (Prim2SF y) as [s'|s'| |s' m' e'];
      try discriminate; try reflexivity.
    + apply Bool.eqb_prop in H. congruence.
    + apply Bool.eqb_prop in H. congruence.
    + apply andb_true_iff in H. destruct H as [H He].
      apply andb_true_iff in H. destruct H as [Hs Hm].
      apply Bool.eqb_prop in Hs. apply Pos.eqb_eq in Hm.
      apply Z.eqb_eq in He. congruence.
  - intros <-. destruct (Prim2SF x) as [s|s| |s m e];
      rewrite ?Bool.eqb_reflx, ?Pos.eqb_refl, ?Z.eqb_refl; reflexivity.
Qed.

Lemma hkey_eqb_eq (a b : hkey) : hkey_eqb a b = true <-> a = b.
Proof.
  destruct a, b; simpl; split; try congruence; intros H.
  - apply Z.eqb_eq in H. congruence.
  - inversion H. apply Z.eqb_refl.
  - apply float_same_eq in H. congruence.
  - inversion H. apply float_same_eq. reflexivity.
  - apply str_eqb_eq in H. congruence.
  - inversion H. apply str_eqb_eq. reflexivity.
Qed.

Section DictFacts.

Variables K V : Type.
Variable eqb : K -> K -> bool.
Hypothesis eqb_eq : forall a b, eqb a b = true <-> a = b.

Lemma eqb_refl (a : K) : eqb a a = true.
Proof. apply eqb_eq. reflexivity. Qed.

Lemma dict_group_append (k k' : K) (v : V) (d : list (K * list V)) :
  dict_group eqb k (dict_append eqb k' v d) =
  if eqb k' k then dict_group eqb k d ++ [v] else dict_group eqb k d.
Proof.
  unfold dict_group. induction d as [|[k0 vs] d IH]; simpl.
  - destruct (eqb k' k); reflexivity.
  - destruct (eqb k0 k') eqn:E0; simpl.
    + apply eqb_eq in E0. subst k0.
      destruct (eqb k' k); reflexivity.
    + destruct (eqb k0 k) eqn:E1; [|exact IH].
      apply eqb_eq in E1. subst k0.
      destruct (eqb k' k) eqn:E2; [|reflexivity].
      apply eqb_eq in E2. subst k'. rewrite eqb_refl in E0. discriminate.
Qed.

Lemma dict_append_keys (k : K) (v : V) (d : list (K * list V)) (x : K) :
  In x (map fst (dict_append eqb k v d)) <-> x = k \/ In x (map fst d).
Proof.
  induction d as [|[k0 vs] d IH]; simpl.
  - intuition congruence.
  - destruct (eqb k0 k) eqn:E; simpl.
    + apply eqb_eq in E. subst k0. intuition congruence.
    + rewrite IH. intuition congruence.
Qed.

Lemma dict_append_NoDup (k : K) (v : V) (d : list (K * list V)) :
  NoDup (map fst d) -> NoDup (map fst (dict_append eqb k v d)).
Proof.
  induction d as [|[k0 vs] d IH]; simpl; intros H.
  - constructor; [intros []|constructor].
  - inversion H as [|? ? Hnot Hd]; subst.
    destruct (eqb k0 k) eqn:E; simpl.
    + constructor; assumption.
    + constructor; [|apply IH; exact Hd].
      rewrite dict_append_keys. intros [->|Hin]; [|contradiction].
      rewrite eqb_refl in E. discriminate.
Qed.

Lemma dict_get_In (k : K) (vs : list V) (d : list (K * list V)) :
  dict_get eqb k d = Some vs -> In (k, vs) d.
Proof.
  induction d as [|[k0 vs0] d IH]; simpl; [discriminate|].
  destruct (eqb k0 k) eqn:E.
  - apply eqb_eq in E. intros H. left. congruence.
  - intros H. right. auto.
Qed.

Lemma In_dict_get (k : K) (vs : list V) (d : list (K * list V)) :
  NoDup (map fst d) -> In (k, vs) d -> dict_get eqb k d = Some vs.
Proof.
  induction d as [|[k0 vs0] d IH]; simpl; intros Hd Hin; [destruct Hin|].
  inversion Hd as [|? ? Hnot Hd']; subst.
  destruct Hin as [E|Hin].
  - inversion E; subst. rewrite eqb_refl. reflexivity.
  - destruct (eqb k0 k) eqn:E; [|auto].
    apply eqb_eq in E. subst k0. exfalso. apply Hnot.
    apply (in_map fst) in Hin. exact Hin.
Qed.

End DictFacts.

(** ** The one-time-payment filter *)

Section UpdateAt.

Import Classifier.

Variable A : Type.
Variable f : A -> A.
Hypothesis f_twice : forall x, f (f x) = f x.

Lemma nth_error_update_at (i j : nat) (l : list A) :
  nth_error (update_at f i l) j =
  if i =? j then option_map f (nth_error l j) else nth_error l j.
Proof.
  revert i j. induction l as [|x l IH]; intros i j.
  - destruct i; simpl; rewrite nth_error_nil;
      match goal with |- context [if ?b then _ else _] => destruct b end;
      reflexivity.
  - destruct i as [|i], j as [|j]; simpl; try reflexivity. apply IH.
Qed.

Lemma nth_error_update_all (ixs : list nat) (j : nat) (l : list A) :
  nth_error (fold_left (fun ts i => update_at f i ts) ixs l) j =
  if existsb (Nat.eqb j) ixs then option_map f (nth_error l j)
  else nth_error l j.
Proof.
  revert l. induction ixs as [|i ixs IH]; intros l; [reflexivity|].
  simpl. rewrite IH, nth_error_update_at. rewrite (Nat.eqb_sym j i).
  destruct (i =? j), (existsb (Nat.eqb j) ixs); simpl; try reflexivity.
  destruct (nth_error l j); simpl; [rewrite f_twice|]; reflexivity.
Qed.

Lemma nth_error_update_groups (K : Type) (d : list (K * list nat))
      (j : nat) (l : list A) :
  nth_error
    (fold_left
       (fun ts group =>
          if length (snd group) =? 1
          then fold_left (fun ts' i => update_at f i ts') (snd group) ts
          else ts)
       d l) j =
  if existsb (fun group => (length (snd group) =? 1)
                           && existsb (Nat.eqb j) (snd group)) d
  then option_map f (nth_error l j)
  else nth_error l j.
Proof.
  revert l. induction d as [|g d IH]; intros l; [reflexivity|].
  simpl. rewrite IH.
  destruct (length (snd g) =? 1); simpl; [|reflexivity].
  rewrite nth_error_update_all.
  destruct (existsb (Nat.eqb j) (snd g)),
    (existsb (fun group => (length (snd group) =? 1)
                           && existsb (Nat.eqb j) (snd group)) d);
    simpl; try reflexivity.
  destruct (nth_error l j); simpl; [rewrite f_twice|]; reflexivity.
Qed.

End UpdateAt.

Section OneTimeFilter.

Context {py : Python}.

Import Classifier Spec.

Lemma demote_twice (t : Transaction) : demote (demote t) = demote t.
Proof. reflexivity. Qed.

Lemma by_merchant_group (k : pystr) (l : list Transaction) (a : nat)
      (d : list (pystr * list nat)) :
  dict_group str_eqb k
    (fold_left by_merchant_step (combine (seq a (length l)) l) d) =
  dict_group str_eqb k d ++ positions a k l.
Proof.
  revert a d. induction l as [|t l IH]; intros a d.
  - simpl. rewrite app_nil_r. reflexivity.
  - simpl. rewrite IH. unfold by_merchant_step. simpl.
    destruct (flagged t); simpl; [|reflexivity].
    rewrite (dict_group_append _ _ str_eqb str_eqb_eq).
    destruct (str_eqb (merchant_key t) k); [|reflexivity].
    rewrite <- app_assoc. reflexivity.
Qed.

Lemma by_merchant_keys (l : list Transaction) (a : nat)
      (d : list (pystr * list nat)) :
  NoDup (map fst d) ->
  NoDup (map fst (fold_left by_merchant_step (combine (seq a (length l)) l) d)).
Proof.
  revert a d. induction l as [|t l IH]; intros a d Hd; [exact Hd|].
  simpl. apply IH. unfold by_merchant_step. simpl.
  destruct (flagged t); [|exact Hd].
  apply (dict_append_NoDup _ _ str_eqb str_eqb_eq). exact Hd.
Qed.

Lemma In_positions (k : pystr) (l : list Transaction) (a j : nat) :
  In j (positions a k l) <->
  a <= j /\ exists t, nth_error l (j - a) = Some t /\ flagged t = true
                      /\ merchant_key t = k.
Proof.
  revert a. induction l as [|t l IH]; intros a.
  - simpl. split; [intros []|]. intros (_ & t & H & _).
    rewrite nth_error_nil in H. discriminate.
  - simpl.
    assert (Hstep : In j (positions (S a) k l) <->
                    a < j /\ exists t', nth_error (t :: l) (j - a) = Some t'
                      /\ flagged t' = true /\ merchant_key t' = k).
    { rewrite IH. split.
      - intros (Ha & t' & Hn & Hf). split; [lia|]. exists t'.
        replace (j - a) with (S (j - S a)) by lia. auto.
      - intros (Ha & t' & Hn & Hf). split; [lia|]. exists t'.
        replace (j - a) with (S (j - S a)) in Hn by lia. auto. }
    destruct (flagged t && str_eqb (merchant_key t) k) eqn:E.
    + apply andb_true_iff in E. destruct E as [Ef Ek].
      apply str_eqb_eq in Ek. simpl. rewrite Hstep. split.
      * intros [<-|(Ha & H)]; [|split; [lia|exact H]].
        split; [lia|]. exists t. rewrite Nat.sub_diag. auto.
      * intros (Ha & t' & Hn & Hf).
        destruct (Nat.eq_dec a j) as [->|Hne]; [left; reflexivity|].
        right. split; [lia|]. exists t'. auto.
    + rewrite Hstep. split.
      * intros (Ha & H). split; [lia|exact H].
      * intros (Ha & t' & Hn & Hf & Hk).
        destruct (Nat.eq_dec a j) as [->|Hne]; [|split; [lia|eauto]].
        rewrite Nat.sub_diag in Hn. simpl in Hn. inversion Hn; subst t'.
        rewrite Hf in E. simpl in E.
        apply str_eqb_eq in Hk. congruence.
Qed.

Lemma length_positions (k : pystr) (l : list Transaction) (a : nat) :
  length (positions a k l) = length (merchant_group l k).
Proof.
  revert a. unfold merchant_group. induction l as [|t l IH]; intros a.
  - reflexivity.
  - simpl. destruct (flagged t && str_eqb (merchant_key t) k); simpl;
      rewrite IH; reflexivity.
Qed.

End OneTimeFilter.

Section OneTimeFilterSpec.

Context {py : Python}.

Import Classifier Spec.

Lemma by_merchant_positions (l : list Transaction) (k : pystr) :
  dict_group str_eqb k (by_merchant l) = positions 0 k l.
Proof.
  unfold by_merchant, enumerate. rewrite by_merchant_group. reflexivity.
Qed.

Lemma by_merchant_NoDup (l : list Transaction) :
  NoDup (map fst (by_merchant l)).
Proof. apply by_merchant_keys. constructor. Qed.

(** A position is demoted exactly when its transaction is flagged and alone
    under its key. *)
Lemma demoted_position (l : list Transaction) (j : nat) (t : Transaction) :
  nth_error l j = Some t ->
  existsb (fun group => (length (snd group) =? 1)
                        && existsb (Nat.eqb j) (snd group))
          (by_merchant l)
  = flagged t && (length (merchant_group l (merchant_key t)) =? 1).
Proof.
  intros Hj. apply eq_iff_eq_true. split.
  - intros H. apply existsb_exists in H. destruct H as ([k ixs] & Hin & H).
    simpl in H. apply andb_true_iff in H. destruct H as [Hlen Hmem].
    apply existsb_exists in Hmem. destruct Hmem as (j' & Hj' & E).
    apply Nat.eqb_eq in E. subst j'.
    apply (In_dict_get _ _ str_eqb str_eqb_eq) in Hin;
      [|apply by_merchant_NoDup].
    pose proof (by_merchant_positions l k) as Hg.
    unfold dict_group in Hg. rewrite Hin in Hg. subst ixs.
    apply In_positions in Hj'. destruct Hj' as (_ & t' & Ht' & Hf & Hk).
    rewrite Nat.sub_0_r, Hj in Ht'. inversion Ht'; subst t'.
    rewrite Hf, Hk. rewrite <- (length_positions k l 0). exact Hlen.
  - intros H. apply andb_true_iff in H. destruct H as [Hf Hlen].
    set (k := merchant_key t) in *.
    rewrite <- (length_positions k l 0) in Hlen.
    assert (Hin : In j (positions 0 k l)).
    { apply In_positions. split; [lia|]. exists t.
      rewrite Nat.sub_0_r. auto. }
    pose proof (by_merchant_positions l k) as Hg.
    unfold dict_group in Hg.
    destruct (dict_get str_eqb k (by_merchant l)) as [ixs|] eqn:Eg;
      [|rewrite <- Hg in Hin; destruct Hin].
    subst ixs. apply (dict_get_In _ _ str_eqb str_eqb_eq) in Eg.
    apply existsb_exists. exists (k, positions 0 k l).
    split; [exact Eg|]. simpl. rewrite Hlen. simpl.
    apply existsb_exists. exists j. split; [exact Hin|apply Nat.eqb_refl].
Qed.

(** The filter, transaction by transaction. *)
Lemma filter_one_time_payments_map (l : list Transaction) :
  _filter_one_time_payments l = map (filtered l) l.
Proof.
  apply nth_error_ext. intros j.
  unfold _filter_one_time_payments.
  rewrite (nth_error_update_groups _ demote demote_twice).
  rewrite nth_error_map.
  destruct (nth_error l j) as [t|] eqn:Hj.
  - rewrite (demoted_position l j t Hj). unfold filtered. simpl.
    destruct (flagged t && (length (merchant_group l (merchant_key t)) =? 1));
      reflexivity.
  - simpl. destruct (existsb _ _); reflexivity.
Qed.

End OneTimeFilterSpec.

(** ** Loops that may raise *)

Section MapM.

Variables A B : Type.
Variable f : A -> result B.

Lemma mapM_Forall2 (l : list A) (l' : list B) :
  mapM f l = Ok l' -> Forall2 (fun x y => f x = Ok y) l l'.
Proof.
  revert l'. induction l as [|x l IH]; intros l' H.
  - inversion H. constructor.
  - simpl in H. destruct (f x) as [y|e] eqn:Ex; [|discriminate].
    simpl in H. destruct (mapM f l) as [ys|e]; [|discriminate].
    inversion H. constructor; auto.
Qed.

(** A loop whose body never raises returns. *)
Lemma mapM_total (l : list A) :
  Forall (fun x => exists y, f x = Ok y) l -> exists l', mapM f l = Ok l'.
Proof.
  induction 1 as [|x l (y & Hy) _ (l' & IH)].
  - exists []. reflexivity.
  - exists (y :: l'). simpl. rewrite Hy. simpl. rewrite IH. reflexivity.
Qed.

End MapM.

Lemma Forall2_concat {A B} (R : A -> B -> Prop) (ls : list (list A))
      (ls' : list (list B)) :
  Forall2 (Forall2 R) ls ls' -> Forall2 R (concat ls) (concat ls').
Proof.
  induction 1 as [|l l' ls ls' H _ IH]; [constructor|].
  simpl. apply Forall2_app; assumption.
Qed.

Lemma Forall2_map_left {A B C} (R : B -> C -> Prop) (g : A -> B)
      (l : list A) (l' : list C) :
  Forall2 (fun x y => R (g x) y) l l' -> Forall2 R (map g l) l'.
Proof. induction 1; constructor; assumption. Qed.

Lemma Forall2_map_eq {A B C} (g : A -> C) (h : B -> C)
      (l : list A) (l' : list B) :
  Forall2 (fun x y => h y = g x) l l' -> map h l' = map g l.
Proof. induction 1; simpl; congruence. Qed.

Lemma Forall2_enumerate {A B} (R : A -> B -> Prop) (l : list A)
      (l' : list B) (a : nat) :
  Forall2 (fun it y => R (snd it) y) (combine (seq a (length l)) l) l' ->
  Forall2 R l l'.
Proof.
  revert a l'. induction l as [|x l IH]; intros a l' H.
  - inversion H. constructor.
  - simpl in H. inversion H; subst. constructor; [assumption|].
    apply (IH (S a)). assumption.
Qed.

(** ** Batches *)

Section Batches.

Variable A : Type.
Variable b : nat.
Hypothesis b_positive : 0 < b.

Lemma concat_chunks (n : nat) (l : list A) :
  length l <= n * b ->
  concat (map (fun k => firstn b (skipn (k * b) l)) (seq 0 n)) = l.
Proof.
  revert l. induction n as [|n IH]; intros l Hl.
  - destruct l; [reflexivity|simpl in Hl; lia].
  - simpl seq. rewrite <- seq_shift. simpl. rewrite map_map.
    transitivity (firstn b l ++ skipn b l); [|apply firstn_skipn].
    f_equal.
    transitivity
      (concat (map (fun k => firstn b (skipn (k * b) (skipn b l)))
                   (seq 0 n))).
    + f_equal. apply map_ext. intros k. rewrite skipn_skipn.
      replace (k * b + b) with (b + k * b) by lia. reflexivity.
    + apply IH. rewrite length_skipn. lia.
Qed.

End Batches.

(** ** The classification stage *)

Section ClassifyStage.

Context {py : Python}.

Import Classifier Spec.

Lemma rule_based_one_update (t t' : Transaction) :
  rule_based_one t = Ok t' ->
  exists c, _classify_single t = Ok c /\ t' = update t c.
Proof.
  unfold rule_based_one. destruct (_classify_single t) as [c|e]; simpl;
    [|discriminate].
  intros H. inversion H. eauto.
Qed.

Lemma classify_single_labels (t : Transaction) (c : Classification) :
  _classify_single t = Ok c ->
  c_is_membership c = true ->
  exists mt fr, c_membership_type c = Some mt /\ c_frequency c = Some fr.
Proof.
  unfold _classify_single, classify_single_with.
  set (im := any_in membership_keywords _).
  match goal with
  | |- bind ?r _ = _ -> _ => destruct r as [cat|e]; [|discriminate]
  end.
  unfold bind.
  destruct im; intros H Hm; inversion H; subst; simpl in *;
    [eauto|discriminate].
Qed.

Lemma rule_based_one_spec (t t' : Transaction) :
  rule_based_one t = Ok t' -> classified t t' /\ rule_labelled t'.
Proof.
  intros H. apply rule_based_one_update in H. destruct H as (c & Hc & ->).
  split; [split; [reflexivity|discriminate]|].
  split; [exists (c_is_membership c); reflexivity|].
  split; [exists (c_category c); reflexivity|].
  unfold flagged. simpl. intros Hm.
  destruct (classify_single_labels t c Hc Hm) as (mt & fr & Emt & Efr).
  rewrite Emt, Efr. split; eexists; reflexivity.
Qed.

Lemma rule_based_classify_spec (l l' : list Transaction) :
  _rule_based_classify l = Ok l' ->
  Forall2 (fun t t' => classified t t' /\ rule_labelled t') l l'.
Proof.
  intros H. apply mapM_Forall2 in H.
  eapply Forall2_impl; [|exact H]. apply rule_based_one_spec.
Qed.

Lemma merge_one_classified (v : jvalue) (i : nat) (t t' : Transaction) :
  merge_one v (i, t) = Ok t' -> classified t t'.
Proof.
  unfold merge_one.
  destruct (py_len v) as [n|e]; simpl; [|discriminate].
  destruct (i <? n).
  - destruct (py_item v i) as [c|e]; simpl; [|discriminate].
    destruct (py_get c "is_membership" _) as [im|e]; simpl; [|discriminate].
    destruct (py_get c "membership_type" _) as [mt|e]; simpl; [|discriminate].
    destruct (py_get c "frequency" _) as [fr|e]; simpl; [|discriminate].
    destruct (py_get c "category" _) as [cat|e]; simpl; [|discriminate].
    intros H. inversion H. split; [reflexivity|discriminate].
  - intros H. apply rule_based_one_spec in H. exact (proj1 H).
Qed.

Lemma classify_batch_classified (l l' : list Transaction) (reply : Reply) :
  _classify_batch l reply = Ok l' -> Forall2 classified l l'.
Proof.
  assert (Hrule : _rule_based_classify l = Ok l' -> Forall2 classified l l').
  { intros H. apply rule_based_classify_spec in H.
    eapply Forall2_impl; [|exact H]. intros x y Hxy. exact (proj1 Hxy). }
  unfold _classify_batch. destruct reply as [|content]; [exact Hrule|].
  destruct (decode content) as [v|]; [|exact Hrule].
  destruct (mapM (merge_one v) (enumerate l)) as [merged|e] eqn:E;
    [|exact Hrule].
  intros H. inversion H; subst merged. apply mapM_Forall2 in E.
  apply (Forall2_enumerate classified l l' 0).
  eapply Forall2_impl; [|exact E].
  intros [i t] t' Hm. exact (merge_one_classified v i t t' Hm).
Qed.

Lemma batch_count_covers (n : nat) : n <= batch_count n * batch_size.
Proof.
  unfold batch_count, batch_size.
  pose proof (Nat.div_mod_eq (n + (20 - 1)) 20) as E.
  pose proof (Nat.mod_upper_bound (n + (20 - 1)) 20) as Hlt. lia.
Qed.

Lemma concat_batches (l : list Transaction) :
  concat (map (batch l) (seq 0 (batch_count (length l)))) = l.
Proof.
  unfold batch. apply concat_chunks; [unfold batch_size; lia|].
  apply batch_count_covers.
Qed.

Lemma classify_classified (strategy : Strategy) (l l' : list Transaction) :
  classify strategy l = Ok l' -> Forall2 classified l l'.
Proof.
  destruct strategy as [|service]; simpl.
  - intros H. apply rule_based_classify_spec in H.
    eapply Forall2_impl; [|exact H]. intros x y Hxy. exact (proj1 Hxy).
  - unfold model_assisted.
    destruct (mapM _ _) as [bs|e] eqn:E; simpl; [|discriminate].
    intros H. inversion H; subst l'. apply mapM_Forall2 in E.
    rewrite <- (concat_batches l) at 1.
    apply Forall2_concat. apply Forall2_map_left.
    eapply Forall2_impl; [|exact E].
    intros k bk Hk. simpl in Hk.
    destruct (request (batch l k)); [|discriminate].
    exact (classify_batch_classified _ _ _ Hk).
Qed.

End ClassifyStage.

(** ** Monthly costs *)

Section Costs.

Context {py : Python}.

Import Classifier Spec.

Lemma category_key_present (t : Transaction) (k k' : hkey) :
  category t <> None ->
  category_key t = Ok k ->
  k' <> HNaN ->
  eq_key (get_category t) k' = hkey_eqb k k'.
Proof.
  unfold category_key, get_category, eq_key.
  destruct (category t) as [v|]; [|congruence].
  intros _ H Hk. rewrite H. destruct k; try reflexivity.
  destruct k'; try reflexivity. congruence.
Qed.

Lemma nan_category_key (t : Transaction) (k : hkey) :
  category_key t = Ok k ->
  nan_category t = true <-> k = HNaN.
Proof.
  unfold category_key, nan_category.
  destruct (category t) as [[| | |x| | |]|]; simpl; try (intros [= <-]);
    try discriminate; try (split; discriminate).
  destruct (PrimFloat.is_nan x).
  - intros [= <-]. split; reflexivity.
  - destruct (float_integer x); intros [= <-]; split; discriminate.
Qed.

Lemma nan_category_alone (t : Transaction) (k : hkey) :
  nan_category t = true -> eq_key (get_category t) k = false.
Proof.
  unfold nan_category, get_category, eq_key.
  destruct (category t) as [[| | |x| | |]|]; try discriminate.
  simpl. intros ->. reflexivity.
Qed.

Lemma by_category_spec (l : list Transaction)
      (d0 d : list (hkey * list (float * jvalue))) :
  Forall (fun t => category t <> None) l ->
  by_category l d0 = Ok d ->
  Forall (fun t => exists k, category_key t = Ok k) l /\
  (NoDup (map fst d0) -> NoDup (map fst d)) /\
  forall k, k <> HNaN ->
            dict_group hkey_eqb k d =
            dict_group hkey_eqb k d0 ++ map item (category_group l k).
Proof.
  intros Hl. revert d0. induction Hl as [|t l Ht _ IH]; intros d0 H.
  - inversion H; subst. split; [constructor|]. split; [auto|].
    intros k _. simpl. rewrite app_nil_r. reflexivity.
  - simpl in H. destruct (category_key t) as [kt|e] eqn:Ek; [|discriminate].
    simpl in H. apply IH in H. destruct H as (Hkeys & Hnd & Hg).
    split; [constructor; eauto|].
    split.
    + intros H0. apply Hnd.
      apply (dict_append_NoDup _ _ hkey_eqb hkey_eqb_eq). exact H0.
    + intros k Hk. rewrite (Hg k Hk).
      rewrite (dict_group_append _ _ hkey_eqb hkey_eqb_eq).
      unfold category_group. simpl.
      rewrite (category_key_present t kt k Ht Ek Hk).
      destruct (hkey_eqb kt k); [|reflexivity].
      rewrite <- app_assoc. reflexivity.
Qed.

Lemma fold_cost_group (d : list (hkey * list (float * jvalue)))
      (l : list Transaction) :
  fold_left cost_group d l =
  map (fun t => fold_left (fun t' g => cost_one g t') d t) l.
Proof.
  revert l. induction d as [|g d IH]; intros l; simpl.
  - rewrite map_id. reflexivity.
  - rewrite IH. unfold cost_group. rewrite map_map. reflexivity.
Qed.

Lemma eq_key_unique (v : jvalue) (k k' : hkey) :
  eq_key v k = true -> eq_key v k' = true -> k = k'.
Proof.
  unfold eq_key. destruct (py_hash v) as [h|e]; [|discriminate].
  intros H H'. destruct h; try discriminate;
    apply hkey_eqb_eq in H, H'; congruence.
Qed.

Lemma cost_one_other (g : hkey * list (float * jvalue)) (t : Transaction) :
  eq_key (get_category t) (fst g) = false -> cost_one g t = t.
Proof. unfold cost_one. intros ->. reflexivity. Qed.

Lemma fold_cost_one_others (d : list (hkey * list (float * jvalue)))
      (t : Transaction) :
  Forall (fun g => eq_key (get_category t) (fst g) = false) d ->
  fold_left (fun t' g => cost_one g t') d t = t.
Proof.
  induction 1 as [|g d Hg _ IH]; [reflexivity|].
  simpl. rewrite cost_one_other by exact Hg. exact IH.
Qed.

Lemma fold_cost_one_group (d : list (hkey * list (float * jvalue)))
      (g : hkey * list (float * jvalue)) (t : Transaction) :
  NoDup (map fst d) -> In g d ->
  eq_key (get_category t) (fst g) = true ->
  fold_left (fun t' g' => cost_one g' t') d t = cost_one g t.
Proof.
  intros Hd Hin Hk. induction d as [|g0 d IH]; [destruct Hin|].
  simpl in Hd. inversion Hd as [|? ? Hnot Hd']; subst.
  assert (Hrest : forall t', get_category t' = get_category t ->
                             ~ In (fst g) (map fst d) ->
                             fold_left (fun t' g' => cost_one g' t') d t' = t').
  { intros t' Et Hn. apply fold_cost_one_others. apply Forall_forall.
    intros g' Hg'. rewrite Et.
    destruct (eq_key (get_category t) (fst g')) eqn:E; [|reflexivity].
    exfalso. apply Hn. rewrite (eq_key_unique _ _ _ Hk E).
    apply in_map. exact Hg'. }
  simpl. destruct Hin as [->|Hin].
  - apply Hrest; [|exact Hnot].
    unfold cost_one. rewrite Hk. reflexivity.
  - rewrite cost_one_other; [apply IH; assumption|].
    destruct (eq_key (get_category t) (fst g0)) eqn:E; [|reflexivity].
    exfalso. apply Hnot. rewrite (eq_key_unique _ _ _ E Hk).
    apply in_map. exact Hin.
Qed.

End Costs.

Section CostsSpec.

Context {py : Python}.

Import Classifier Spec.

Lemma map_fst_item (g : list Transaction) :
  map fst (map item g) = map amount g.
Proof. rewrite map_map. reflexivity. Qed.

(** The code computes what the specification says. *)
Lemma mean_arithmetic (amounts : list float) :
  mean amounts = arithmetic_mean amounts.
Proof. reflexivity. Qed.

Lemma monthly_of_figure (frequency : jvalue) (avg : float) :
  monthly_of frequency avg = monthly_figure frequency avg.
Proof.
  unfold monthly_of, monthly_figure, is_str.
  destruct frequency; try reflexivity.
Qed.

Lemma first_frequency (g : list Transaction) :
  match map item g with
  | i :: _ => snd i
  | [] => JNull
  end = group_frequency g.
Proof. destruct g as [|t g]; reflexivity. Qed.

Lemma cost_one_group (k : hkey) (g : list Transaction) (t : Transaction) :
  eq_key (get_category t) k = true ->
  cost_one (k, map item g) t =
  set_costs t (group_monthly_cost g) (group_total_paid g).
Proof.
  intros Hk. unfold cost_one. cbn [fst snd]. rewrite Hk.
  unfold group_monthly_cost, group_total_paid.
  rewrite first_frequency, map_fst_item, mean_arithmetic, monthly_of_figure.
  reflexivity.
Qed.

(** The cost estimation, transaction by transaction. *)
Lemma add_monthly_costs_map (l out : list Transaction) :
  Forall (fun t => category t <> None) l ->
  _add_monthly_costs l = Ok out -> out = map (costed l) l.
Proof.
  intros Hl. unfold _add_monthly_costs.
  destruct (by_category l []) as [d|e] eqn:Ed; simpl; [|discriminate].
  intros H. inversion H; subst out. clear H.
  destruct (by_category_spec l [] d Hl Ed) as (Hkeys & Hnd & Hg).
  specialize (Hnd (NoDup_nil _)).
  rewrite fold_cost_group. apply map_ext_in. intros t Ht.
  rewrite Forall_forall in Hkeys, Hl.
  destruct (Hkeys t Ht) as (k & Ek). unfold costed. rewrite Ek.
  destruct (nan_category t) eqn:En.
  { apply fold_cost_one_others. apply Forall_forall. intros g _.
    apply nan_category_alone. exact En. }
  assert (Hnan : k <> HNaN).
  { intros Hk. apply (nan_category_key t k Ek) in Hk. congruence. }
  assert (Hk : eq_key (get_category t) k = true).
  { rewrite (category_key_present t k k (Hl t Ht) Ek Hnan).
    apply hkey_eqb_eq. reflexivity. }
  specialize (Hg k Hnan). simpl in Hg.
  assert (Hin : In t (category_group l k)).
  { apply filter_In. split; assumption. }
  unfold dict_group in Hg.
  destruct (dict_get hkey_eqb k d) as [items|] eqn:Eg.
  - subst items. apply (dict_get_In _ _ hkey_eqb hkey_eqb_eq) in Eg.
    rewrite (fold_cost_one_group d _ t Hnd Eg) by exact Hk.
    apply cost_one_group. exact Hk.
  - destruct (category_group l k); [destruct Hin|discriminate].
Qed.

Lemma costed_labels (l : list Transaction) (t : Transaction) :
  core (costed l t) = core t /\ labels (costed l t) = labels t.
Proof.
  unfold costed. destruct (category_key t), (nan_category t); split;
    reflexivity.
Qed.

Lemma costed_item (l : list Transaction) (t : Transaction) :
  item (costed l t) = item t /\
  get_category (costed l t) = get_category t /\
  category_key (costed l t) = category_key t.
Proof.
  unfold costed.
  destruct (category_key t) eqn:E, (nan_category t); repeat split; auto.
Qed.

(** The groups of the result are those of the input. *)
Lemma category_group_costed (l : list Transaction) (k : hkey) :
  map item (category_group (map (costed l) l) k)
  = map item (category_group l k).
Proof.
  unfold category_group. generalize (costed l) (costed_item l).
  intros F HF. induction l as [|t l IH]; [reflexivity|].
  simpl. destruct (HF t) as (Hi & Hc & _). rewrite Hc.
  destruct (eq_key (get_category t) k); simpl; rewrite IH; congruence.
Qed.

Lemma group_costs_items (g g' : list Transaction) :
  map item g = map item g' ->
  group_monthly_cost g = group_monthly_cost g' /\
  group_total_paid g = group_total_paid g'.
Proof.
  intros H. unfold group_monthly_cost, group_total_paid.
  assert (Ha : map amount g = map amount g').
  { rewrite <- !map_fst_item. congruence. }
  assert (Hf : group_frequency g = group_frequency g').
  { destruct g, g'; try discriminate; [reflexivity|].
    simpl in H. unfold item in H. inversion H. assumption. }
  rewrite Ha, Hf. split; reflexivity.
Qed.

End CostsSpec.

(** ** [classify_transactions] *)

Section Pipeline.

Context {py : Python}.

Import Classifier Spec.

Lemma filtered_labels (l : list Transaction) (t : Transaction) :
  core (filtered l t) = core t /\ category (filtered l t) = category t.
Proof.
  unfold filtered. destruct (_ && _); split; reflexivity.
Qed.

(** A transaction that is still flagged after the filter was not demoted. *)
Lemma filtered_flagged (l : list Transaction) (t : Transaction) :
  flagged (filtered l t) = true ->
  filtered l t = t /\ flagged t = true
  /\ length (merchant_group l (merchant_key t)) <> 1.
Proof.
  unfold filtered. destruct (flagged t) eqn:Ef; simpl.
  - destruct (Nat.eqb_spec (length (merchant_group l (merchant_key t))) 1).
    + unfold flagged. simpl. discriminate.
    + auto.
  - rewrite Ef. discriminate.
Qed.

Lemma Forall2_right {A B} (P : B -> Prop) (R : A -> B -> Prop)
      (l : list A) (l' : list B) :
  (forall x y, R x y -> P y) -> Forall2 R l l' -> Forall P l'.
Proof. intros H. induction 1; constructor; eauto. Qed.

(** The stages of [classify_transactions], when it returns. *)
Lemma classify_transactions_stages (strategy : Strategy)
      (transactions out : list Transaction) :
  classify_transactions strategy transactions = Ok out ->
  exists classified_list,
    classify strategy transactions = Ok classified_list /\
    let memberships :=
      filter flagged (map (filtered classified_list) classified_list) in
    out = map (costed memberships) memberships
    /\ Forall (fun t => category t <> None) memberships
    /\ Forall (fun t => exists k, category_key t = Ok k) memberships.
Proof.
  unfold classify_transactions.
  destruct (classify strategy transactions) as [C|e] eqn:EC; simpl;
    [|discriminate].
  intros H. exists C. split; [reflexivity|].
  rewrite filter_one_time_payments_map in H.
  assert (Hcat : Forall (fun t => category t <> None)
                        (filter flagged (map (filtered C) C))).
  { apply Forall_forall. intros r Hr. apply filter_In in Hr.
    destruct Hr as [Hr _]. apply in_map_iff in Hr.
    destruct Hr as (t & <- & Ht).
    destruct (filtered_labels C t) as [_ ->].
    apply classify_classified in EC.
    apply (Forall2_right (fun t' => category t' <> None)) in EC.
    - rewrite Forall_forall in EC. auto.
    - intros x y [_ Hy]. exact Hy. }
  split; [apply add_monthly_costs_map; assumption|].
  split; [exact Hcat|].
  unfold _add_monthly_costs in H.
  destruct (by_category _ []) as [d|e] eqn:Ed; [|discriminate].
  exact (proj1 (by_category_spec _ _ _ Hcat Ed)).
Qed.

Lemma subseq_filter {A} (p : A -> bool) (l : list A) :
  subseq (filter p l) l.
Proof.
  induction l as [|x l IH]; simpl; [constructor|].
  destruct (p x); constructor; exact IH.
Qed.

Lemma subseq_map {A B} (f : A -> B) (a b : list A) :
  subseq a b -> subseq (map f a) (map f b).
Proof. induction 1; simpl; constructor; assumption. Qed.

(** C9. [classify_transactions] never revises what the parsers have set:
    the records it returns are, in their order, records of the input with
    the same date, description, amount and merchant. Only the six classifier
    keys ([is_membership], [membership_type], [frequency], [category],
    [monthly_cost], [total_paid]) are ever assigned. *)
Theorem classify_transactions_frame (strategy : Strategy)
        (transactions out : list Transaction) :
  classify_transactions strategy transactions = Ok out ->
  subseq (map core out) (map core transactions).
Proof.
  intros H.
  destruct (classify_transactions_stages _ _ _ H) as (C & EC & -> & _ & _).
  apply classify_classified in EC.
  assert (E1 : map core transactions = map core (map (filtered C) C)).
  { rewrite map_map. symmetry. apply Forall2_map_eq.
    eapply Forall2_impl; [|exact EC].
    intros t t' [Ht _]. destruct (filtered_labels C t') as [-> _]. exact Ht. }
  rewrite E1, map_map.
  erewrite map_ext by (intros t; apply (proj1 (costed_labels _ t))).
  apply subseq_map. apply subseq_filter.
Qed.

End Pipeline.

Lemma classify_transactions_frame_witness :
  exists out,
    Classifier.classify_transactions Classifier.RuleBased Examples.statement
    = Ok out
    /\ subseq (map Spec.core out) (map Spec.core Examples.statement).
Proof.
  eexists. split.
  - vm_compute. reflexivity.
  - apply (classify_transactions_frame Classifier.RuleBased).
    vm_compute. reflexivity.
Defined.

Section PipelineProperties.

Context {py : Python}.

Import Classifier Spec.

Lemma demote_clears (t : Transaction) :
  is_membership (demote t) = Some (JBool false)
  /\ membership_type (demote t) = Some JNull
  /\ frequency (demote t) = Some JNull.
Proof. repeat split. Qed.

Lemma merchant_key_core (t t' : Transaction) :
  core t' = core t -> merchant_key t' = merchant_key t.
Proof.
  unfold core, merchant_key. intros H. inversion H. congruence.
Qed.

(** Every record of the result is a classified record that the filter has
    kept. *)
Lemma returned_record (strategy : Strategy)
      (transactions out classified_list : list Transaction)
      (r : Transaction) :
  classify_transactions strategy transactions = Ok out ->
  classify strategy transactions = Ok classified_list ->
  In r out ->
  exists t, In t classified_list /\ core r = core t /\ labels r = labels t
            /\ flagged t = true
            /\ length (merchant_group classified_list (merchant_key t)) <> 1.
Proof.
  intros H EC Hr.
  destruct (classify_transactions_stages _ _ _ H) as (C & EC' & -> & _ & _).
  rewrite EC in EC'. inversion EC'; subst C. clear EC'.
  apply in_map_iff in Hr. destruct Hr as (r0 & <- & Hr0).
  apply filter_In in Hr0. destruct Hr0 as [Hr0 Hf].
  apply in_map_iff in Hr0. destruct Hr0 as (t & <- & Ht).
  destruct (filtered_flagged classified_list t Hf) as (E & Hft & Hlen).
  exists t. rewrite E in *.
  destruct (costed_labels
              (filter flagged (map (filtered classified_list) classified_list))
              t) as [Hc Hl].
  auto.
Qed.

(** C1, amended. After classification by either strategy, the
    one-time-payment filter groups the membership-flagged transactions by
    their normalized merchant key (the upper-cased merchant without date
    tokens, leading abbreviation and digits, or "Unknown" when nothing is
    left) and demotes every transaction that is alone in its group:
    [is_membership] becomes false, [membership_type] and [frequency] are
    cleared. So a key with exactly one membership-flagged transaction is the
    key of no record that [classify_transactions] returns. *)
Theorem one_time_payments_are_dropped (strategy : Strategy)
        (transactions classified_list out : list Transaction) :
  classify strategy transactions = Ok classified_list ->
  classify_transactions strategy transactions = Ok out ->
  _filter_one_time_payments classified_list
  = map (filtered classified_list) classified_list
  /\ (forall t,
        flagged t = true ->
        length (merchant_group classified_list (merchant_key t)) = 1 ->
        is_membership (filtered classified_list t) = Some (JBool false)
        /\ membership_type (filtered classified_list t) = Some JNull
        /\ frequency (filtered classified_list t) = Some JNull)
  /\ (forall k,
        length (merchant_group classified_list k) = 1 ->
        forall r, In r out -> merchant_key r <> k).
Proof.
  intros EC H. split; [apply filter_one_time_payments_map|]. split.
  - intros t Hf Hlen. unfold filtered. rewrite Hf, Hlen. simpl.
    apply (demote_clears t).
  - intros k Hlen r Hr Hk.
    destruct (returned_record _ _ _ _ _ H EC Hr)
      as (t & _ & Hc & _ & _ & Hn).
    apply Hn. rewrite <- (merchant_key_core _ _ Hc), Hk. exact Hlen.
Qed.

(** C3, amended. Under the rule-based strategy, every record that
    [classify_transactions] returns is flagged as a membership and holds a
    string in [membership_type], in [frequency] and in [category]. *)
Theorem rule_based_labels_are_set (transactions out : list Transaction) :
  classify_transactions RuleBased transactions = Ok out ->
  Forall (fun r => flagged r = true
                   /\ holds_str (membership_type r)
                   /\ holds_str (frequency r)
                   /\ holds_str (category r)) out.
Proof.
  intros H. apply Forall_forall. intros r Hr.
  destruct (classify_transactions_stages _ _ _ H) as (C & EC & _).
  destruct (returned_record _ _ _ _ _ H EC Hr)
    as (t & Ht & _ & Hl & Hf & _).
  simpl in EC. apply rule_based_classify_spec in EC.
  apply (Forall2_right rule_labelled) in EC;
    [|intros x y Hxy; exact (proj2 Hxy)].
  rewrite Forall_forall in EC. destruct (EC t Ht) as (_ & Hcat & Hrest).
  destruct (Hrest Hf) as [Hmt Hfr].
  unfold labels in Hl. inversion Hl as [[Him Hmt' Hfr' Hcat']].
  unfold flagged in *. rewrite Him, Hmt', Hfr', Hcat'. auto.
Qed.

End PipelineProperties.

Lemma one_time_payments_are_dropped_witness :
  exists classified_list out,
    Classifier.classify Classifier.RuleBased Examples.statement
    = Ok classified_list
    /\ Classifier.classify_transactions Classifier.RuleBased Examples.statement
       = Ok out
    /\ (forall k,
          length (Spec.merchant_group classified_list k) = 1 ->
          forall r, In r out -> Classifier.merchant_key r <> k)
    /\ map Classifier.merchant_key classified_list
       = map lit ["NETFLIX"; "NETFLIX"; "NETFLIX"; "RANDOM SHOP"]%string
    /\ map Classifier.flagged classified_list = [true; true; true; true]
    /\ map Classifier.merchant_key out
       = map lit ["NETFLIX"; "NETFLIX"; "NETFLIX"]%string
    /\ map (fun m => Classifier.merchant_key (Examples.parsed 0 "" 1 m))
           ["8 JUIL. SPOTIFY 42"; "CB. Basic Fit 2024"; "12 NETFLIX"]%string
       = map lit ["SPOTIFY"; "BASIC FIT"; "Unknown"]%string.
Proof.
  eexists. eexists. split; [vm_compute; reflexivity|].
  split; [vm_compute; reflexivity|].
  split; [|vm_compute; repeat split].
  apply (one_time_payments_are_dropped Classifier.RuleBased Examples.statement);
    vm_compute; reflexivity.
Defined.

Lemma rule_based_labels_are_set_witness :
  exists out,
    Classifier.classify_transactions Classifier.RuleBased Examples.statement
    = Ok out
    /\ Forall (fun r => Classifier.flagged r = true
                        /\ Spec.holds_str (Classifier.membership_type r)
                        /\ Spec.holds_str (Classifier.frequency r)
                        /\ Spec.holds_str (Classifier.category r)) out.
Proof.
  eexists. split; [vm_compute; reflexivity|].
  apply (rule_based_labels_are_set Examples.statement).
  vm_compute. reflexivity.
Defined.

(** C3 as stated fails under the model-assisted strategy: the labels are
    those of the reply, and a reply may flag a record and leave its type,
    frequency and category null. *)
Lemma model_assisted_labels_may_be_null :
  match Classifier.classify_transactions
          (Classifier.ModelAssisted (fun _ => Classifier.Text Examples.null_labels))
          [Examples.parsed 0 "Acme" 10 "ACME";
           Examples.parsed 30 "Acme" 10 "ACME"] with
  | Ok (r :: _) =>
      Classifier.flagged r = true
      /\ Classifier.membership_type r = Some JNull
      /\ Classifier.frequency r = Some JNull
      /\ Classifier.category r = Some JNull
  | _ => False
  end.
Proof. vm_compute. repeat split. Qed.

(** ** The fallback of the model-assisted strategy *)

Section Fallback.

Context {py : Python}.

Import Classifier Spec.

Lemma clean_nil : clean [] = [].
Proof. reflexivity. Qed.

(** [_classify_single] raises only where [description.split()] is empty. *)
Lemma classify_single_returns (t : Transaction) :
  has_category t -> exists c, _classify_single t = Ok c.
Proof.
  unfold has_category, _classify_single, classify_single_with. cbv zeta.
  set (im := any_in membership_keywords _).
  set (mc := match upper (merchant t) with
             | [] => []
             | _ :: _ => clean (upper (merchant t))
             end).
  assert (Em : mc = clean (upper (merchant t)))
    by (subst mc; destruct (upper (merchant t)); reflexivity).
  clearbody mc im. subst mc. intros H.
  destruct (clean (upper (merchant t))) as [|c m] eqn:Ec;
    destruct (upper (description t)) as [|c' d] eqn:Ed; cbv beta iota.
  - unfold bind. destruct im; eexists; reflexivity.
  - destruct H as [H|[H|H]]; try congruence.
    destruct (split (c' :: d)); [congruence|].
    unfold bind. destruct im; eexists; reflexivity.
  - unfold bind. destruct im; eexists; reflexivity.
  - unfold bind. destruct im; eexists; reflexivity.
Qed.

Lemma rule_based_classify_returns (l : list Transaction) :
  Forall has_category l -> exists l', _rule_based_classify l = Ok l'.
Proof.
  intros H. apply mapM_total. eapply Forall_impl; [|exact H].
  intros t Ht. destruct (classify_single_returns t Ht) as (c & Hc).
  exists (update t c). unfold rule_based_one. rewrite Hc. reflexivity.
Qed.


(** Whatever the reply, a merge that raises falls back on the rules. *)
Lemma classify_batch_merge_raises (transactions : list Transaction)
      (content : pystr) (v : jvalue) (e : exn) :
  decode content = Some v ->
  mapM (merge_one v) (enumerate transactions) = Raise e ->
  _classify_batch transactions (Text content)
  = _rule_based_classify transactions.
Proof.
  intros Hd Hm. unfold _classify_batch. rewrite Hd, Hm. reflexivity.
Qed.

End Fallback.



(** ** Monthly costs of the returned records *)

Section CostProperties.

Context {py : Python}.

Import Classifier Spec.

(** C2, amended. The records that [classify_transactions] returns are
    grouped by category. Every record of a group whose category is not NaN
    carries, as [monthly_cost], the arithmetic mean of the amounts of the
    group converted by the frequency of the group (the one that the first
    record of the group stores, Monthly when it stores none: divided by 12
    for Yearly, multiplied by 4.33 for Weekly, divided by 3 for Quarterly, by
    6 for Bi-annual, unchanged for Monthly and for any other value) and
    rounded to 2 decimals, and as [total_paid] the sum of the amounts of the
    group. A Yearly mean of 120.00 converts to 10.00 and a Weekly mean of
    10.00 to 43.30. *)
Theorem monthly_costs_per_category (strategy : Strategy)
        (transactions out : list Transaction) :
  classify_transactions strategy transactions = Ok out ->
  (forall r, In r out -> nan_category r = false ->
     exists k,
       category_key r = Ok k
       /\ In r (category_group out k)
       /\ monthly_cost r
          = Some (py_round2
                    (monthly_figure (group_frequency (category_group out k))
                       (arithmetic_mean
                          (map amount (category_group out k)))))
       /\ total_paid r = Some (py_sum (map amount (category_group out k))))
  /\ monthly_figure (JStr (lit "Yearly")) 120 = 10%float
  /\ monthly_figure (JStr (lit "Weekly")) 10 = 43.3%float.
Proof.
  intros H. split; [|split; reflexivity].
  intros r Hr Hnan.
  destruct (classify_transactions_stages _ _ _ H)
    as (C & _ & E & Hcats & Hkeys).
  set (M := filter flagged (map (filtered C) C)) in *.
  cbv zeta in E. subst out.
  apply in_map_iff in Hr. destruct Hr as (t & <- & Ht).
  rewrite Forall_forall in Hkeys, Hcats.
  destruct (Hkeys t Ht) as (k & Ek). exists k.
  destruct (costed_item M t) as (_ & Hc & Hck).
  assert (Hn : nan_category t = false).
  { rewrite <- Hnan. unfold nan_category.
    destruct (costed_labels M t) as [_ Hl]. unfold labels in Hl.
    injection Hl as _ _ _ ->. reflexivity. }
  assert (Hk : eq_key (get_category t) k = true).
  { rewrite (category_key_present t k k (Hcats t Ht) Ek).
    - apply hkey_eqb_eq. reflexivity.
    - intros Hk. apply (nan_category_key t k Ek) in Hk. congruence. }
  destruct (group_costs_items _ _ (category_group_costed M k)) as [Emc Etp].
  fold (group_monthly_cost (category_group (map (costed M) M) k)).
  fold (group_total_paid (category_group (map (costed M) M) k)).
  rewrite Emc, Etp.
  split; [congruence|]. split.
  - apply filter_In. split; [apply in_map; exact Ht|congruence].
  - unfold costed. rewrite Ek, Hn. split; reflexivity.
Qed.

End CostProperties.

Lemma monthly_costs_per_category_witness :
  exists out,
    Classifier.classify_transactions Classifier.RuleBased Cases.subscriptions
    = Ok out
    /\ (forall r, In r out -> Spec.nan_category r = false ->
          exists k,
            Classifier.category_key r = Ok k
            /\ In r (Spec.category_group out k)
            /\ Classifier.monthly_cost r
               = Some (py_round2
                         (Spec.monthly_figure
                            (Spec.group_frequency (Spec.category_group out k))
                            (Spec.arithmetic_mean
                               (map Classifier.amount
                                    (Spec.category_group out k)))))
            /\ Classifier.total_paid r
               = Some (py_sum (map Classifier.amount
                                   (Spec.category_group out k))))
    /\ map Classifier.frequency out
       = map (fun name => Some (JStr (lit name)))
             ["Monthly"; "Monthly"; "Monthly"; "Yearly"; "Yearly"]%string
    /\ map Classifier.monthly_cost out
       = [Some 15; Some 15; Some 15; Some 10; Some 10]%float
    /\ map Classifier.total_paid out
       = [Some 45; Some 45; Some 45; Some 240; Some 240]%float
    /\ py_round2 (Spec.monthly_figure (JStr (lit "Yearly")) 120) = 10%float
    /\ py_round2 (Spec.monthly_figure (JStr (lit "Weekly")) 10) = 43.3%float.
Proof.
  eexists. split; [vm_compute; reflexivity|].
  split; [|vm_compute; repeat split].
  apply (monthly_costs_per_category Classifier.RuleBased Cases.subscriptions).
  vm_compute. reflexivity.
Defined.

(** C2 as stated fails on a category that is NaN, which a reply of the
    service can hold: the two payments are grouped under it, but NaN equals
    no group, itself included, and they are returned without costs. *)
Lemma nan_category_gets_no_cost :
  match Classifier.classify_transactions
          (Classifier.ModelAssisted (fun _ => Classifier.Text Cases.nan_labels))
          Cases.two_netflix with
  | Ok [a; b] =>
      map Spec.nan_category [a; b] = [true; true]
      /\ map Classifier.flagged [a; b] = [true; true]
      /\ map Classifier.monthly_cost [a; b] = [None; None]
      /\ map Classifier.total_paid [a; b] = [None; None]
  | _ => False
  end.
Proof. vm_compute. repeat split; reflexivity. Qed.

(** The two conversions of the specification, rounded, and the costs of
    three monthly payments of 15.00. *)
Lemma monthly_cost_examples :
  py_round2 (Classifier.monthly_of (JStr (lit "Yearly")) 120) = 10%float
  /\ py_round2 (Classifier.monthly_of (JStr (lit "Weekly")) 10) = 43.3%float
  /\ match Classifier.classify_transactions Classifier.RuleBased
              Examples.statement with
     | Ok [a; b; c] =>
         map Classifier.monthly_cost [a; b; c]
         = [Some 15; Some 15; Some 15]%float
         /\ map Classifier.total_paid [a; b; c]
            = [Some 45; Some 45; Some 45]%float
     | _ => False
     end.
Proof. vm_compute. repeat split. Qed.

(** ** The frequency analyzer *)

Section FloatOrder.


Import Classifier Spec.


End FloatOrder.

Section FrequencyGroups.

Context {py : Python}.

Import Classifier Spec.

Lemma dict_get_absent {V} (k : hkey) (d : list (hkey * V)) :
  ~ In k (map fst d) -> dict_get hkey_eqb k d = None.
Proof.
  induction d as [|[k' v] d IH]; simpl; intros H; [reflexivity|].
  destruct (hkey_eqb k' k) eqn:E.
  - apply hkey_eqb_eq in E. tauto.
  - apply IH. tauto.
Qed.

Lemma payments_by_category_spec (l : list Transaction)
      (d0 d : list (hkey * list (Z * float))) :
  payments_by_category l d0 = Ok d ->
  (NoDup (map fst d0) -> NoDup (map fst d)) /\
  forall k, dict_group hkey_eqb k d =
            dict_group hkey_eqb k d0 ++ map payment (observations l k).
Proof.
  revert d0. induction l as [|t l IH]; intros d0 H.
  - inversion H; subst. split; [auto|].
    intros k. simpl. rewrite app_nil_r. reflexivity.
  - simpl in H. unfold observations. simpl. unfold has_key.
    destruct (flagged t); simpl.
    + destruct (category_key t) as [kt|e]; [|discriminate].
      simpl in H. unfold get_date in H.
      destruct (date t) as [day|] eqn:Ed; [|discriminate].
      simpl in H. apply IH in H. destruct H as [Hnd Hg]. split.
      * intros H0. apply Hnd.
        apply (dict_append_NoDup _ _ hkey_eqb hkey_eqb_eq). exact H0.
      * intros k. rewrite Hg.
        rewrite (dict_group_append _ _ hkey_eqb hkey_eqb_eq).
        destruct (hkey_eqb kt k); [|reflexivity].
        rewrite <- app_assoc. simpl. unfold payment at 2. rewrite Ed.
        reflexivity.
    + apply IH in H. exact H.
Qed.

Lemma length_insert_by_date (p : Z * float) (l : list (Z * float)) :
  length (insert_by_date p l) = S (length l).
Proof.
  induction l as [|q l IH]; [reflexivity|].
  simpl. destruct (fst p <=? fst q)%Z; simpl; [|rewrite IH]; reflexivity.
Qed.

Lemma length_sort_by_date (l : list (Z * float)) :
  length (sort_by_date l) = length l.
Proof.
  induction l as [|p l IH]; [reflexivity|].
  simpl. rewrite length_insert_by_date, IH. reflexivity.
Qed.

Lemma length_intervals (l : list Z) : length (intervals l) = length l - 1.
Proof.
  induction l as [|a l IH]; [reflexivity|].
  destruct l as [|b l']; [reflexivity|].
  change (intervals (a :: b :: l'))
    with (days (b - a) :: intervals (b :: l')).
  simpl length in *. rewrite IH. lia.
Qed.

(** A group of fewer than two payments adds no entry. *)
Lemma analyze_group_few (k : hkey) (ps : list (Z * float)) :
  length ps < 2 -> analyze_group (k, ps) = Ok [].
Proof.
  intros H. unfold analyze_group. simpl.
  destruct (Nat.ltb_spec (length ps) 2); [reflexivity|lia].
Qed.

(** A larger group adds the entry of its key, with the cadence of its
    average interval. *)
Lemma analyze_group_entry (k : hkey) (ps : list (Z * float))
      (e : list (hkey * Stats)) :
  2 <= length ps ->
  analyze_group (k, ps) = Ok e ->
  exists st,
    e = [(k, st)]
    /\ cadence (average_interval ps) = Ok (s_frequency st)
    /\ avg_interval_days st = average_interval ps
    /\ count st = length ps.
Proof.
  intros Hlen. unfold analyze_group. simpl.
  destruct (Nat.ltb_spec (length ps) 2) as [Hlt|_]; [lia|].
  destruct (intervals (map fst (sort_by_date ps))) as [|i ivs] eqn:Ei.
  - apply (f_equal (@length Z)) in Ei.
    rewrite length_intervals, length_map, length_sort_by_date in Ei.
    simpl in Ei. lia.
  - destruct (cadence (average_interval ps)) as [f|x]; simpl; [|discriminate].
    intros He. inversion He. eexists. repeat split.
Qed.

Lemma analyze_group_shape (g : hkey * list (Z * float))
      (e : list (hkey * Stats)) :
  analyze_group g = Ok e -> e = [] \/ exists st, e = [(fst g, st)].
Proof.
  destruct g as [k ps]. intros H.
  destruct (Nat.lt_ge_cases (length ps) 2) as [Hlt|Hge].
  - rewrite analyze_group_few in H by exact Hlt. inversion H. auto.
  - destruct (analyze_group_entry k ps e Hge H) as (st & -> & _). eauto.
Qed.

(** The entry of a key in the result is the entry of its group. *)
Lemma analyze_entries_get (d : list (hkey * list (Z * float)))
      (es : list (list (hkey * Stats))) (k : hkey) :
  NoDup (map fst d) ->
  Forall2 (fun g e => analyze_group g = Ok e) d es ->
  dict_get hkey_eqb k (concat es) =
  match dict_get hkey_eqb k d with
  | Some ps =>
      match analyze_group (k, ps) with
      | Ok [(_, st)] => Some st
      | _ => None
      end
  | None => None
  end.
Proof.
  intros Hd H. induction H as [|[kg ps] e d es Hg _ IH]; [reflexivity|].
  simpl in Hd. inversion Hd as [|? ? Hnot Hd']; subst.
  specialize (IH Hd'). simpl.
  destruct (hkey_eqb kg k) eqn:Ek.
  - apply hkey_eqb_eq in Ek. subst kg. rewrite Hg.
    destruct (analyze_group_shape _ _ Hg) as [->|(st & ->)]; simpl.
    + rewrite IH, (dict_get_absent k d Hnot). reflexivity.
    + rewrite (proj2 (hkey_eqb_eq k k) eq_refl). reflexivity.
  - destruct (analyze_group_shape _ _ Hg) as [->|(st & ->)]; simpl.
    + exact IH.
    + rewrite Ek. exact IH.
Qed.

End FrequencyGroups.

Section Sorting.

Import Classifier Spec.

Lemma insert_by_date_perm (p : Z * float) (l : list (Z * float)) :
  Permutation (insert_by_date p l) (p :: l).
Proof.
  induction l as [|q l IH]; [reflexivity|].
  simpl. destruct (fst p <=? fst q)%Z; [reflexivity|].
  rewrite IH. apply perm_swap.
Qed.

(** [sort_by_date] keeps the payments *)
Lemma sort_by_date_perm (l : list (Z * float)) :
  Permutation (sort_by_date l) l.
Proof.
  induction l as [|p l IH]; [reflexivity|].
  simpl. rewrite insert_by_date_perm, IH. reflexivity.
Qed.

Lemma insert_by_date_sorted (p : Z * float) (l : list (Z * float)) :
  Sorted by_date l -> Sorted by_date (insert_by_date p l).
Proof.
  induction 1 as [|q l Hl IH Hq]; simpl.
  - repeat constructor.
  - destruct (Z.leb_spec (fst p) (fst q)).
    + repeat constructor; assumption.
    + constructor; [exact IH|].
      destruct l as [|q' l']; simpl.
      * constructor. unfold by_date. lia.
      * destruct (fst p <=? fst q')%Z.
        -- constructor. unfold by_date. lia.
        -- inversion Hq. constructor. assumption.
Qed.

(** and puts them in the order of their dates. *)
Lemma sort_by_date_sorted (l : list (Z * float)) :
  Sorted by_date (sort_by_date l).
Proof.
  induction l as [|p l IH]; simpl; [constructor|].
  apply insert_by_date_sorted. exact IH.
Qed.

End Sorting.

Section FrequencyProperties.

Context {py : Python}.

Import Classifier Spec.



End FrequencyProperties.



(** C1 as stated fails for the [category] field, which is not the key of the
    filter: when the cleaned merchant is empty the key is "Unknown" and the
    category is the first word of the description. Two such payments share
    the key, so both are kept, and each is returned alone in its category. *)
Lemma category_alone_is_returned :
  match Classifier.classify Classifier.RuleBased Examples.dated_merchants,
        Classifier.classify_transactions Classifier.RuleBased
          Examples.dated_merchants with
  | Ok classified_list, Ok [a; b] =>
      Classifier.category a = Some (JStr (lit "12"))
      /\ Classifier.category b = Some (JStr (lit "13"))
      /\ length (filter (fun t => Classifier.flagged t
                                  && eq_key (Classifier.get_category t)
                                            (HStr (lit "12")))
                        classified_list) = 1
      /\ Classifier.merchant_key a = lit "Unknown"
      /\ Classifier.merchant_key b = lit "Unknown"
  | _, _ => False
  end.
Proof. vm_compute. repeat split. Qed.

(** ** The rule-based strategy returns *)

Section RuleBasedReturns.

Context {py : Python}.

Import Classifier Spec.

Lemma by_category_returns (l : list Transaction)
      (d0 : list (hkey * list (float * jvalue))) :
  Forall (fun t => exists k, category_key t = Ok k) l ->
  exists d, by_category l d0 = Ok d.
Proof.
  intros H. revert d0. induction H as [|t l (k & Hk) _ IH]; intros d0.
  - exists d0. reflexivity.
  - simpl. rewrite Hk. simpl. apply IH.
Qed.

(** Under the rule-based strategy [classify_transactions] raises nothing
    when the rules find a category for each transaction. *)
Lemma rule_based_returns (transactions : list Transaction) :
  Forall has_category transactions ->
  exists out, classify_transactions RuleBased transactions = Ok out.
Proof.
  intros H. destruct (rule_based_classify_returns _ H) as (C & EC).
  unfold classify_transactions. simpl. rewrite EC. simpl.
  rewrite filter_one_time_payments_map. unfold _add_monthly_costs.
  destruct (by_category_returns
              (filter flagged (map (filtered C) C)) []) as (d & Ed).
  - apply Forall_forall. intros r Hr. apply filter_In in Hr.
    destruct Hr as [Hr _]. apply in_map_iff in Hr.
    destruct Hr as (t & <- & Ht).
    apply rule_based_classify_spec in EC.
    apply (Forall2_right rule_labelled) in EC;
      [|intros x y Hxy; exact (proj2 Hxy)].
    rewrite Forall_forall in EC. destruct (EC t Ht) as (_ & (c & Hc) & _).
    unfold category_key. destruct (filtered_labels C t) as [_ ->].
    rewrite Hc. eexists. reflexivity.
  - rewrite Ed. simpl. eexists. reflexivity.
Qed.

End RuleBasedReturns.

(** The rules find no category for a description of white space alone with
    an empty merchant: [description.split()[0]] raises, in the fallback of the
    model-assisted strategy as well. *)
Lemma blank_description_raises :
  Classifier._rule_based_classify [Examples.blank] = Raise IndexError
  /\ Classifier._classify_batch [Examples.blank]
       (Classifier.Text Examples.apology) = Raise IndexError.
Proof. vm_compute. split; reflexivity. Qed.

(** * Further properties *)

(** ** The rules *)

Section RuleProperties.

Context {py : Python}.

Import Classifier Spec More.

Lemma upper_upper (s : pystr) : upper (upper s) = upper s.
Proof.
  apply upper_fixed_text. apply Forall_forall. intros u Hu.
  apply In_upper in Hu. destruct Hu as (c & _ & Hc).
  exact (upper_fixed c u Hc).
Qed.

Ltac member := simpl; repeat first [left; reflexivity | right].

(** X1. The labels of the rules are closed sets: a transaction that
    [_classify_single] flags gets one of the five membership types and one of
    the three frequencies, and one that it does not flag gets neither. *)
Theorem classify_single_closed_labels (t : Transaction) (c : Classification) :
  _classify_single t = Ok c ->
  if c_is_membership c
  then (exists mt, c_membership_type c = Some mt /\ In mt rule_types)
       /\ (exists fr, c_frequency c = Some fr /\ In fr rule_frequencies)
  else c_membership_type c = None /\ c_frequency c = None.
Proof.
  unfold _classify_single, classify_single_with. cbv zeta.
  set (text := upper (description t) ++ [SPACE] ++ upper (merchant t)).
  set (sport := any_in sport_keywords text).
  set (streaming := any_in streaming_keywords text).
  set (software := any_in software_keywords text).
  set (news := any_in news_keywords text).
  set (monthly := isin (lit "MONTHLY") text || isin (lit "MONTH") text).
  set (yearly := isin (lit "YEARLY") text || isin (lit "ANNUAL") text
                 || isin (lit "YEAR") text).
  set (weekly := isin (lit "WEEKLY") text || isin (lit "WEEK") text).
  clearbody sport streaming software news monthly yearly weekly.
  match goal with
  | |- bind ?r _ = _ -> _ => destruct r as [cat|e]; [|discriminate]
  end.
  unfold bind.
  destruct (any_in membership_keywords text);
    intros H; inversion H; subst c; clear H; cbn [c_is_membership
      c_membership_type c_frequency]; [|split; reflexivity].
  split; eexists; (split; [reflexivity|]).
  - destruct sport; [member|]. destruct streaming; [member|].
    destruct software; [member|]. destruct news; member.
  - destruct monthly; [member|]. destruct yearly; [member|].
    destruct weekly; member.
Qed.

(** X2. The rules do not see the case of the letters: upper-casing the
    description and the merchant of a transaction changes nothing in what
    [_classify_single] returns. *)
Theorem classify_single_ignores_case (t : Transaction) :
  _classify_single (upper_cased t) = _classify_single t.
Proof.
  unfold _classify_single, classify_single_with, upper_cased. simpl.
  rewrite !upper_upper. reflexivity.
Qed.

Lemma Forall2_mapM {A B} (f : A -> result B) (l : list A) (l' : list B) :
  Forall2 (fun x y => f x = Ok y) l l' -> mapM f l = Ok l'.
Proof.
  induction 1 as [|x y l l' Hxy _ IH]; [reflexivity|].
  simpl. rewrite Hxy. simpl. rewrite IH. reflexivity.
Qed.

Lemma rule_based_one_again (t t' : Transaction) :
  rule_based_one t = Ok t' -> rule_based_one t' = Ok t'.
Proof.
  intros H. apply rule_based_one_update in H. destruct H as (c & Hc & ->).
  unfold rule_based_one.
  change (_classify_single (update t c)) with (_classify_single t).
  rewrite Hc. reflexivity.
Qed.

(** X3. Rule-based classification is idempotent: classifying again the
    records that [_rule_based_classify] has returned returns them
    unchanged. *)
Theorem rule_based_classify_idempotent (l l' : list Transaction) :
  _rule_based_classify l = Ok l' -> _rule_based_classify l' = Ok l'.
Proof.
  intros H. apply mapM_Forall2 in H. apply Forall2_mapM.
  induction H as [|t t' l l' Ht _ IH]; constructor; [|exact IH].
  exact (rule_based_one_again t t' Ht).
Qed.

End RuleProperties.

(** ** The merge of a reply *)

Section MapMFacts.

Variables A B : Type.
Variable f : A -> result B.

Lemma mapM_app (a b : list A) :
  mapM f (a ++ b) = (xs <- mapM f a ;; ys <- mapM f b ;; Ok (xs ++ ys)).
Proof.
  induction a as [|x a IH]; simpl.
  - destruct (mapM f b); reflexivity.
  - destruct (f x) as [y|e]; simpl; [|reflexivity].
    rewrite IH. destruct (mapM f a) as [xs|e]; simpl; [|reflexivity].
    destruct (mapM f b); reflexivity.
Qed.

Lemma mapM_concat (ls : list (list A)) :
  mapM f (concat ls) = (bs <- mapM (mapM f) ls ;; Ok (concat bs)).
Proof.
  induction ls as [|l ls IH]; simpl; [reflexivity|].
  rewrite mapM_app, IH.
  destruct (mapM f l) as [xs|e]; simpl; [|reflexivity].
  destruct (mapM (mapM f) ls); reflexivity.
Qed.

Lemma mapM_In_raise (l : list A) (x : A) (e : exn) :
  In x l -> f x = Raise e -> exists e', mapM f l = Raise e'.
Proof.
  induction l as [|y l IH]; simpl; [tauto|].
  intros [->|Hin] Hx.
  - rewrite Hx. eexists. reflexivity.
  - destruct (f y); simpl; [|eexists; reflexivity].
    destruct (IH Hin Hx) as (e' & ->). eexists. reflexivity.
Qed.

Lemma mapM_ext (g : A -> result B) (l : list A) :
  (forall x, In x l -> f x = g x) -> mapM f l = mapM g l.
Proof.
  induction l as [|x l IH]; simpl; intros H; [reflexivity|].
  rewrite (H x (or_introl eq_refl)), IH; [reflexivity|].
  intros y Hy. apply H. right. exact Hy.
Qed.

End MapMFacts.

Lemma Forall2_nth_error {A B} (R : A -> B -> Prop) (l : list A)
      (l' : list B) (i : nat) (a : A) :
  Forall2 R l l' -> nth_error l i = Some a ->
  exists b, nth_error l' i = Some b /\ R a b.
Proof.
  intros H. revert i. induction H as [|x y l l' Hxy _ IH]; intros i.
  - destruct i; discriminate.
  - destruct i as [|i]; simpl.
    + intros [= ->]. exists y. split; [reflexivity|exact Hxy].
    + apply IH.
Qed.

Lemma nth_error_combine_seq {A} (l : list A) (a i : nat) (x : A) :
  nth_error l i = Some x ->
  nth_error (combine (seq a (length l)) l) i = Some (a + i, x).
Proof.
  revert a i. induction l as [|y l IH]; intros a i.
  - destruct i; discriminate.
  - destruct i as [|i]; simpl.
    + intros [= ->]. rewrite Nat.add_0_r. reflexivity.
    + intros H. rewrite (IH (S a) i H). f_equal. f_equal. lia.
Qed.

Section MergeProperties.

Context {py : Python}.

Import Classifier Spec More.

(** X4. A reply list that is shorter than its batch is completed by the
    rules: whatever [_classify_batch] returns, each transaction at an index
    that the list does not reach carries the labels of the rules. *)
Theorem short_reply_is_completed_by_rules (transactions out : list Transaction)
        (content : pystr) (l : list jvalue) :
  decode content = Some (JArr l) ->
  _classify_batch transactions (Text content) = Ok out ->
  forall i t, nth_error transactions i = Some t -> length l <= i ->
  exists t', nth_error out i = Some t' /\ rule_based_one t = Ok t'.
Proof.
  intros Hd H i t Ht Hi. unfold _classify_batch in H. rewrite Hd in H.
  destruct (mapM (merge_one (JArr l)) (enumerate transactions))
    as [merged|e] eqn:Hm.
  - inversion H; subst merged; clear H.
    apply mapM_Forall2 in Hm.
    destruct (Forall2_nth_error _ _ _ i (i, t) Hm) as (t' & Hn & Hr).
    { exact (nth_error_combine_seq transactions 0 i t Ht). }
    exists t'. split; [exact Hn|].
    unfold merge_one in Hr. simpl in Hr.
    destruct (Nat.ltb_spec i (length l)) as [Hlt|_]; [lia|exact Hr].
  - apply mapM_Forall2 in H.
    exact (Forall2_nth_error _ _ _ i t H Ht).
Qed.

Lemma py_get_not_object (v : jvalue) (key : string) (default : jvalue) :
  not_object v -> py_get v key default = Raise AttributeError.
Proof. destruct v; simpl; intros H; try reflexivity. destruct H. Qed.

(** X5. One element of the reply list that is not an object sends the whole
    batch to the rules, when it answers a transaction of the batch: the
    labels that the other elements carry are lost. *)
Theorem stray_element_discards_reply (transactions : list Transaction)
        (content : pystr) (l : list jvalue) (i : nat) (x : jvalue) :
  decode content = Some (JArr l) ->
  nth_error l i = Some x -> not_object x ->
  i < length transactions ->
  _classify_batch transactions (Text content)
  = _rule_based_classify transactions.
Proof.
  intros Hd Hx Hno Hi.
  destruct (nth_error transactions i) as [t|] eqn:Ht.
  2: { apply nth_error_None in Ht. lia. }
  assert (Hr : merge_one (JArr l) (i, t) = Raise AttributeError).
  { unfold merge_one. simpl.
    assert (Hlt : i < length l).
    { apply nth_error_Some. rewrite Hx. discriminate. }
    destruct (Nat.ltb_spec i (length l)) as [_|Hge]; [|lia].
    rewrite Hx. simpl. rewrite (py_get_not_object x _ _ Hno). reflexivity. }
  assert (Hin : In (i, t) (enumerate transactions)).
  { apply (nth_error_In _ i).
    exact (nth_error_combine_seq transactions 0 i t Ht). }
  destruct (mapM_In_raise _ _ (merge_one (JArr l)) _ _ _ Hin Hr) as (e & He).
  exact (classify_batch_merge_raises transactions content (JArr l) e Hd He).
Qed.

Lemma merge_one_object (l : list jvalue) (i : nat) (t : Transaction)
      (kv : list (pystr * jvalue)) :
  nth_error l i = Some (JObj kv) ->
  merge_one (JArr l) (i, t) = Ok (labelled_by kv t).
Proof.
  intros Hx. unfold merge_one. simpl.
  assert (Hlt : i < length l).
  { apply nth_error_Some. rewrite Hx. discriminate. }
  destruct (Nat.ltb_spec i (length l)) as [_|Hge]; [|lia].
  rewrite Hx. simpl. unfold labelled_by, field.
  destruct (dict_get str_eqb (lit "is_membership") kv);
    destruct (dict_get str_eqb (lit "membership_type") kv);
    destruct (dict_get str_eqb (lit "frequency") kv);
    destruct (dict_get str_eqb (lit "category") kv); reflexivity.
Qed.

Lemma mapM_merge_objects (l : list jvalue) (kvs : list (list (pystr * jvalue)))
      (ts : list Transaction) (a : nat) :
  length ts <= length kvs ->
  (forall i kv, nth_error kvs i = Some kv ->
                nth_error l (a + i) = Some (JObj kv)) ->
  mapM (merge_one (JArr l)) (combine (seq a (length ts)) ts)
  = Ok (map (fun p => labelled_by (fst p) (snd p)) (combine kvs ts)).
Proof.
  revert kvs a. induction ts as [|t ts IH]; intros kvs a Hlen Hl.
  - destruct kvs; reflexivity.
  - destruct kvs as [|kv kvs]; [simpl in Hlen; lia|].
    cbn [length seq combine mapM map fst snd].
    pose proof (Hl 0 kv eq_refl) as H0. rewrite Nat.add_0_r in H0.
    rewrite (merge_one_object l a t kv H0). unfold bind at 1.
    rewrite (IH kvs (S a)).
    + reflexivity.
    + simpl in Hlen. lia.
    + intros i kv' Hi. specialize (Hl (S i) kv' Hi).
      replace (S a + i) with (a + S i) by lia. exact Hl.
Qed.

(** X6. A reply that decodes to a list of objects, one for each transaction
    of the batch at least, is applied to every transaction and the rules are
    not used: a key that an object lacks gets its default, [False] for
    [is_membership], [None] for the type and the frequency, and the merchant
    of the transaction for the category. *)
Theorem object_reply_is_applied (transactions : list Transaction)
        (content : pystr) (kvs : list (list (pystr * jvalue))) :
  decode content = Some (JArr (map JObj kvs)) ->
  length transactions <= length kvs ->
  _classify_batch transactions (Text content)
  = Ok (map (fun p => labelled_by (fst p) (snd p)) (combine kvs transactions)).
Proof.
  intros Hd Hlen. unfold _classify_batch. rewrite Hd.
  unfold enumerate.
  rewrite (mapM_merge_objects (map JObj kvs) kvs transactions 0 Hlen).
  - reflexivity.
  - intros i kv Hi. simpl. rewrite nth_error_map, Hi. reflexivity.
Qed.

Lemma classify_batch_unparseable (transactions : list Transaction)
      (reply : Reply) :
  unparseable reply ->
  _classify_batch transactions reply = _rule_based_classify transactions.
Proof.
  destruct reply as [|content]; [reflexivity|].
  intros [Hj He]. unfold _classify_batch, decode. rewrite Hj, He.
  reflexivity.
Qed.

Lemma request_returns (l : list Transaction) :
  Forall (fun t => date t <> None) l -> exists days, request l = Ok days.
Proof.
  intros H. apply mapM_total. eapply Forall_impl; [|exact H].
  intros t Ht. cbv beta in Ht. unfold get_date.
  destruct (date t) as [d|]; [|exfalso; apply Ht; reflexivity].
  exists d. reflexivity.
Qed.

Lemma Forall_batch (P : Transaction -> Prop) (l : list Transaction)
      (k : nat) :
  Forall P l -> Forall P (batch l k).
Proof.
  intros H. unfold batch.
  rewrite <- (firstn_skipn (k * batch_size) l) in H.
  apply Forall_app in H. destruct H as [_ H].
  rewrite <- (firstn_skipn batch_size (skipn (k * batch_size) l)) in H.
  apply Forall_app in H. exact (proj1 H).
Qed.

(** X7. The fall-back of the batches adds up: when every transaction has a
    date, so that each prompt can be built, and no reply of the service can
    be decoded, the model-assisted strategy returns, or raises, what the
    rule-based strategy does on the whole list. *)
Theorem unparseable_service_is_rule_based (service : nat -> Reply)
        (transactions : list Transaction) :
  (forall k, unparseable (service k)) ->
  Forall (fun t => date t <> None) transactions ->
  classify_transactions (ModelAssisted service) transactions
  = classify_transactions RuleBased transactions.
Proof.
  intros Hs Hd. unfold classify_transactions. f_equal.
  unfold classify, model_assisted, _rule_based_classify.
  rewrite <- (concat_batches transactions) at 2.
  rewrite mapM_concat.
  match goal with
  | |- context [mapM ?g (map ?h ?ks)] =>
      assert (Hm : forall l, mapM g (map h l)
                   = mapM (fun k => g (h k)) l)
  end.
  { induction l as [|k l IH]; simpl; [reflexivity|]. rewrite IH.
    reflexivity. }
  rewrite Hm.
  rewrite (mapM_ext _ _ _
             (fun k => mapM rule_based_one (batch transactions k))).
  - reflexivity.
  - intros k _.
    destruct (request_returns (batch transactions k)
                (Forall_batch _ transactions k Hd)) as (days & ->).
    exact (classify_batch_unparseable (batch transactions k) (service k)
             (Hs k)).
Qed.

End MergeProperties.

(** ** The bracketed span of a reply *)

Section SearchArray.

Import Classifier.

Lemma drop_until_split (c : N) (s : pystr) :
  exists pre, s = pre ++ drop_until c s /\ ~ In c pre
              /\ (drop_until c s = [] \/ exists r, drop_until c s = c :: r).
Proof.
  induction s as [|x s (pre & Hs & Hpre & Hr)]; simpl.
  - exists []. split; [reflexivity|]. split; [tauto|]. left. reflexivity.
  - destruct (N.eqb_spec x c) as [->|Hne].
    + exists []. split; [reflexivity|]. split; [simpl; tauto|].
      right. exists s. reflexivity.
    + exists (x :: pre). split; [simpl; congruence|].
      split; [|exact Hr]. simpl. intros [H|H]; [congruence|tauto].
Qed.

Lemma drop_until_keeps (c : N) (pre rest : pystr) :
  exists q, drop_until c (pre ++ c :: rest) = q ++ c :: rest.
Proof.
  induction pre as [|x pre (q & IH)]; simpl.
  - rewrite N.eqb_refl. exists []. reflexivity.
  - destruct (N.eqb x c).
    + exists (x :: pre). reflexivity.
    + exists q. exact IH.
Qed.

(** X8. [search_array] finds the span of [re.search(r"\[.*\]", content,
    re.DOTALL)]: from the first opening bracket of the content to the last
    closing bracket after it. It finds nothing exactly when no closing
    bracket follows an opening one. *)
Theorem search_array_span (content : pystr) :
  match search_array content with
  | Some a =>
      exists pre mid post,
        content = pre ++ a ++ post
        /\ a = LBRACKET :: mid ++ [RBRACKET]
        /\ ~ In LBRACKET pre /\ ~ In RBRACKET post
  | None =>
      forall pre mid post,
        content <> pre ++ LBRACKET :: mid ++ RBRACKET :: post
  end.
Proof.
  unfold search_array.
  destruct (drop_until_split LBRACKET content) as (pre & Hc & Hpre & Hs).
  set (s1 := drop_until LBRACKET content) in *.
  destruct (drop_until_split RBRACKET (rev s1)) as (p & Hr & Hp & Hq).
  set (r := drop_until RBRACKET (rev s1)) in *.
  assert (Hnone : ~ In RBRACKET s1 ->
                  forall pre' mid post,
                    content <> pre' ++ LBRACKET :: mid ++ RBRACKET :: post).
  { intros Hno pre' mid post Heq. apply Hno.
    destruct (drop_until_keeps LBRACKET pre' (mid ++ RBRACKET :: post))
      as (q & Hk).
    fold s1 in Hk. unfold s1. rewrite Heq, Hk.
    apply in_or_app. right. right. apply in_or_app. right. left.
    reflexivity. }
  destruct Hq as [Hq|(r2 & Hq)].
  - rewrite Hq. simpl. apply Hnone. intros Hin. apply Hp.
    rewrite Hq, app_nil_r in Hr. rewrite <- Hr. apply in_rev.
    rewrite rev_involutive. exact Hin.
  - assert (Hs1 : s1 = rev r ++ rev p).
    { rewrite <- rev_app_distr, <- Hr, rev_involutive. reflexivity. }
    rewrite Hq in *. simpl rev in *.
    destruct Hs as [Hs|(r1 & Hs)]; rewrite Hs in Hs1.
    { destruct (rev r2); discriminate. }
    destruct (rev r2) as [|y mid] eqn:Hr2; simpl in Hs1;
      injection Hs1 as Hb Hs1.
    { vm_compute in Hb. discriminate. }
    subst y. simpl.
    exists pre, mid, (rev p). split; [|split; [reflexivity|split]].
    + rewrite Hc at 1. rewrite Hs. simpl. rewrite <- app_assoc.
      simpl. rewrite Hs1, <- app_assoc. reflexivity.
    + exact Hpre.
    + intros Hin. apply Hp. apply in_rev. exact Hin.
Qed.

End SearchArray.

(** ** The one-time-payment filter, again *)

Section FilterProperties.

Context {py : Python}.

Import Classifier Spec More.

Lemma filtered_test (l : list Transaction) (t : Transaction) (k : pystr) :
  flagged (filtered l t) && str_eqb (merchant_key (filtered l t)) k
  = flagged t && str_eqb (merchant_key t) k
    && negb (length (merchant_group l k) =? 1).
Proof.
  unfold filtered.
  destruct (flagged t) eqn:Hf; simpl; [|rewrite Hf; reflexivity].
  destruct (str_eqb (merchant_key t) k) eqn:Hk; simpl.
  - apply str_eqb_eq in Hk. subst k.
    destruct (length (merchant_group l (merchant_key t)) =? 1).
    + reflexivity.
    + rewrite Hf. simpl. apply str_eqb_eq. reflexivity.
  - destruct (length (merchant_group l (merchant_key t)) =? 1).
    + reflexivity.
    + rewrite Hf, Hk. reflexivity.
Qed.

Lemma length_group_filtered (l l0 : list Transaction) (k : pystr) :
  length (merchant_group (map (filtered l) l0) k)
  = if length (merchant_group l k) =? 1 then 0
    else length (merchant_group l0 k).
Proof.
  unfold merchant_group at 1 3.
  induction l0 as [|t l0 IH].
  - simpl. destruct (_ =? 1); reflexivity.
  - cbn [map filter]. rewrite filtered_test.
    destruct (length (merchant_group l k) =? 1) eqn:Hc.
    + rewrite andb_false_r. exact IH.
    + rewrite andb_true_r.
      destruct (flagged t && str_eqb (merchant_key t) k); simpl;
        rewrite IH; reflexivity.
Qed.

Lemma filtered_again (l : list Transaction) (t : Transaction) :
  filtered (map (filtered l) l) (filtered l t) = filtered l t.
Proof.
  unfold filtered at 1.
  destruct (flagged (filtered l t)) eqn:Hf; [|reflexivity].
  destruct (filtered_flagged l t Hf) as (Ht & _ & Hc).
  rewrite Ht, length_group_filtered.
  destruct (Nat.eqb_spec (length (merchant_group l (merchant_key t))) 1)
    as [H1|H1]; [contradiction|].
  apply Nat.eqb_neq in H1. rewrite H1. reflexivity.
Qed.

(** X9. The one-time-payment filter is idempotent: the transactions that it
    demotes leave their groups together, so that a second pass finds no
    group of one and changes nothing. *)
Theorem filter_one_time_payments_idempotent (l : list Transaction) :
  _filter_one_time_payments (_filter_one_time_payments l)
  = _filter_one_time_payments l.
Proof.
  rewrite (filter_one_time_payments_map l).
  rewrite (filter_one_time_payments_map (map (filtered l) l)).
  rewrite map_map. apply map_ext. intros t. apply filtered_again.
Qed.

Lemma length_group_map (f : Transaction -> Transaction)
      (l : list Transaction) (k : pystr) :
  (forall t, flagged (f t) = flagged t
             /\ merchant_key (f t) = merchant_key t) ->
  length (merchant_group (map f l) k) = length (merchant_group l k).
Proof.
  intros Hf. unfold merchant_group.
  induction l as [|t l IH]; simpl; [reflexivity|].
  destruct (Hf t) as [-> ->].
  destruct (flagged t && str_eqb (merchant_key t) k); simpl; rewrite IH;
    reflexivity.
Qed.

Lemma merchant_group_flagged (l : list Transaction) (k : pystr) :
  merchant_group (filter flagged l) k = merchant_group l k.
Proof.
  unfold merchant_group. induction l as [|t l IH]; simpl; [reflexivity|].
  destruct (flagged t) eqn:Hf; simpl; rewrite ?Hf; simpl; rewrite IH;
    reflexivity.
Qed.

Lemma costed_flagged (l : list Transaction) (t : Transaction) :
  flagged (costed l t) = flagged t
  /\ merchant_key (costed l t) = merchant_key t.
Proof.
  destruct (costed_labels l t) as [Hc Hl]. split.
  - unfold flagged. unfold labels in Hl. injection Hl as -> _ _ _.
    reflexivity.
  - exact (merchant_key_core t (costed l t) Hc).
Qed.

Lemma In_merchant_group (l : list Transaction) (t : Transaction) :
  In t l -> flagged t = true ->
  1 <= length (merchant_group l (merchant_key t)).
Proof.
  intros Hin Hf.
  assert (H : In t (merchant_group l (merchant_key t))).
  { apply filter_In. split; [exact Hin|]. rewrite Hf. simpl.
    apply str_eqb_eq. reflexivity. }
  destruct (merchant_group l (merchant_key t)); [destruct H|simpl; lia].
Qed.

(** X10. No merchant is alone in what [classify_transactions] returns: every
    returned record shares the key of the one-time-payment filter, its
    cleaned merchant name, with another returned record at least. *)
Theorem returned_merchants_recur (strategy : Strategy)
        (transactions out : list Transaction) (r : Transaction) :
  classify_transactions strategy transactions = Ok out ->
  In r out ->
  2 <= length (merchant_group out (merchant_key r)).
Proof.
  intros H Hr.
  destruct (classify_transactions_stages strategy transactions out H)
    as (cl & _ & Hout & _).
  cbv zeta in Hout. subst out.
  set (ms := filter flagged (map (filtered cl) cl)) in *.
  rewrite (length_group_map (costed ms) ms _ (costed_flagged ms)).
  unfold ms at 1. rewrite merchant_group_flagged, length_group_filtered.
  apply in_map_iff in Hr. destruct Hr as (t & <- & Ht).
  rewrite (proj2 (costed_flagged ms t)).
  apply filter_In in Ht. destruct Ht as [Ht Hf].
  apply in_map_iff in Ht. destruct Ht as (t0 & Ht0 & Hin).
  rewrite <- Ht0 in Hf.
  destruct (filtered_flagged cl t0 Hf) as (Heq & Hf0 & Hc).
  rewrite <- Ht0, Heq.
  pose proof (In_merchant_group cl t0 Hin Hf0) as H1.
  destruct (Nat.eqb_spec (length (merchant_group cl (merchant_key t0))) 1);
    lia.
Qed.

End FilterProperties.

(** ** The cost estimation, again *)

Section CostEdges.

Context {py : Python}.

Import Classifier Spec More.

Lemma set_costs_twice (t : Transaction) (a b : float) :
  set_costs (set_costs t a b) a b = set_costs t a b.
Proof. reflexivity. Qed.

Lemma costed_again (l : list Transaction) (t : Transaction) :
  costed (map (costed l) l) (costed l t) = costed l t.
Proof.
  unfold costed at 1. destruct (costed_item l t) as (_ & _ & ->).
  destruct (category_key t) as [k|e] eqn:Hk; [|reflexivity].
  destruct (group_costs_items _ _ (category_group_costed l k)) as [-> ->].
  unfold costed. rewrite Hk.
  destruct (nan_category t) eqn:Hn; [rewrite Hn; reflexivity|].
  change (nan_category (set_costs t _ _)) with (nan_category t).
  rewrite Hn. reflexivity.
Qed.

(** X11. The cost estimation is idempotent: run on the list that it has
    returned, [_add_monthly_costs] returns that list, for the costs of a
    category are read from the amounts and the first frequency, which the
    estimation leaves as they are. *)
Theorem add_monthly_costs_idempotent (l out : list Transaction) :
  Forall (fun t => category t <> None) l ->
  _add_monthly_costs l = Ok out ->
  _add_monthly_costs out = Ok out.
Proof.
  intros Hcat H.
  pose proof (add_monthly_costs_map l out Hcat H) as Hout.
  assert (Hkeys : Forall (fun t => exists k, category_key t = Ok k) l).
  { unfold _add_monthly_costs in H.
    destruct (by_category l []) as [d|e] eqn:Hd; [|discriminate].
    exact (proj1 (by_category_spec l [] d Hcat Hd)). }
  assert (Hcat' : Forall (fun t => category t <> None) out).
  { subst out. apply Forall_forall. intros r Hr.
    apply in_map_iff in Hr. destruct Hr as (t & <- & Ht).
    rewrite Forall_forall in Hcat. specialize (Hcat t Ht).
    destruct (costed_labels l t) as [_ Hl]. unfold labels in Hl.
    injection Hl as _ _ _ ->. exact Hcat. }
  assert (Hkeys' : Forall (fun t => exists k, category_key t = Ok k) out).
  { subst out. apply Forall_forall. intros r Hr.
    apply in_map_iff in Hr. destruct Hr as (t & <- & Ht).
    rewrite Forall_forall in Hkeys.
    destruct (costed_item l t) as (_ & _ & ->). exact (Hkeys t Ht). }
  destruct (by_category_returns out [] Hkeys') as (d & Hd).
  assert (H' : _add_monthly_costs out = Ok (fold_left cost_group d out)).
  { unfold _add_monthly_costs. rewrite Hd. reflexivity. }
  rewrite H'. f_equal.
  rewrite (add_monthly_costs_map out _ Hcat' H').
  subst out. rewrite map_map. apply map_ext. intros t.
  apply costed_again.
Qed.

Lemma category_key_raises (t : Transaction) (e : exn) :
  category_key t = Raise e -> e = TypeError.
Proof.
  unfold category_key. destruct (category t) as [[| | |x| | |]|]; simpl;
    try congruence.
  destruct (PrimFloat.is_nan x); [discriminate|].
  destruct (float_integer x); discriminate.
Qed.

Lemma unhashable_key (t : Transaction) :
  unhashable t -> category_key t = Raise TypeError.
Proof.
  unfold unhashable, category_key.
  destruct (category t) as [[| | | | | |]|]; simpl; tauto.
Qed.

Lemma by_category_raises (l : list Transaction) (t : Transaction)
      (d : list (hkey * list (float * jvalue))) :
  In t l -> unhashable t -> by_category l d = Raise TypeError.
Proof.
  revert d. induction l as [|x l IH]; intros d; simpl; [tauto|].
  intros Hin Hu. destruct (category_key x) as [k|e] eqn:Hk; simpl.
  - destruct Hin as [->|Hin].
    + rewrite (unhashable_key t Hu) in Hk. discriminate.
    + exact (IH _ Hin Hu).
  - rewrite (category_key_raises x e Hk). reflexivity.
Qed.

Lemma payments_by_category_raises (l : list Transaction) (t : Transaction)
      (d : list (hkey * list (Z * float))) :
  In t l -> flagged t = true -> unhashable t ->
  Forall (fun x => date x <> None) l ->
  payments_by_category l d = Raise TypeError.
Proof.
  revert d. induction l as [|x l IH]; intros d; simpl; [tauto|].
  intros Hin Hf Hu Hd. inversion Hd as [|x' l' Hx Hl]; subst.
  destruct (flagged x) eqn:Hfx.
  - destruct (category_key x) as [k|e] eqn:Hk; simpl.
    + destruct Hin as [->|Hin].
      * rewrite (unhashable_key t Hu) in Hk. discriminate.
      * unfold get_date.
        destruct (date x); [|exfalso; apply Hx; reflexivity].
        exact (IH _ Hin Hf Hu Hl).
    + rewrite (category_key_raises x e Hk). reflexivity.
  - destruct Hin as [->|Hin]; [congruence|]. exact (IH _ Hin Hf Hu Hl).
Qed.

(** X12. A category that is a list or an object is no dictionary key: with
    one such transaction in the list [_add_monthly_costs] raises
    [TypeError], and so does [analyze_frequency] when that transaction is
    flagged as a membership and the transactions have their dates (a
    flagged transaction without date that comes first raises [KeyError]
    before). *)
Theorem unhashable_category_raises (l : list Transaction) (t : Transaction) :
  In t l -> unhashable t ->
  _add_monthly_costs l = Raise TypeError
  /\ (flagged t = true -> Forall (fun x => date x <> None) l ->
      analyze_frequency l = Raise TypeError).
Proof.
  intros Hin Hu. split.
  - unfold _add_monthly_costs. rewrite (by_category_raises l t [] Hin Hu).
    reflexivity.
  - intros Hf Hd. unfold analyze_frequency.
    rewrite (payments_by_category_raises l t [] Hin Hf Hu Hd). reflexivity.
Qed.

Lemma by_category_unknown (l : list Transaction)
      (d0 : list (hkey * list (float * jvalue))) :
  Forall (fun t => category t = None) l ->
  Forall (fun g => fst g = HStr UNKNOWN) d0 ->
  exists d, by_category l d0 = Ok d
            /\ Forall (fun g => fst g = HStr UNKNOWN) d.
Proof.
  intros H. revert d0. induction H as [|t l Ht _ IH]; intros d0 Hd0.
  - exists d0. split; [reflexivity|exact Hd0].
  - simpl. unfold category_key. rewrite Ht. simpl. apply IH.
    clear IH. induction d0 as [|[k vs] d0 IHd]; simpl.
    + constructor; [reflexivity|constructor].
    + inversion Hd0 as [|g d0' Hg Hd0']; subst.
      destruct (hkey_eqb k (HStr UNKNOWN)); constructor; auto.
Qed.

Lemma cost_one_absent (g : hkey * list (float * jvalue)) (t : Transaction) :
  category t = None -> fst g = HStr UNKNOWN -> cost_one g t = t.
Proof.
  intros Ht Hg. unfold cost_one, get_category. rewrite Ht, Hg. reflexivity.
Qed.

(** X13. A transaction without the key [category] gets no cost: the grouping
    counts it under ["Unknown"], the assignment looks for the value [None],
    and the two never meet. A list of such transactions is returned as it
    is. *)
Theorem absent_category_gets_no_cost (l : list Transaction) :
  Forall (fun t => category t = None) l ->
  _add_monthly_costs l = Ok l.
Proof.
  intros H. unfold _add_monthly_costs.
  destruct (by_category_unknown l [] H (Forall_nil _)) as (d & -> & Hd).
  simpl. f_equal. rewrite fold_cost_group.
  rewrite <- (map_id l) at 2. apply map_ext_in. intros t Ht.
  rewrite Forall_forall in H. specialize (H t Ht).
  clear Ht. induction Hd as [|g d Hg _ IH]; simpl; [reflexivity|].
  rewrite (cost_one_absent g t H Hg). exact IH.
Qed.

Lemma Forall2_length_eq {A B} (R : A -> B -> Prop) (l : list A)
      (l' : list B) : Forall2 R l l' -> length l = length l'.
Proof. induction 1; simpl; congruence. Qed.

(** X14. What [classify_transactions] returns: memberships only, each with
    its category set, and with its two costs set unless the category is
    NaN, which equals no group; and no more records than it was given. *)
Theorem returned_records_are_costed (strategy : Strategy)
        (transactions out : list Transaction) :
  classify_transactions strategy transactions = Ok out ->
  Forall (fun r => flagged r = true /\ category r <> None
                   /\ (nan_category r = false ->
                       monthly_cost r <> None /\ total_paid r <> None)) out
  /\ length out <= length transactions.
Proof.
  intros H.
  destruct (classify_transactions_stages strategy transactions out H)
    as (cl & Hcl & Hout & Hcat & Hkeys).
  cbv zeta in Hout, Hcat, Hkeys.
  set (ms := filter flagged (map (filtered cl) cl)) in *. split.
  - subst out. apply Forall_forall. intros r Hr.
    apply in_map_iff in Hr. destruct Hr as (t & <- & Ht).
    rewrite Forall_forall in Hcat, Hkeys.
    destruct (Hkeys t Ht) as (k & Hk). specialize (Hcat t Ht).
    destruct (costed_labels ms t) as [_ Hl]. unfold labels in Hl.
    injection Hl as _ _ _ Hc.
    split; [|split].
    + rewrite (proj1 (costed_flagged ms t)).
      apply filter_In in Ht. exact (proj2 Ht).
    + rewrite Hc. exact Hcat.
    + unfold nan_category. rewrite Hc. fold (nan_category t).
      intros Hn. unfold costed. rewrite Hk, Hn. simpl. split; discriminate.
  - subst out. rewrite length_map.
    apply classify_classified in Hcl.
    rewrite (Forall2_length_eq _ _ _ Hcl).
    rewrite <- (length_map (filtered cl) cl). apply filter_length_le.
Qed.

Lemma classify_single_has_category (t : Transaction) :
  match _classify_single t with
  | Ok _ => has_category t
  | Raise e => e = IndexError /\ ~ has_category t
  end.
Proof.
  unfold has_category, _classify_single, classify_single_with. cbv zeta.
  set (im := any_in membership_keywords _).
  set (mc := match upper (merchant t) with
             | [] => []
             | _ :: _ => clean (upper (merchant t))
             end).
  assert (Em : mc = clean (upper (merchant t)))
    by (subst mc; destruct (upper (merchant t)); reflexivity).
  clearbody mc im. subst mc.
  destruct (clean (upper (merchant t))) as [|c m] eqn:Ec;
    destruct (upper (description t)) as [|c' d] eqn:Ed; cbv beta iota.
  - unfold bind. destruct im; right; left; reflexivity.
  - destruct (split (c' :: d)) eqn:Es.
    + unfold bind. split; [reflexivity|].
      intros [H|[H|H]]; congruence.
    + unfold bind. destruct im; right; right; discriminate.
  - unfold bind. destruct im; left; discriminate.
  - unfold bind. destruct im; left; discriminate.
Qed.

Lemma rule_based_classify_has_category (l : list Transaction) :
  match _rule_based_classify l with
  | Ok _ => Forall has_category l
  | Raise e => e = IndexError /\ ~ Forall has_category l
  end.
Proof.
  unfold _rule_based_classify.
  induction l as [|t l IH]; simpl; [constructor|].
  unfold rule_based_one at 1.
  pose proof (classify_single_has_category t) as Ht.
  destruct (_classify_single t) as [c|e]; simpl.
  - destruct (mapM rule_based_one l) as [l'|e]; simpl.
    + constructor; assumption.
    + destruct IH as [-> IH]. split; [reflexivity|].
      intros Hall. inversion Hall; subst. contradiction.
  - destruct Ht as [-> Ht]. split; [reflexivity|].
    intros Hall. inversion Hall; subst. contradiction.
Qed.

(** X15. The one failure of the rule-based strategy: [classify_transactions]
    returns exactly when the rules find a category for every transaction,
    and raises [IndexError] otherwise, which is the case of a description of
    white space alone beside a merchant that cleans to nothing. *)
Theorem rule_based_fails_on_blank_description
        (transactions : list Transaction) :
  match classify_transactions RuleBased transactions with
  | Ok _ => Forall has_category transactions
  | Raise e => e = IndexError /\ ~ Forall has_category transactions
  end.
Proof.
  pose proof (rule_based_classify_has_category transactions) as H.
  destruct (classify_transactions RuleBased transactions) as [out|e] eqn:Hc.
  - unfold classify_transactions in Hc. simpl in Hc.
    destruct (_rule_based_classify transactions); [exact H|discriminate].
  - destruct (_rule_based_classify transactions) as [cl|e'] eqn:Hr.
    + destruct (rule_based_returns transactions H) as (out & Hout).
      congruence.
    + unfold classify_transactions in Hc. simpl in Hc. rewrite Hr in Hc.
      simpl in Hc. injection Hc as <-. exact H.
Qed.

End CostEdges.

(** ** The frequency analysis, again *)

Section FrequencyEdges.

Context {py : Python}.

Import Classifier Spec More.

Lemma payments_by_category_unflagged (l : list Transaction)
      (d : list (hkey * list (Z * float))) :
  Forall (fun t => flagged t = false) l ->
  payments_by_category l d = Ok d.
Proof.
  induction 1 as [|t l Ht _ IH]; simpl; [reflexivity|].
  rewrite Ht. exact IH.
Qed.

(** X16. The frequency report is always empty: the dictionaries that
    [get_frequency_analysis] hands to [analyze_frequency] have no key
    [is_membership], the analysis keeps the transactions that carry a true
    one, and so it groups nothing, whatever the rows are. *)
Theorem frequency_report_is_empty (memberships : list Main.Row) :
  Main.get_frequency_analysis memberships = Ok [].
Proof.
  unfold Main.get_frequency_analysis, analyze_frequency.
  rewrite payments_by_category_unflagged; [reflexivity|].
  apply Forall_forall. intros t Ht. apply in_map_iff in Ht.
  destruct Ht as (r & <- & _). reflexivity.
Qed.

Lemma sorted_dates_unique (a b : list Z) :
  StronglySorted Z.le a -> StronglySorted Z.le b -> Permutation a b ->
  a = b.
Proof.
  intros Ha. revert b. induction Ha as [|x a Ha IH Hx]; intros b Hb Hp.
  - apply Permutation_nil in Hp. subst b. reflexivity.
  - destruct b as [|y b].
    { apply Permutation_sym, Permutation_nil in Hp. discriminate. }
    inversion Hb as [|y' b' Hb' Hy]; subst.
    assert (Hxy : x = y).
    { rewrite Forall_forall in Hx, Hy.
      assert (H1 : In x (y :: b))
        by (apply (Permutation_in x Hp); left; reflexivity).
      assert (H2 : In y (x :: a))
        by (apply (Permutation_in y (Permutation_sym Hp)); left;
            reflexivity).
      destruct H1 as [H1|H1]; [congruence|].
      destruct H2 as [H2|H2]; [congruence|].
      specialize (Hx y H2). specialize (Hy x H1). lia. }
    subst y. f_equal. apply IH; [exact Hb'|].
    exact (Permutation_cons_inv Hp).
Qed.

Lemma sorted_dates (ps : list (Z * float)) :
  StronglySorted Z.le (map fst (sort_by_date ps)).
Proof.
  pose proof (sort_by_date_sorted ps) as H.
  apply Sorted_StronglySorted in H.
  2: { intros p q r Hpq Hqr. unfold by_date in *. lia. }
  induction H as [|p l _ IH Hp]; simpl; constructor; [exact IH|].
  rewrite Forall_forall in *. intros z Hz. apply in_map_iff in Hz.
  destruct Hz as (q & <- & Hq). exact (Hp q Hq).
Qed.

Lemma sorted_dates_perm (ps ps' : list (Z * float)) :
  Permutation ps ps' ->
  map fst (sort_by_date ps) = map fst (sort_by_date ps').
Proof.
  intros Hp. apply sorted_dates_unique; try apply sorted_dates.
  apply Permutation_map.
  rewrite (sort_by_date_perm ps), (sort_by_date_perm ps'). exact Hp.
Qed.

Lemma analyze_group_perm (k : hkey) (ps ps' : list (Z * float)) :
  Permutation ps ps' ->
  match analyze_group (k, ps), analyze_group (k, ps') with
  | Ok [], Ok [] => True
  | Ok [(_, st)], Ok [(_, st')] => timing st = timing st'
  | Raise e, Raise e' => e = e'
  | _, _ => False
  end.
Proof.
  intros Hp. unfold analyze_group, average_interval. cbn [snd fst].
  rewrite <- (sorted_dates_perm ps ps' Hp).
  rewrite <- (Permutation_length Hp).
  destruct (length ps <? 2); [exact I|].
  destruct (intervals (map fst (sort_by_date ps))) as [|i ivs]; [exact I|].
  destruct (cadence _) as [fr|e]; simpl; reflexivity.
Qed.

Lemma Permutation_filter_keep {A} (p : A -> bool) (l l' : list A) :
  Permutation l l' -> Permutation (filter p l) (filter p l').
Proof.
  induction 1 as [|x l l' _ IH|x y l|l l' l'' _ IH1 _ IH2]; simpl.
  - constructor.
  - destruct (p x); [constructor|]; exact IH.
  - destruct (p x), (p y); try apply Permutation_refl. apply perm_swap.
  - exact (Permutation_trans IH1 IH2).
Qed.

Lemma grouped_payments (l : list Transaction)
      (d : list (hkey * list (Z * float))) (k : hkey) :
  payments_by_category l [] = Ok d ->
  match dict_get hkey_eqb k d with
  | Some ps => ps = map payment (observations l k)
  | None => observations l k = []
  end.
Proof.
  intros Hd. destruct (payments_by_category_spec l [] d Hd) as [_ Hg].
  specialize (Hg k). unfold dict_group in Hg. simpl in Hg.
  destruct (dict_get hkey_eqb k d); [exact Hg|].
  destruct (observations l k); [reflexivity|discriminate].
Qed.

Lemma analyzed_entry (l : list Transaction) (res : list (hkey * Stats))
      (k : hkey) :
  analyze_frequency l = Ok res ->
  dict_get hkey_eqb k res =
  match analyze_group (k, map payment (observations l k)) with
  | Ok [(_, st)] => Some st
  | _ => None
  end.
Proof.
  intros H. unfold analyze_frequency in H.
  destruct (payments_by_category l []) as [d|e] eqn:Ed; [|discriminate].
  simpl in H. destruct (mapM analyze_group d) as [es|e] eqn:Ees;
    [|discriminate].
  simpl in H. inversion H; subst res. clear H.
  apply mapM_Forall2 in Ees.
  destruct (payments_by_category_spec _ _ _ Ed) as [Hnd _].
  specialize (Hnd (NoDup_nil _)).
  rewrite (analyze_entries_get d es k Hnd Ees).
  pose proof (grouped_payments l d k Ed) as Hg.
  destruct (dict_get hkey_eqb k d) as [ps|]; [subst ps; reflexivity|].
  rewrite Hg. reflexivity.
Qed.

(** X17. The order of the list does not count: over two lists that hold the
    same transactions in another order, [analyze_frequency] gives each
    category the same cadence, the same average interval and the same
    number of payments. *)
Theorem analyze_frequency_ignores_order (l l' : list Transaction)
        (res res' : list (hkey * Stats)) :
  Permutation l l' ->
  analyze_frequency l = Ok res ->
  analyze_frequency l' = Ok res' ->
  forall k, option_map timing (dict_get hkey_eqb k res)
            = option_map timing (dict_get hkey_eqb k res').
Proof.
  intros Hp H H' k.
  rewrite (analyzed_entry l res k H), (analyzed_entry l' res' k H').
  assert (Hobs : Permutation (map payment (observations l k))
                             (map payment (observations l' k))).
  { apply Permutation_map. apply Permutation_filter_keep. exact Hp. }
  pose proof (analyze_group_perm k _ _ Hobs) as Hg.
  destruct (analyze_group (k, map payment (observations l k)))
    as [[|[k1 st] [|]]|e];
    destruct (analyze_group (k, map payment (observations l' k)))
      as [[|[k2 st'] [|]]|e']; simpl in *; try reflexivity;
    try contradiction.
  rewrite Hg. reflexivity.
Qed.

End FrequencyEdges.

(** ** The text of a page *)

Section FloatSign.

Lemma above_cent_positive (a : float) :
  PrimFloat.ltb 0.01 a = true ->
  PrimFloat.ltb 0 a = true /\ BankParser.nonzero a = true.
Proof.
  unfold BankParser.nonzero. rewrite !ltb_spec, eqb_spec.
  remember (Prim2SF 0.01) as c eqn:Ec. vm_compute in Ec. subst c.
  remember (Prim2SF 0) as z eqn:Ez. vm_compute in Ez. subst z.
  unfold SFltb, SFeqb, SFcompare.
  destruct (Prim2SF a) as [s|s| |s m e]; try destruct s; try discriminate;
    intros _; split; reflexivity.
Qed.

Lemma abs_not_negative (x : float) :
  PrimFloat.ltb (PrimFloat.abs x) 0 = false.
Proof.
  rewrite ltb_spec, abs_spec.
  remember (Prim2SF 0) as z eqn:Ez. vm_compute in Ez. subst z.
  unfold SFltb, SFcompare, SFabs.
  destruct (Prim2SF x) as [s|s| |s m e]; reflexivity.
Qed.

End FloatSign.

(** ** The merchant of a description *)

Section MerchantShape.

Context {py : Python}.

Import BankParser.

Lemma merchant_words_upper (s : pystr) :
  upper (join [SPACE] (merchant_words s)) = join [SPACE] (merchant_words s).
Proof.
  rewrite (merchant_words_split s).
  set (x := re_sub long_digits [] (upper s)).
  apply upper_fixed_text. apply Forall_forall. intros u Hu.
  apply In_join in Hu. destruct Hu as [->|(w & Hw & Hu)].
  - apply upper_space.
  - assert (Hx : In u x).
    { apply (In_split x w); [|exact Hu].
      rewrite <- (firstn_skipn 3 (split x)).
      apply in_or_app. left. exact Hw. }
    apply In_re_sub_from in Hx. apply In_upper in Hx.
    destruct Hx as (c & _ & Hc). apply (upper_fixed c u Hc).
Qed.

(** X18. The shape of a merchant: when the clean-up of a description leaves a
    word, [_extract_merchant] returns one to three words of the description
    in upper case, each one free of white space, with one space between
    two of them and none around; no run of four digits or more is left in
    it. *)
Theorem extract_merchant_shape (s : pystr) :
  merchant_words s <> [] ->
  let r := _extract_merchant s in
  split r = merchant_words s
  /\ 1 <= length (split r) <= 3
  /\ r = join [SPACE] (split r)
  /\ upper r = r
  /\ short_runs r.
Proof.
  intros Hw. cbv zeta. rewrite (extract_merchant_words s).
  destruct (merchant_words s) as [|w ws] eqn:E; [congruence|].
  rewrite <- E. clear Hw.
  assert (Hs : split (join [SPACE] (merchant_words s)) = merchant_words s).
  { apply split_join. rewrite merchant_words_split.
    apply Forall_firstn_keep. apply split_tokens. }
  rewrite Hs. split; [reflexivity|]. split; [|split; [reflexivity|split]].
  - split; [rewrite E; simpl; lia|].
    unfold merchant_words. apply firstn_le_length.
  - apply merchant_words_upper.
  - rewrite merchant_words_split. apply short_runs_join.
    apply Forall_firstn_keep. apply short_runs_split.
    apply short_runs_re_sub.
Qed.

(** X19. The merchant does not depend on the case of the description: when
    the clean-up leaves a word, a description and its upper case get the
    same merchant. *)
Theorem extract_merchant_ignores_case (s : pystr) :
  merchant_words s <> [] ->
  _extract_merchant (upper s) = _extract_merchant s.
Proof.
  intros Hw.
  assert (H : merchant_words (upper s) = merchant_words s).
  { unfold merchant_words. rewrite upper_upper. reflexivity. }
  rewrite (extract_merchant_words (upper s)), (extract_merchant_words s), H.
  destruct (merchant_words s); [congruence|reflexivity].
Qed.

End MerchantShape.

(** ** The rows of a table and of a CSV file *)

Section Rows.

Context {py : Python}.

Import BankParser More.

(** What each parser guarantees of a record. *)
Lemma table_emit_records (t : Partial) :
  Forall (fun e => nonzero (e_amount e) = true
                   /\ e_merchant e = _extract_merchant (e_description e))
         (table_emit t).
Proof.
  unfold table_emit.
  destruct (p_description t) as [d|]; [|constructor].
  destruct (p_amount t) as [a|]; [|constructor].
  destruct (nonzero a) eqn:Ha; constructor; [|constructor].
  split; [exact Ha|reflexivity].
Qed.

Lemma table_emit_length (t : Partial) : length (table_emit t) <= 1.
Proof.
  unfold table_emit.
  destruct (p_description t); [|simpl; lia].
  destruct (p_amount t); [|simpl; lia].
  destruct (nonzero _); simpl; lia.
Qed.

Lemma Forall_flat_map {A B} (P : B -> Prop) (f : A -> list B) (l : list A) :
  (forall x, In x l -> Forall P (f x)) -> Forall P (flat_map f l).
Proof.
  induction l as [|x l IH]; intros H; simpl; [constructor|].
  apply Forall_app. split.
  - apply H. left. reflexivity.
  - apply IH. intros y Hy. apply H. right. exact Hy.
Qed.

Lemma length_flat_map_le {A B} (f : A -> list B) (l : list A) :
  (forall x, length (f x) <= 1) -> length (flat_map f l) <= length l.
Proof.
  intros H. induction l as [|x l IH]; simpl; [lia|].
  rewrite length_app. specialize (H x). lia.
Qed.

Lemma parse_table_emits (table : list (list (option pystr))) :
  Forall (fun e => nonzero (e_amount e) = true
                   /\ e_merchant e = _extract_merchant (e_description e))
         (_parse_table table).
Proof.
  unfold _parse_table. destruct table as [|hd [|row1 rows]];
    try constructor.
  apply Forall_flat_map. intros row _.
  destruct (length row <? 2); [constructor|apply table_emit_records].
Qed.

(** X20. What [_parse_table] emits: one record at most for each row under
    the header row, each with an amount that is not zero and, for its
    merchant, what [_extract_merchant] makes of its description. *)
Theorem parse_table_records (table : list (list (option pystr))) :
  Forall (fun e => nonzero (e_amount e) = true
                   /\ e_merchant e = _extract_merchant (e_description e))
         (_parse_table table)
  /\ length (_parse_table table) <= length table - 1.
Proof.
  split; [apply parse_table_emits|].
  unfold _parse_table. destruct table as [|hd [|row1 rows]];
    try (simpl; lia).
  etransitivity.
  - apply length_flat_map_le. intros row.
    destruct (length row <? 2); [simpl; lia|apply table_emit_length].
  - simpl. lia.
Qed.

Lemma table_row_no_amount (headers : list pystr) (row : list (option pystr))
      (t : Partial) :
  Forall (fun h => any_in amount_names h = false) headers ->
  p_amount (table_row headers row t) = p_amount t.
Proof.
  intros H. revert row t. induction H as [|h hs Hh _ IH]; intros row t.
  - destruct row; reflexivity.
  - destruct row as [|c cs]; [reflexivity|]. simpl. rewrite IH.
    destruct c as [[|x v]|]; try reflexivity.
    unfold table_cell. fold description_names. fold amount_names.
    rewrite Hh. destruct (isin (lit "date") h); [reflexivity|].
    destruct (any_in description_names h); reflexivity.
Qed.

Lemma table_row_no_description (headers : list pystr)
      (row : list (option pystr)) (t : Partial) :
  Forall (fun h => any_in description_names h = false) headers ->
  p_description (table_row headers row t) = p_description t.
Proof.
  intros H. revert row t. induction H as [|h hs Hh _ IH]; intros row t.
  - destruct row; reflexivity.
  - destruct row as [|c cs]; [reflexivity|]. simpl. rewrite IH.
    destruct c as [[|x v]|]; try reflexivity.
    unfold table_cell. fold description_names. fold amount_names.
    rewrite Hh. destruct (isin (lit "date") h); [reflexivity|].
    destruct (any_in amount_names h); reflexivity.
Qed.

Lemma flat_map_nil {A B} (f : A -> list B) (l : list A) :
  (forall x, f x = []) -> flat_map f l = [].
Proof.
  intros H. induction l as [|x l IH]; simpl; [reflexivity|].
  rewrite H, IH. reflexivity.
Qed.

(** X21. A table needs both columns: when no header of its first row names
    an amount ([amount], [debit], [credit]), or none names a description
    ([description], [memo], [merchant], [details]), [_parse_table] emits
    nothing, whatever the rows hold. *)
Theorem table_without_column_is_empty (hd : list (option pystr))
        (rows : list (list (option pystr))) :
  Forall (fun h => any_in amount_names (header_of h) = false) hd
  \/ Forall (fun h => any_in description_names (header_of h) = false) hd ->
  _parse_table (hd :: rows) = [].
Proof.
  intros H. unfold _parse_table. destruct rows as [|row1 rows];
    [reflexivity|].
  apply flat_map_nil. intros row.
  destruct (length row <? 2); [reflexivity|].
  unfold table_emit. destruct H as [H|H].
  - rewrite table_row_no_amount.
    + simpl. destruct (p_description _); reflexivity.
    + apply Forall_map. exact H.
  - rewrite table_row_no_description.
    + reflexivity.
    + apply Forall_map. exact H.
Qed.

(** X22. On the CSV path an amount is never negative and a date is never
    missing: [csv_row] emits one record at most, with the absolute value of
    the amount and, when the date cell is empty, the current time. *)
Theorem csv_row_records (date_str : option pystr)
        (description amount_str : pystr) :
  Forall (fun e => PrimFloat.ltb (e_amount e) 0 = false
                   /\ nonzero (_parse_amount amount_str) = true
                   /\ e_date e <> None
                   /\ e_merchant e = _extract_merchant description)
         (csv_row date_str description amount_str)
  /\ length (csv_row date_str description amount_str) <= 1.
Proof.
  unfold csv_row. cbv zeta.
  destruct (nonzero (_parse_amount amount_str)) eqn:Ha.
  - split; [|simpl; lia]. constructor; [|constructor]. simpl.
    split; [apply abs_not_negative|].
    split; [reflexivity|]. split; [discriminate|reflexivity].
  - split; [constructor|simpl; lia].
Qed.

End Rows.

(** ** The key of the one-time-payment filter *)

Section MerchantKey.

Context {py : Python}.

Import Classifier.

Lemma re_sub_digits_none (k : nat) (s : pystr) :
  Forall (fun c => isdigit c = false) (re_sub_from digits [] k s).
Proof.
  revert k. induction s as [|c s IH]; intros k; [constructor|].
  simpl. destruct k as [|k]; [|apply IH].
  unfold digits at 1. simpl span.
  destruct (isdigit c) eqn:Ec.
  - simpl. apply IH.
  - simpl. constructor; [exact Ec|apply IH].
Qed.

Lemma Forall_lstrip (P : N -> Prop) (s : pystr) :
  Forall P s -> Forall P (lstrip s).
Proof.
  induction 1 as [|c s Hc Hs IH]; simpl; [constructor|].
  destruct (isspace c); [exact IH|constructor; assumption].
Qed.

Lemma Forall_strip (P : N -> Prop) (s : pystr) :
  Forall P s -> Forall P (strip s).
Proof.
  intros H. unfold strip, rstrip. apply Forall_rev. apply Forall_lstrip.
  apply Forall_rev. apply Forall_lstrip. exact H.
Qed.

(** X23. No digit is left in a cleaned merchant name: the key under which
    [_filter_one_time_payments] counts a transaction, and the category that
    the rules derive from a merchant, hold no digit. *)
Theorem clean_leaves_no_digit (merchant : pystr) :
  Forall (fun c => isdigit c = false) (clean merchant).
Proof.
  unfold clean. apply Forall_strip. apply re_sub_digits_none.
Qed.

End MerchantKey.

(** ** The lines of a page *)

Section TextLines.

Context {py : Python}.

Import BankParser TextParser.

Lemma text_line_records (d : option Z) (line : pystr) :
  Forall (fun e => PrimFloat.ltb 0.01 (e_amount e) = true
                   /\ e_date e <> None
                   /\ e_merchant e = _extract_merchant (e_description e))
         (snd (text_line d line)).
Proof.
  unfold text_line. cbv zeta.
  destruct (strip line) as [|c l]; [constructor|].
  destruct (any_in skip_keywords (c :: l)); [constructor|].
  destruct (search amount_pattern (c :: l)) as [am|]; [|constructor].
  destruct (match search date_pattern (c :: l) with
            | Some date_str => Some (date_of date_str)
            | None => d
            end) as [d'|]; [|constructor].
  destruct (py_float _) as [x|]; [|constructor].
  destruct (PrimFloat.ltb 0.01 (PrimFloat.abs x)) eqn:Ha; [|constructor].
  constructor; [|constructor]. simpl.
  split; [exact Ha|]. split; [discriminate|reflexivity].
Qed.

Lemma text_lines_records (P : Emitted -> Prop) (d : option Z)
      (lines : list pystr) :
  (forall d' line, Forall P (snd (text_line d' line))) ->
  Forall P (text_lines d lines).
Proof.
  intros H. revert d. induction lines as [|line lines IH]; intros d;
    simpl; [constructor|].
  specialize (H d line). destruct (text_line d line) as [d' out].
  apply Forall_app. split; [exact H|apply IH].
Qed.

Lemma parse_text_emits (text : pystr) :
  Forall (fun e => PrimFloat.ltb 0.01 (e_amount e) = true
                   /\ e_date e <> None
                   /\ e_merchant e = _extract_merchant (e_description e))
         (_parse_text text).
Proof.
  unfold _parse_text. apply text_lines_records. intros d line.
  apply text_line_records.
Qed.

(** X24. What [_parse_text] emits: every record carries a date, an amount
    above 0.01, which is positive, and for its merchant what
    [_extract_merchant] makes of its description. *)
Theorem parse_text_records (text : pystr) :
  Forall (fun e => PrimFloat.ltb 0.01 (e_amount e) = true
                   /\ PrimFloat.ltb 0 (e_amount e) = true
                   /\ e_date e <> None
                   /\ e_merchant e = _extract_merchant (e_description e))
         (_parse_text text).
Proof.
  eapply Forall_impl; [|apply parse_text_emits].
  intros e (Ha & Hd & Hm). split; [exact Ha|].
  split; [exact (proj1 (above_cent_positive _ Ha))|]. split; assumption.
Qed.

End TextLines.

Section TextEdges.

Context {py : Python}.

Import BankParser TextParser More.

Lemma text_line_undated (line : pystr) :
  dated line = false -> text_line None line = (None, []).
Proof.
  unfold dated, skipped, text_line. cbv zeta.
  destruct (strip line) as [|c l]; [reflexivity|].
  destruct (any_in skip_keywords (c :: l)); [reflexivity|].
  cbn [negb andb].
  destruct (search date_pattern (c :: l)); [discriminate|]. intros _.
  destruct (search amount_pattern (c :: l)); reflexivity.
Qed.

Lemma text_lines_undated (pre rest : list pystr) :
  Forall (fun line => dated line = false) pre ->
  text_lines None (pre ++ rest) = text_lines None rest.
Proof.
  induction 1 as [|line pre Hl _ IH]; [reflexivity|].
  simpl. rewrite (text_line_undated line Hl). exact IH.
Qed.

Lemma split_on_nonempty (sep : N) (s : pystr) : split_on sep s <> [].
Proof.
  destruct s as [|c s]; simpl; [discriminate|].
  destruct (N.eqb c sep); [discriminate|].
  destruct (split_on sep s); discriminate.
Qed.

Lemma split_on_app (sep : N) (a b : pystr) :
  split_on sep (a ++ sep :: b) = split_on sep a ++ split_on sep b.
Proof.
  induction a as [|c a IH]; simpl.
  - rewrite N.eqb_refl. reflexivity.
  - destruct (N.eqb c sep); [rewrite IH; reflexivity|].
    rewrite IH. pose proof (split_on_nonempty sep a) as Hne.
    destruct (split_on sep a); [congruence|reflexivity].
Qed.

(** X25. An amount needs a date before it: the lines of a text that come
    before the first line with a date emit nothing, and a text without a
    date gives no transaction at all. A line with a keyword of the headers
    does not count, its date is not read. *)
Theorem undated_lines_are_lost (head : pystr) :
  Forall (fun line => dated line = false) (split_on NEWLINE head) ->
  _parse_text head = []
  /\ forall rest, _parse_text (head ++ NEWLINE :: rest) = _parse_text rest.
Proof.
  intros H. unfold _parse_text. split.
  - rewrite <- (app_nil_r (split_on NEWLINE head)).
    exact (text_lines_undated _ [] H).
  - intros rest. rewrite split_on_app. exact (text_lines_undated _ _ H).
Qed.

Lemma text_line_skipped (d : option Z) (line : pystr) :
  skipped line = true -> text_line d line = (d, []).
Proof.
  unfold skipped, text_line. cbv zeta.
  destruct (strip line) as [|c l]; [reflexivity|].
  intros ->. reflexivity.
Qed.

Lemma text_lines_kept (d : option Z) (lines : list pystr) :
  text_lines d (filter (fun line => negb (skipped line)) lines)
  = text_lines d lines.
Proof.
  revert d. induction lines as [|line lines IH]; intros d; [reflexivity|].
  simpl. destruct (skipped line) eqn:Hs; simpl.
  - rewrite (text_line_skipped d line Hs). simpl. apply IH.
  - destruct (text_line d line) as [d' out]. rewrite IH. reflexivity.
Qed.

Lemma split_on_lines (sep : N) (s : pystr) :
  Forall (fun w => ~ In sep w) (split_on sep s) /\ split_on sep s <> [].
Proof.
  induction s as [|c s [IH Hne]]; simpl.
  - split; [|discriminate]. constructor; [|constructor]. intros [].
  - destruct (N.eqb_spec c sep) as [->|Hc].
    + split; [|discriminate]. constructor; [|exact IH]. intros [].
    + destruct (split_on sep s) as [|w ws]; [congruence|].
      split; [|discriminate].
      inversion IH as [|w' ws' Hw Hws]; subst. constructor; [|exact Hws].
      intros [E|Hin]; [congruence|contradiction].
Qed.

Lemma split_on_line (sep : N) (w : pystr) :
  ~ In sep w -> split_on sep w = [w].
Proof.
  induction w as [|c w IH]; intros H; [reflexivity|]. simpl.
  destruct (N.eqb_spec c sep) as [->|Hc].
  - exfalso. apply H. left. reflexivity.
  - rewrite IH; [reflexivity|]. intros Hin. apply H. right. exact Hin.
Qed.

Lemma split_on_join (sep : N) (ws : list pystr) :
  Forall (fun w => ~ In sep w) ws -> ws <> [] ->
  split_on sep (join [sep] ws) = ws.
Proof.
  induction 1 as [|w ws Hw Hws IH]; intros Hne;
    [exfalso; apply Hne; reflexivity|].
  destruct ws as [|w' ws'].
  - simpl. apply split_on_line. exact Hw.
  - change (join [sep] (w :: w' :: ws'))
      with (w ++ sep :: join [sep] (w' :: ws')).
    rewrite split_on_app, IH by discriminate.
    rewrite (split_on_line sep w Hw). reflexivity.
Qed.

(** X26. The lines with a keyword of the headers and of the summaries
    ([Date], [Description], [Solde], [TOTAL], [Page] and the others) do not
    count: a text and what is left of it when these lines are taken out
    give the same transactions, whatever dates and amounts the lines
    hold. *)
Theorem keyword_lines_do_not_count (text : pystr) :
  _parse_text
    (join [NEWLINE]
       (filter (fun line => negb (skipped line)) (split_on NEWLINE text)))
  = _parse_text text.
Proof.
  unfold _parse_text.
  destruct (split_on_lines NEWLINE text) as [Hl _].
  set (lines := split_on NEWLINE text) in *.
  rewrite <- (text_lines_kept None lines).
  set (kept := filter _ lines).
  destruct kept as [|w ws] eqn:Ek; [reflexivity|].
  rewrite split_on_join; [reflexivity| |discriminate].
  rewrite <- Ek. unfold kept. apply Forall_forall. intros x Hx.
  apply filter_In in Hx. rewrite Forall_forall in Hl.
  exact (Hl x (proj1 Hx)).
Qed.

(** X27. What [parse_pdf] emits: on every path the amount of a record is
    not zero and its merchant is what [_extract_merchant] makes of its
    description. A page without text gives nothing, tables and all. *)
Theorem parse_pdf_records (pages : list Page) :
  Forall (fun e => nonzero (e_amount e) = true
                   /\ e_merchant e = _extract_merchant (e_description e))
         (parse_pdf pages)
  /\ parse_pdf (filter has_text pages) = parse_pdf pages.
Proof.
  split.
  - unfold parse_pdf. apply Forall_flat_map. intros page _.
    unfold parse_page.
    destruct (extract_text page) as [[|c text]|]; try constructor.
    destruct (extract_tables page) as [|table tables].
    + eapply Forall_impl; [|apply parse_text_emits].
      intros e (Ha & _ & Hm). split; [|exact Hm].
      exact (proj2 (above_cent_positive _ Ha)).
    + apply Forall_flat_map. intros t _.
      exact (parse_table_emits t).
  - unfold parse_pdf. induction pages as [|page pages IH]; [reflexivity|].
    simpl. unfold has_text at 1, parse_page at 2.
    destruct (extract_text page) as [[|c text]|] eqn:Et; simpl;
      try exact IH.
    rewrite IH. unfold parse_page. rewrite Et. reflexivity.
Qed.

End TextEdges.

(** ** The summary *)

Section SummaryProperties.

Import Main More.

Lemma dict_get_upsert {V} (k k' : pystr) (init : V) (f : V -> V)
      (d : list (pystr * V)) :
  dict_get str_eqb k (upsert k' init f d)
  = if str_eqb k' k
    then Some (f (match dict_get str_eqb k d with
                  | Some v => v
                  | None => init
                  end))
    else dict_get str_eqb k d.
Proof.
  induction d as [|[k0 v] d IH]; simpl; [reflexivity|].
  destruct (str_eqb k0 k') eqn:E0; simpl.
  - apply str_eqb_eq in E0. subst k0.
    destruct (str_eqb k' k); reflexivity.
  - rewrite IH. destruct (str_eqb k0 k) eqn:E1; [|reflexivity].
    apply str_eqb_eq in E1. subst k0.
    destruct (str_eqb k' k) eqn:E2; [|reflexivity].
    apply str_eqb_eq in E2. subst k'.
    assert (Hr : str_eqb k k = true) by (apply str_eqb_eq; reflexivity).
    congruence.
Qed.

Lemma dict_get_map {V W} (g : V -> W) (k : pystr) (d : list (pystr * V)) :
  dict_get str_eqb k (map (fun e => (fst e, g (snd e))) d)
  = option_map g (dict_get str_eqb k d).
Proof.
  induction d as [|[k0 v] d IH]; simpl; [reflexivity|].
  destruct (str_eqb k0 k); [reflexivity|exact IH].
Qed.

Lemma fold_summary_category (k : pystr) (ms : list Row)
      (d : list (pystr * TypeEntry) * list (pystr * CategoryEntry)) :
  dict_get str_eqb k (snd (fold_left summary_step ms d))
  = fold_left absorb (category_rows ms k) (dict_get str_eqb k (snd d)).
Proof.
  revert d. induction ms as [|t ms IH]; intros d; [reflexivity|].
  simpl. rewrite IH. unfold summary_step. simpl snd.
  rewrite dict_get_upsert.
  destruct (str_eqb (category_of t) k); reflexivity.
Qed.

Lemma fold_absorb_some (rows : list Row) (e : CategoryEntry) :
  fold_left absorb rows (Some e)
  = Some {| c_total := fold_left (fun x t => (x + r_amount t)%float) rows
                                 (c_total e);
            c_count := c_count e + length rows;
            c_frequency := c_frequency e;
            c_membership_type := c_membership_type e;
            c_monthly_estimate := c_monthly_estimate e |}.
Proof.
  revert e. induction rows as [|t rows IH]; intros e.
  - simpl. rewrite Nat.add_0_r. destruct e; reflexivity.
  - change (fold_left absorb (t :: rows) (Some e))
      with (fold_left absorb rows (Some (count_category t e))).
    rewrite IH. simpl. f_equal. f_equal. lia.
Qed.

Lemma estimate_not_converted (data : CategoryEntry) :
  ~ converted (c_frequency data) -> monthly_estimate data = Int 0.
Proof.
  unfold converted, monthly_estimate. intros H.
  destruct (c_frequency data) as [fr|]; [|reflexivity].
  destruct (str_eqb fr (lit "Monthly")) eqn:E1.
  { apply str_eqb_eq in E1. subst fr. tauto. }
  destruct (str_eqb fr (lit "Yearly")) eqn:E2.
  { apply str_eqb_eq in E2. subst fr. tauto. }
  destruct (str_eqb fr (lit "Weekly")) eqn:E3.
  { apply str_eqb_eq in E3. subst fr. tauto. }
  reflexivity.
Qed.

(** X28. The entry of a category in the summary: it is there when a
    membership has the category, [NULL] and the empty string counting as
    ["Unknown"]; it counts these memberships and adds their amounts up in
    their order; its frequency and its type are those of the first of them;
    and its monthly estimate is 0 unless that frequency is [Monthly],
    [Yearly] or [Weekly], so that a [NULL] one, [Quarterly] and [Bi-annual]
    all give 0. *)
Theorem summary_category_entry (memberships : list Row) (k : pystr) :
  dict_get str_eqb k (by_category (get_summary memberships))
  = category_entry (category_rows memberships k)
  /\ forall data,
       dict_get str_eqb k (by_category (get_summary memberships)) = Some data ->
       ~ converted (c_frequency data) ->
       c_monthly_estimate data = Some (Int 0).
Proof.
  assert (H : dict_get str_eqb k (by_category (get_summary memberships))
              = category_entry (category_rows memberships k)).
  { unfold get_summary. cbv zeta. simpl by_category.
    rewrite dict_get_map, fold_summary_category. simpl.
    destruct (category_rows memberships k) as [|t rows]; [reflexivity|].
    simpl. unfold absorb at 2. rewrite fold_absorb_some. reflexivity. }
  split; [exact H|].
  intros data Hd Hf. rewrite H in Hd.
  destruct (category_rows memberships k) as [|t rows]; [discriminate|].
  simpl in Hd. injection Hd as <-. simpl. f_equal.
  apply estimate_not_converted. exact Hf.
Qed.

Lemma counted_upsert {V} (count : V -> nat) (k : pystr) (init : V)
      (f : V -> V) (d : list (pystr * V)) :
  count init = 0 -> (forall v, count (f v) = S (count v)) ->
  counted count (upsert k init f d) = S (counted count d).
Proof.
  intros Hi Hf. unfold counted.
  induction d as [|[k0 v] d IH]; simpl.
  - rewrite Hf, Hi. reflexivity.
  - destruct (str_eqb k0 k); simpl; [rewrite Hf; reflexivity|].
    rewrite IH. lia.
Qed.

Lemma positive_upsert {V} (count : V -> nat) (k : pystr) (init : V)
      (f : V -> V) (d : list (pystr * V)) :
  (forall v, count (f v) = S (count v)) ->
  Forall (fun e => 1 <= count (snd e)) d ->
  Forall (fun e => 1 <= count (snd e)) (upsert k init f d).
Proof.
  intros Hf H. induction H as [|[k0 v] d Hv Hd IH]; simpl.
  - constructor; [|constructor]. simpl. rewrite Hf. lia.
  - destruct (str_eqb k0 k); constructor; try assumption.
    simpl. rewrite Hf. lia.
Qed.

Lemma fold_summary_counts (ms : list Row)
      (d : list (pystr * TypeEntry) * list (pystr * CategoryEntry)) :
  let d' := fold_left summary_step ms d in
  counted t_count (fst d') = counted t_count (fst d) + length ms
  /\ counted c_count (snd d') = counted c_count (snd d) + length ms
  /\ (Forall (fun e => 1 <= c_count (snd e)) (snd d) ->
      Forall (fun e => 1 <= c_count (snd e)) (snd d')).
Proof.
  revert d. induction ms as [|t ms IH]; intros d; cbv zeta.
  - simpl. rewrite !Nat.add_0_r. auto.
  - simpl fold_left. destruct (IH (summary_step d t)) as (H1 & H2 & H3).
    rewrite H1, H2. unfold summary_step at 2 4. simpl fst. simpl snd.
    rewrite !counted_upsert by reflexivity. simpl length.
    split; [lia|]. split; [lia|].
    intros Hp. apply H3. unfold summary_step. simpl snd.
    apply positive_upsert; [reflexivity|exact Hp].
Qed.

Lemma length_le_counted {V} (count : V -> nat) (d : list (pystr * V)) :
  Forall (fun e => 1 <= count (snd e)) d -> length d <= counted count d.
Proof.
  unfold counted. induction 1 as [|e d He _ IH]; simpl; lia.
Qed.

(** X29. The summary counts every membership once by type and once by
    category: the counts of [by_type] add up to the number of memberships,
    so do those of [by_category], and there are no more categories than
    memberships. *)
Theorem summary_counts_every_membership (memberships : list Row) :
  let s := get_summary memberships in
  counted t_count (by_type s) = length memberships
  /\ counted c_count (by_category s) = length memberships
  /\ total_memberships s <= length memberships.
Proof.
  cbv zeta. unfold get_summary. cbv zeta. simpl by_type. simpl by_category.
  simpl total_memberships.
  destruct (fold_summary_counts memberships ([], [])) as (H1 & H2 & H3).
  cbv zeta in H1, H2, H3. simpl in H1, H2.
  set (d := fold_left summary_step memberships ([], [])) in *.
  assert (Hc : counted c_count
                 (map (fun e => (fst e, estimated (snd e))) (snd d))
               = counted c_count (snd d)).
  { unfold counted. rewrite map_map. reflexivity. }
  split; [exact H1|]. split; [rewrite Hc; exact H2|].
  rewrite length_map. rewrite <- H2. apply length_le_counted.
  apply H3. constructor.
Qed.

End SummaryProperties.

(** ** Examples *)

Lemma classify_single_closed_labels_witness :
  exists c,
    Classifier._classify_single
      (Examples.parsed 0 "Netflix subscription" 15 "NETFLIX") = Ok c
    /\ if Classifier.c_is_membership c
       then (exists mt, Classifier.c_membership_type c = Some mt
                        /\ In mt More.rule_types)
            /\ (exists fr, Classifier.c_frequency c = Some fr
                           /\ In fr More.rule_frequencies)
       else Classifier.c_membership_type c = None
            /\ Classifier.c_frequency c = None.
Proof.
  eexists. split; [vm_compute; reflexivity|].
  apply (classify_single_closed_labels
           (Examples.parsed 0 "Netflix subscription" 15 "NETFLIX")).
  vm_compute. reflexivity.
Defined.

Lemma rule_based_classify_idempotent_witness :
  exists l',
    Classifier._rule_based_classify Examples.statement = Ok l'
    /\ Classifier._rule_based_classify l' = Ok l'.
Proof.
  eexists. split; [vm_compute; reflexivity|].
  apply (rule_based_classify_idempotent Examples.statement).
  vm_compute. reflexivity.
Defined.

Lemma short_reply_is_completed_by_rules_witness :
  exists l out t t',
    Classifier.decode Cases.one_label = Some (JArr l)
    /\ Classifier._classify_batch Cases.two_payments
         (Classifier.Text Cases.one_label) = Ok out
    /\ nth_error Cases.two_payments 1 = Some t
    /\ length l <= 1
    /\ nth_error out 1 = Some t' /\ Classifier.rule_based_one t = Ok t'.
Proof.
  assert (Hd : Classifier.decode Cases.one_label
               = Some (JArr [JObj [(lit "is_membership", JBool true)]]))
    by (vm_compute; reflexivity).
  destruct (Classifier._classify_batch Cases.two_payments
              (Classifier.Text Cases.one_label)) as [out|e] eqn:Hc;
    [|vm_compute in Hc; discriminate].
  destruct (short_reply_is_completed_by_rules Cases.two_payments out
              Cases.one_label _ Hd Hc 1
              (Examples.parsed 30 "Gym membership" 40 "BASIC FIT")
              eq_refl (le_n 1)) as (t' & Hn & Hr).
  exists [JObj [(lit "is_membership", JBool true)]], out,
    (Examples.parsed 30 "Gym membership" 40 "BASIC FIT"), t'.
  split; [exact Hd|]. split; [reflexivity|].
  split; [reflexivity|]. split; [apply le_n|]. split; assumption.
Defined.

Lemma stray_element_discards_reply_witness :
  Classifier.decode Cases.null_list = Some (JArr [JNull])
  /\ Classifier._classify_batch Cases.two_payments
       (Classifier.Text Cases.null_list)
     = Classifier._rule_based_classify Cases.two_payments.
Proof.
  assert (Hd : Classifier.decode Cases.null_list = Some (JArr [JNull]))
    by (vm_compute; reflexivity).
  split; [exact Hd|].
  apply (stray_element_discards_reply Cases.two_payments Cases.null_list
           [JNull] 0 JNull Hd eq_refl I).
  vm_compute. lia.
Defined.

Lemma object_reply_is_applied_witness :
  let kvs := [[(lit "is_membership", JBool true)]] in
  let batch := [Examples.parsed 0 "Netflix" 15 "NETFLIX"] in
  Classifier.decode Cases.one_label = Some (JArr (map JObj kvs))
  /\ Classifier._classify_batch batch (Classifier.Text Cases.one_label)
     = Ok (map (fun p => More.labelled_by (fst p) (snd p))
               (combine kvs batch)).
Proof.
  assert (Hd : Classifier.decode Cases.one_label
               = Some (JArr (map JObj [[(lit "is_membership", JBool true)]])))
    by (vm_compute; reflexivity).
  split; [exact Hd|].
  apply (object_reply_is_applied [Examples.parsed 0 "Netflix" 15 "NETFLIX"]
           Cases.one_label [[(lit "is_membership", JBool true)]] Hd).
  simpl. lia.
Defined.

Lemma unparseable_service_is_rule_based_witness :
  let service := fun _ : nat => Classifier.Text Examples.apology in
  (forall k, Spec.unparseable (service k))
  /\ Forall (fun t => Classifier.date t <> None) Examples.statement
  /\ Classifier.classify_transactions (Classifier.ModelAssisted service)
       Examples.statement
     = Classifier.classify_transactions Classifier.RuleBased
         Examples.statement
  /\ Classifier.classify_transactions (Classifier.ModelAssisted service)
       [Cases.undated; Cases.undated] = Raise KeyError
  /\ exists out,
       Classifier.classify_transactions Classifier.RuleBased
         [Cases.undated; Cases.undated] = Ok out
       /\ length out = 2.
Proof.
  assert (H : forall k : nat,
             Spec.unparseable (Classifier.Text Examples.apology))
    by (intros _; vm_compute; split; reflexivity).
  assert (Hd : Forall (fun t => Classifier.date t <> None)
                      Examples.statement)
    by (repeat constructor; discriminate).
  split; [exact H|]. split; [exact Hd|].
  split.
  - exact (unparseable_service_is_rule_based
             (fun _ => Classifier.Text Examples.apology) Examples.statement
             H Hd).
  - split; [vm_compute; reflexivity|].
    eexists. split; [vm_compute; reflexivity|reflexivity].
Defined.

Lemma returned_merchants_recur_witness :
  exists out r,
    Classifier.classify_transactions Classifier.RuleBased Examples.statement
    = Ok out
    /\ In r out
    /\ 2 <= length (Spec.merchant_group out (Classifier.merchant_key r)).
Proof.
  destruct (Classifier.classify_transactions Classifier.RuleBased
              Examples.statement) as [out|e] eqn:Hc;
    [|vm_compute in Hc; discriminate].
  destruct out as [|r out]; [vm_compute in Hc; discriminate|].
  exists (r :: out), r. split; [reflexivity|].
  split; [left; reflexivity|].
  exact (returned_merchants_recur Classifier.RuleBased Examples.statement
           (r :: out) r Hc (or_introl eq_refl)).
Defined.

Lemma add_monthly_costs_idempotent_witness :
  exists out,
    Forall (fun t => Classifier.category t <> None) Examples.payments
    /\ Classifier._add_monthly_costs Examples.payments = Ok out
    /\ Classifier._add_monthly_costs out = Ok out.
Proof.
  assert (Hcat : Forall (fun t => Classifier.category t <> None)
                        Examples.payments)
    by (repeat constructor; discriminate).
  destruct (Classifier._add_monthly_costs Examples.payments) as [out|e]
    eqn:Hc; [|vm_compute in Hc; discriminate].
  exists out. split; [exact Hcat|]. split; [reflexivity|].
  exact (add_monthly_costs_idempotent Examples.payments out Hcat Hc).
Defined.

Lemma unhashable_category_raises_witness :
  In Cases.listed [Cases.listed] /\ More.unhashable Cases.listed
  /\ Classifier.flagged Cases.listed = true
  /\ Forall (fun x => Classifier.date x <> None) [Cases.listed]
  /\ Classifier._add_monthly_costs [Cases.listed] = Raise TypeError
  /\ Classifier.analyze_frequency [Cases.listed] = Raise TypeError
  /\ Classifier.analyze_frequency [Cases.undated_membership; Cases.listed]
     = Raise KeyError.
Proof.
  assert (Hd : Forall (fun x => Classifier.date x <> None) [Cases.listed])
    by (repeat constructor; discriminate).
  destruct (unhashable_category_raises [Cases.listed] Cases.listed
              (or_introl eq_refl) I) as [H1 H2].
  split; [left; reflexivity|]. split; [exact I|]. split; [reflexivity|].
  split; [exact Hd|]. split; [exact H1|]. split; [exact (H2 eq_refl Hd)|].
  vm_compute. reflexivity.
Defined.

Lemma absent_category_gets_no_cost_witness :
  Forall (fun t => Classifier.category t = None) Examples.statement
  /\ Classifier._add_monthly_costs Examples.statement
     = Ok Examples.statement.
Proof.
  assert (H : Forall (fun t => Classifier.category t = None)
                     Examples.statement)
    by (repeat constructor).
  split; [exact H|]. exact (absent_category_gets_no_cost _ H).
Defined.

Lemma returned_records_are_costed_witness :
  exists out,
    Classifier.classify_transactions Classifier.RuleBased Examples.statement
    = Ok out
    /\ Forall (fun r => Classifier.flagged r = true
                        /\ Classifier.category r <> None
                        /\ (Spec.nan_category r = false ->
                            Classifier.monthly_cost r <> None
                            /\ Classifier.total_paid r <> None)) out
    /\ length out <= length Examples.statement
    /\ map Spec.nan_category out = [false; false; false]
    /\ map Classifier.monthly_cost out = [Some 15; Some 15; Some 15]%float
    /\ map Classifier.total_paid out = [Some 45; Some 45; Some 45]%float
    /\ exists labelled,
         Classifier.classify_transactions
           (Classifier.ModelAssisted
              (fun _ => Classifier.Text Cases.nan_labels))
           Cases.two_netflix = Ok labelled
         /\ map Spec.nan_category labelled = [true; true]
         /\ map Classifier.monthly_cost labelled = [None; None]
         /\ map Classifier.total_paid labelled = [None; None].
Proof.
  destruct (Classifier.classify_transactions Classifier.RuleBased
              Examples.statement) as [out|e] eqn:Hc;
    [|vm_compute in Hc; discriminate].
  exists out.
  destruct (returned_records_are_costed Classifier.RuleBased
              Examples.statement out Hc) as [H1 H2].
  split; [reflexivity|]. split; [exact H1|]. split; [exact H2|].
  vm_compute in Hc. injection Hc as <-.
  split; [vm_compute; reflexivity|].
  split; [vm_compute; reflexivity|].
  split; [vm_compute; reflexivity|].
  eexists. split; [vm_compute; reflexivity|].
  vm_compute. repeat split.
Defined.

Lemma analyze_frequency_ignores_order_witness :
  exists res res',
    Permutation Examples.payments (rev Examples.payments)
    /\ Classifier.analyze_frequency Examples.payments = Ok res
    /\ Classifier.analyze_frequency (rev Examples.payments) = Ok res'
    /\ forall k, option_map More.timing (dict_get hkey_eqb k res)
                 = option_map More.timing (dict_get hkey_eqb k res').
Proof.
  destruct (Classifier.analyze_frequency Examples.payments) as [res|e]
    eqn:H; [|vm_compute in H; discriminate].
  destruct (Classifier.analyze_frequency (rev Examples.payments))
    as [res'|e] eqn:H'; [|vm_compute in H'; discriminate].
  exists res, res'. split; [apply Permutation_rev|].
  split; [reflexivity|]. split; [reflexivity|].
  exact (analyze_frequency_ignores_order Examples.payments
           (rev Examples.payments) res res' (Permutation_rev _) H H').
Defined.

Lemma extract_merchant_shape_witness :
  let s := lit "Netflix.com 12345678 Paris" in
  let r := BankParser._extract_merchant s in
  merchant_words s <> []
  /\ split r = merchant_words s
  /\ 1 <= length (split r) <= 3
  /\ r = join [SPACE] (split r)
  /\ upper r = r
  /\ short_runs r.
Proof.
  assert (H : merchant_words (lit "Netflix.com 12345678 Paris") <> [])
    by (vm_compute; discriminate).
  split; [exact H|].
  exact (extract_merchant_shape (lit "Netflix.com 12345678 Paris") H).
Defined.

Lemma extract_merchant_ignores_case_witness :
  let s := lit "Netflix.com 12345678 Paris" in
  merchant_words s <> []
  /\ BankParser._extract_merchant (upper s) = BankParser._extract_merchant s.
Proof.
  assert (H : merchant_words (lit "Netflix.com 12345678 Paris") <> [])
    by (vm_compute; discriminate).
  split; [exact H|].
  exact (extract_merchant_ignores_case (lit "Netflix.com 12345678 Paris") H).
Defined.

Lemma table_without_column_is_empty_witness :
  let hd := Cases.headers_without_amount in
  let rows := [Cases.row_without_amount] in
  (Forall (fun h => any_in More.amount_names (BankParser.header_of h)
                    = false) hd
   \/ Forall (fun h => any_in More.description_names
                         (BankParser.header_of h) = false) hd)
  /\ BankParser._parse_table (hd :: rows) = [].
Proof.
  assert (H : Forall (fun h => any_in More.amount_names
                                 (BankParser.header_of h) = false)
                     Cases.headers_without_amount)
    by (repeat constructor).
  split; [left; exact H|].
  exact (table_without_column_is_empty Cases.headers_without_amount
           [Cases.row_without_amount] (or_introl H)).
Defined.

Lemma undated_lines_are_lost_witness :
  Forall (fun line => More.dated line = false)
         (TextParser.split_on NEWLINE Cases.undated_text)
  /\ TextParser._parse_text Cases.undated_text = []
  /\ forall rest,
       TextParser._parse_text (Cases.undated_text ++ NEWLINE :: rest)
       = TextParser._parse_text rest.
Proof.
  assert (H : Forall (fun line => More.dated line = false)
                     (TextParser.split_on NEWLINE Cases.undated_text))
    by (repeat constructor).
  split; [exact H|].
  exact (undated_lines_are_lost Cases.undated_text H).
Defined.

(** The text of a page, line by line: the header and the totals are skipped,
    the second payment takes the date of the first, and an amount of 0.01 is
    too small. *)
Lemma parse_text_example :
  map (fun e => (BankParser.e_description e, BankParser.e_amount e,
                 BankParser.e_merchant e))
      (TextParser._parse_text Cases.page_text)
  = [(lit "21 mars 2024 NETFLIX", 12.5%float, lit "21 MARS NETFLIX");
     (lit "SPOTIFY", 9.99%float, lit "SPOTIFY")]
  /\ map BankParser.e_date (TextParser._parse_text Cases.page_text)
     = [Some (19803 * Examples.DAY)%Z; Some (19803 * Examples.DAY)%Z].
Proof. vm_compute. split; reflexivity. Qed.

(** A page is read from its text, or from its tables when it has a text. *)
Lemma parse_pdf_example :
  length (TextParser.parse_pdf [Cases.text_page; Cases.table_page]) = 2
  /\ TextParser.parse_pdf [Cases.table_page] = [].
Proof. vm_compute. split; reflexivity. Qed.

(** The summary of three rows: the quarterly category has no estimate. *)
Lemma get_summary_example :
  map (fun e => (fst e, Main.c_count (snd e), Main.c_total (snd e),
                 Main.c_monthly_estimate (snd e)))
      (Main.by_category (Main.get_summary Cases.rows))
  = [(lit "NETFLIX", 2, 30%float, Some (Main.Float 15));
     (lit "GYM", 1, 90%float, Some (Main.Int 0))].
Proof. vm_compute. reflexivity. Qed.
